(** * Checkpointed pagination / fetch pipelines

    A shallow embedding of the two scripts of the repository that carry the
    resumable page-by-page fetch loop:

    - [UYAP]: "UYAP Turkish Court Records/scrape.py" (progress store,
      result sink, pagination driver and thread-pool dispatcher of [main]);
    - [ZaubaCorp]: "ZaubaCorp/scrape.py" (retrying page fetcher, page-range
      workers and the batch loop of [CompanyScraper.run]).

    Network replies are inputs of the model (a [remote] record); files are
    sequences of the items written to them; the thread pool is an explicit
    interleaving machine whose labels say which thread moves next. *)

From stdpp Require Import gmap strings list fin_maps pretty.

Open Scope Z_scope.

(** ** Python values as they come out of [json.loads] *)

Module Py.

(** Scalars found in the fields of a search result.  Nested values and
    floats do not occur in the fields the scripts read. *)
Inductive pyval :=
  | PNone
  | PBool (b : bool)
  | PInt (z : Z)
  | PStr (s : string).

#[global] Instance pyval_eq_dec : EqDecision pyval.
Proof. solve_decision. Defined.

(** [str(v)] *)
Definition str (v : pyval) : string :=
  match v with
  | PNone => "None"
  | PBool true => "True"
  | PBool false => "False"
  | PInt z => pretty z
  | PStr s => s
  end.

(** Truth value of a string and of a list: empty is false. *)
Definition truthy_str (s : string) : bool :=
  match s with EmptyString => false | String _ _ => true end.

Definition truthy_list {A} (l : list A) : bool :=
  match l with [] => false | _ :: _ => true end.

(** A JSON object with scalar fields, as a Python dict. *)
Abbreviation record := (gmap string pyval).

(** [r.get(key, dflt)] *)
Definition get (r : record) (key : string) (dflt : pyval) : pyval :=
  default dflt (r !! key).

(** An insertion-ordered dict with string keys: assigning to an existing
    key keeps its position and replaces the value, a new key goes last. *)
Fixpoint dict_set {V} (k : string) (v : V) (d : list (string * V)) : list (string * V) :=
  match d with
  | [] => [(k, v)]
  | (k', v') :: d' =>
      if decide (k = k') then (k, v) :: d' else (k', v') :: dict_set k v d'
  end.

Fixpoint dict_get {V} (d : list (string * V)) (k : string) : option V :=
  match d with
  | [] => None
  | (k', v') :: d' => if decide (k = k') then Some v' else dict_get d' k
  end.

Definition dict_keys {V} (d : list (string * V)) : list string := d.*1.

End Py.

(** ** The court-records downloader *)

Module UYAP.
Import Py.

(** *** Configuration *)

Definition TOTAL_PAGES_TO_FETCH : Z := 63815.
Definition PAGE_SIZE : Z := 10.
Definition CONCURRENT_REQUESTS : nat := 5.
Definition CSV_FILE : string := "downloaded_docs.csv".
Definition PROGRESS_FILE : string := "progress.json".
Definition CSV_COLUMNS : list string :=
  ["id"; "daire"; "esasNo"; "kararNo"; "kararTarihi"; "arananKelime";
   "durum"; "index"; "doc_text"].

#[global] Arguments TOTAL_PAGES_TO_FETCH : simpl never.
#[global] Arguments CONCURRENT_REQUESTS : simpl never.
#[global] Arguments PROGRESS_FILE : simpl never.
#[global] Arguments CSV_FILE : simpl never.

(** *** Files *)

(** The JSON document of the progress file: page numbers are integers and
    ids are strings, as [save_progress] writes them; a key may be absent
    in a file that was not written by [save_progress]. *)
Record progress_doc := ProgressDoc {
  doc_pages_done : option (list Z);
  doc_ids_downloaded : option (list string);
}.

(** One row of the output dataset, keyed by [CSV_COLUMNS]. *)
Record csv_row := CsvRow {
  row_id : string;
  row_daire : pyval;
  row_esasNo : pyval;
  row_kararNo : pyval;
  row_kararTarihi : pyval;
  row_arananKelime : pyval;
  row_durum : pyval;
  row_index : pyval;
  row_doc_text : string;
}.

(** A file is the sequence of items written to it since it was last
    truncated.  [open(path, "w")] leaves the empty sequence. *)
Inductive chunk :=
  | JsonText (d : progress_doc)
  | CsvHeader (columns : list string)
  | CsvLine (r : csv_row).

Abbreviation file := (list chunk).
Abbreviation filesystem := (gmap string file).

(** [open(path, "w")]: create or truncate. *)
Definition open_w (path : string) (fs : filesystem) : filesystem :=
  <[path := []]> fs.

(** A write through a handle opened with "w" or "a": the item goes to the
    end of the file (mode "a" creates a missing file). *)
Definition write (path : string) (c : chunk) (fs : filesystem) : filesystem :=
  <[path := default [] (fs !! path) ++ [c]]> fs.

(** [json.load(f)]: succeeds on a file holding exactly one complete JSON
    text, raises on anything else (an empty file in particular). *)
Definition json_load (f : file) : option progress_doc :=
  match f with
  | [JsonText d] => Some d
  | _ => None
  end.

(** *** Progress store *)

Record progress := Progress {
  pages_done : gset Z;
  ids_downloaded : gset string;
}.

(** [list(s)] for a set [s]: some enumeration without repetition. *)
Definition py_list {A} `{Countable A} (s : gset A) : list A := elements s.

(** [load_progress]; [None] stands for the exception of [json.load]. *)
Definition load_progress (fs : filesystem) (filepath : string) : option progress :=
  match fs !! filepath with
  | None => Some (Progress ∅ ∅)
  | Some f =>
      data ← json_load f;
      Some (Progress (list_to_set (default [] (doc_pages_done data)))
                     (list_to_set (default [] (doc_ids_downloaded data))))
  end.

(** The file operations of [save_progress], in program order. *)
Inductive fs_op :=
  | OpOpenW (path : string)
  | OpWrite (path : string) (c : chunk).

Definition fs_apply (fs : filesystem) (op : fs_op) : filesystem :=
  match op with
  | OpOpenW path => open_w path fs
  | OpWrite path c => write path c fs
  end.

Definition progress_data (p : progress) : progress_doc :=
  ProgressDoc (Some (py_list (pages_done p))) (Some (py_list (ids_downloaded p))).

Definition save_progress_ops (p : progress) (filepath : string) : list fs_op :=
  [OpOpenW filepath; OpWrite filepath (JsonText (progress_data p))].

Definition save_progress (p : progress) (filepath : string) (fs : filesystem) : filesystem :=
  foldl fs_apply fs (save_progress_ops p filepath).

(** The file system when the process dies after [k] of the operations. *)
Definition save_progress_crash (k : nat) (p : progress) (filepath : string)
    (fs : filesystem) : filesystem :=
  foldl fs_apply fs (take k (save_progress_ops p filepath)).

(** *** Result sink *)

Definition init_csv_file (csv_path : string) (columns : list string)
    (fs : filesystem) : filesystem :=
  match fs !! csv_path with
  | None => write csv_path (CsvHeader columns) (open_w csv_path fs)
  | Some _ => fs
  end.

Definition append_row_to_csv (row_data : csv_row) (csv_path : string)
    (fs : filesystem) : filesystem :=
  write csv_path (CsvLine row_data) fs.

(** *** Remote site *)

(** The body of a search reply: [data.get("data", {}).get("data", [])]
    reads two nested keys, either of which may be missing.  The replies
    modelled are those [main] can read: a JSON object whose "data", when
    present, is an object whose "data", when present, is a list of
    objects.  On a JSON reply of another shape (a list, a null under
    "data", a record that is not an object) line 240 or line 254 raises
    outside the [try] and [main] ends there; such a reply is no value of
    [page_reply], so the runs of the model are the runs in which none
    arrives.  Likewise every request returns or raises: [requests.post] is
    called without a timeout, and a request that hangs is not modelled. *)
Record site_data := SiteData { inner_data : option (list record) }.
Record site_json := SiteJson { outer_data : option site_data }.

Inductive page_reply :=
  | PageRaise                       (** any exception of the request or of the JSON decoding *)
  | PageJson (data : site_json).

Inductive doc_reply :=
  | DocRaise
  | DocText (doc_text : string).

#[global] Instance doc_reply_eq_dec : EqDecision doc_reply.
Proof. solve_decision. Defined.

(** What the site answers.  The answer to a document request may change
    over time; the page being processed when the request is made is the
    clock. *)
Record remote := Remote {
  post_aramadetaylist : Z → Z → page_reply;        (** page_number, page_size *)
  download_document : Z → string → doc_reply;      (** current page, doc_id *)
}.

Definition records_of (data : site_json) : list record :=
  default [] (inner_data (default (SiteData None) (outer_data data))).

(** *** The body of [main] for one page *)

Definition doc_id_of (r : record) : string := str (get r "id" (PStr "")).

(** Lines 252-256: the dict of the records that have an id. *)
Definition metadata_by_id (records : list record) : list (string * record) :=
  foldl (λ d r, let doc_id := doc_id_of r in
                if truthy_str doc_id then dict_set doc_id r d else d)
        [] records.

(** Lines 275-284. *)
Definition make_row (r : record) (doc_id doc_text : string) : csv_row :=
  CsvRow doc_id
         (get r "daire" (PStr "")) (get r "esasNo" (PStr ""))
         (get r "kararNo" (PStr "")) (get r "kararTarihi" (PStr ""))
         (get r "arananKelime" (PStr "")) (get r "durum" (PStr ""))
         (get r "index" (PStr "")) doc_text.

(** *** The thread pool of one page

    [ThreadPoolExecutor(max_workers=K)] owns a work queue and at most [K]
    worker threads; a thread takes the oldest queued item, runs it to
    completion and stores the outcome in its future.  [queue] holds the
    submitted calls not yet started, [workers] one slot per thread with
    the call it is running, [finished] the completed futures that
    [as_completed] has not handed out yet. *)
Record pool := Pool {
  queue : list string;
  workers : list (option string);
  finished : list (string * doc_reply);
}.

Definition new_pool (max_workers : nat) : pool :=
  Pool [] (replicate max_workers None) [].

#[global] Arguments new_pool : simpl never.

(** The calls of [download_document] that are running. *)
Definition running (p : pool) : list string := omap id (workers p).
Definition in_flight (p : pool) : nat := length (running p).

(** *** Control points of the main thread *)

Inductive pc :=
  | AtLoop (page_number : Z)
      (** head of the [for] loop, about to test [page_number] *)
  | Submitting (page_number : Z) (metadata : list (string * record))
               (todo : list string) (futures : list string)
      (** inside [with], in the submit loop: [todo] are the keys still to
          visit, [futures] the ids submitted so far *)
  | Collecting (page_number : Z) (metadata : list (string * record))
               (futures : list string) (yielded : list string)
      (** in the [as_completed] loop: [yielded] are the futures already
          handed out *)
  | Finished.

Definition current_page (c : pc) : option Z :=
  match c with
  | AtLoop _ | Finished => None
  | Submitting n _ _ _ | Collecting n _ _ _ => Some n
  end.

(** What an observer of the run sees, newest first in [st_trace]. *)
Inductive event :=
  | EvSkip (page : Z)                          (** "already processed; skipping" *)
  | EvPageFetch (page : Z)                     (** a call of [post_aramadetaylist] *)
  | EvPageError (page : Z)                     (** its exception, caught *)
  | EvNoRecords (page : Z)
  | EvSubmit (page : Z) (doc_id : string)      (** [executor.submit] *)
  | EvFetchBegin (page : Z) (doc_id : string)  (** [download_document] entered by a worker *)
  | EvFetchEnd (page : Z) (doc_id : string) (r : doc_reply)
  | EvDocError (page : Z) (doc_id : string)    (** [future.result()] raised *)
  | EvRow (page : Z) (doc_id : string)         (** [append_row_to_csv] *)
  | EvPageDone (page : Z)                      (** [pages_done.add] *)
  | EvSave (p : progress).                     (** [save_progress] *)

Record state := State {
  st_pc : pc;
  st_pages_done : gset Z;
  st_ids_downloaded : gset string;
  st_fs : filesystem;
  st_pool : pool;
  st_trace : list event;
}.

(** Which thread moves next. *)
Inductive label :=
  | Main                    (** the main thread runs to its next control point *)
  | Yield (i : nat)         (** [as_completed] hands out the [i]-th finished future *)
  | WorkerStart (w : nat)   (** worker [w] takes the oldest queued call *)
  | WorkerFinish (w : nat). (** the call run by worker [w] returns or raises *)

Section Run.

Variable site : remote.

(** Lines 217-222: the state in which the loop is entered. *)
Definition start (fs : filesystem) : option state :=
  p ← load_progress fs PROGRESS_FILE;
  Some (State (AtLoop 1) (pages_done p) (ids_downloaded p)
              (init_csv_file CSV_FILE CSV_COLUMNS fs)
              (new_pool CONCURRENT_REQUESTS) []).

(** Lines 292-294 (and 245-246): mark the page and save.  The two file
    operations of [save_progress] are one step of the main thread; the
    files between them are those of [save_progress_crash]. *)
Definition finish_page (n : Z) (s : state) (evs : list event) : state :=
  let pd := {[n]} ∪ st_pages_done s in
  let p := Progress pd (st_ids_downloaded s) in
  State (AtLoop (n + 1)) pd (st_ids_downloaded s)
        (save_progress p PROGRESS_FILE (st_fs s))
        (st_pool s)
        (EvSave p :: EvPageDone n :: evs ++ st_trace s).

Definition main_step (s : state) : option state :=
  match st_pc s with
  | AtLoop n =>
      if decide (TOTAL_PAGES_TO_FETCH < n) then
        Some (State Finished (st_pages_done s) (st_ids_downloaded s) (st_fs s)
                    (st_pool s) (st_trace s))
      else if decide (n ∈ st_pages_done s) then
        Some (State (AtLoop (n + 1)) (st_pages_done s) (st_ids_downloaded s)
                    (st_fs s) (st_pool s) (EvSkip n :: st_trace s))
      else
        match post_aramadetaylist site n PAGE_SIZE with
        | PageRaise =>
            Some (State (AtLoop (n + 1)) (st_pages_done s) (st_ids_downloaded s)
                        (st_fs s) (st_pool s)
                        (EvPageError n :: EvPageFetch n :: st_trace s))
        | PageJson data =>
            let records := records_of data in
            if truthy_list records then
              let metadata := metadata_by_id records in
              Some (State (Submitting n metadata (dict_keys metadata) [])
                          (st_pages_done s) (st_ids_downloaded s) (st_fs s)
                          (new_pool CONCURRENT_REQUESTS)
                          (EvPageFetch n :: st_trace s))
            else
              Some (finish_page n s [EvNoRecords n; EvPageFetch n])
        end
  | Submitting n metadata [] futures =>
      Some (State (Collecting n metadata futures []) (st_pages_done s)
                  (st_ids_downloaded s) (st_fs s) (st_pool s) (st_trace s))
  | Submitting n metadata (doc_id :: todo) futures =>
      if decide (doc_id ∈ st_ids_downloaded s) then
        Some (State (Submitting n metadata todo futures) (st_pages_done s)
                    (st_ids_downloaded s) (st_fs s) (st_pool s) (st_trace s))
      else
        let p := st_pool s in
        Some (State (Submitting n metadata todo (futures ++ [doc_id]))
                    (st_pages_done s) (st_ids_downloaded s) (st_fs s)
                    (Pool (queue p ++ [doc_id]) (workers p) (finished p))
                    (EvSubmit n doc_id :: st_trace s))
  | Collecting n metadata futures yielded =>
      (* the loop over [as_completed] ends when every future was handed out;
         leaving [with] then marks the page *)
      if decide (length yielded = length futures) then
        Some (finish_page n s [])
      else None
  | Finished => None
  end.

(** Lines 266-290: one iteration of the [as_completed] loop. *)
Definition yield_step (i : nat) (s : state) : option state :=
  match st_pc s with
  | Collecting n metadata futures yielded =>
      let p := st_pool s in
      '(doc_id, reply) ← finished p !! i;
      let p' := Pool (queue p) (workers p) (delete i (finished p)) in
      let c' := Collecting n metadata futures (doc_id :: yielded) in
      match reply with
      | DocRaise =>
          Some (State c' (st_pages_done s) (st_ids_downloaded s) (st_fs s) p'
                      (EvDocError n doc_id :: st_trace s))
      | DocText doc_text =>
          r ← dict_get metadata doc_id;
          Some (State c' (st_pages_done s) ({[doc_id]} ∪ st_ids_downloaded s)
                      (append_row_to_csv (make_row r doc_id doc_text) CSV_FILE (st_fs s))
                      p' (EvRow n doc_id :: st_trace s))
      end
  | _ => None
  end.

Definition worker_start (w : nat) (s : state) : option state :=
  let p := st_pool s in
  n ← current_page (st_pc s);
  slot ← workers p !! w;
  match slot, queue p with
  | None, doc_id :: q =>
      Some (State (st_pc s) (st_pages_done s) (st_ids_downloaded s) (st_fs s)
                  (Pool q (<[w := Some doc_id]> (workers p)) (finished p))
                  (EvFetchBegin n doc_id :: st_trace s))
  | _, _ => None
  end.

Definition worker_finish (w : nat) (s : state) : option state :=
  let p := st_pool s in
  n ← current_page (st_pc s);
  slot ← workers p !! w;
  doc_id ← slot;
  let reply := download_document site n doc_id in
  Some (State (st_pc s) (st_pages_done s) (st_ids_downloaded s) (st_fs s)
              (Pool (queue p) (<[w := None]> (workers p))
                    (finished p ++ [(doc_id, reply)]))
              (EvFetchEnd n doc_id reply :: st_trace s)).

Definition step (l : label) (s : state) : option state :=
  match l with
  | Main => main_step s
  | Yield i => yield_step i s
  | WorkerStart w => worker_start w s
  | WorkerFinish w => worker_finish w s
  end.

(** Running a schedule; [None] when some label is not enabled. *)
Fixpoint exec (ls : list label) (s : state) : option state :=
  match ls with
  | [] => Some s
  | l :: ls' => s' ← step l s; exec ls' s'
  end.

(** [main] on the file system [fs] under the schedule [ls]. *)
Definition run_schedule (fs : filesystem) (ls : list label) : option state :=
  s ← start fs; exec ls s.

(** The states a run started on [fs] can be in, whatever the scheduling. *)
Inductive reachable (fs : filesystem) : state → Prop :=
  | reach_start s : start fs = Some s → reachable fs s
  | reach_step s l s' : reachable fs s → step l s = Some s' → reachable fs s'.

(** The transitions of [step], one constructor per branch of the code. *)
Inductive trans : label → state → state → Prop :=
  | t_loop_end n pd ids fs p tr :
      TOTAL_PAGES_TO_FETCH < n →
      trans Main (State (AtLoop n) pd ids fs p tr) (State Finished pd ids fs p tr)
  | t_skip n pd ids fs p tr :
      ¬ TOTAL_PAGES_TO_FETCH < n → n ∈ pd →
      trans Main (State (AtLoop n) pd ids fs p tr)
                 (State (AtLoop (n + 1)) pd ids fs p (EvSkip n :: tr))
  | t_page_error n pd ids fs p tr :
      ¬ TOTAL_PAGES_TO_FETCH < n → n ∉ pd →
      post_aramadetaylist site n PAGE_SIZE = PageRaise →
      trans Main (State (AtLoop n) pd ids fs p tr)
                 (State (AtLoop (n + 1)) pd ids fs p
                        (EvPageError n :: EvPageFetch n :: tr))
  | t_page_records n pd ids fs p tr data :
      ¬ TOTAL_PAGES_TO_FETCH < n → n ∉ pd →
      post_aramadetaylist site n PAGE_SIZE = PageJson data →
      records_of data ≠ [] →
      trans Main (State (AtLoop n) pd ids fs p tr)
                 (State (Submitting n (metadata_by_id (records_of data))
                                    (dict_keys (metadata_by_id (records_of data))) [])
                        pd ids fs (new_pool CONCURRENT_REQUESTS) (EvPageFetch n :: tr))
  | t_page_empty n pd ids fs p tr data :
      ¬ TOTAL_PAGES_TO_FETCH < n → n ∉ pd →
      post_aramadetaylist site n PAGE_SIZE = PageJson data →
      records_of data = [] →
      trans Main (State (AtLoop n) pd ids fs p tr)
                 (State (AtLoop (n + 1)) ({[n]} ∪ pd) ids
                        (save_progress (Progress ({[n]} ∪ pd) ids) PROGRESS_FILE fs) p
                        (EvSave (Progress ({[n]} ∪ pd) ids) :: EvPageDone n ::
                         EvNoRecords n :: EvPageFetch n :: tr))
  | t_submit_known n metadata doc_id todo futures pd ids fs p tr :
      doc_id ∈ ids →
      trans Main (State (Submitting n metadata (doc_id :: todo) futures) pd ids fs p tr)
                 (State (Submitting n metadata todo futures) pd ids fs p tr)
  | t_submit n metadata doc_id todo futures pd ids fs p tr :
      doc_id ∉ ids →
      trans Main (State (Submitting n metadata (doc_id :: todo) futures) pd ids fs p tr)
                 (State (Submitting n metadata todo (futures ++ [doc_id])) pd ids fs
                        (Pool (queue p ++ [doc_id]) (workers p) (finished p))
                        (EvSubmit n doc_id :: tr))
  | t_submitted n metadata futures pd ids fs p tr :
      trans Main (State (Submitting n metadata [] futures) pd ids fs p tr)
                 (State (Collecting n metadata futures []) pd ids fs p tr)
  | t_page_done n metadata futures yielded pd ids fs p tr :
      length yielded = length futures →
      trans Main (State (Collecting n metadata futures yielded) pd ids fs p tr)
                 (State (AtLoop (n + 1)) ({[n]} ∪ pd) ids
                        (save_progress (Progress ({[n]} ∪ pd) ids) PROGRESS_FILE fs) p
                        (EvSave (Progress ({[n]} ∪ pd) ids) :: EvPageDone n :: tr))
  | t_yield_error i n metadata futures yielded pd ids fs p tr doc_id :
      finished p !! i = Some (doc_id, DocRaise) →
      trans (Yield i) (State (Collecting n metadata futures yielded) pd ids fs p tr)
                      (State (Collecting n metadata futures (doc_id :: yielded)) pd ids fs
                             (Pool (queue p) (workers p) (delete i (finished p)))
                             (EvDocError n doc_id :: tr))
  | t_yield_row i n metadata futures yielded pd ids fs p tr doc_id doc_text r :
      finished p !! i = Some (doc_id, DocText doc_text) →
      dict_get metadata doc_id = Some r →
      trans (Yield i) (State (Collecting n metadata futures yielded) pd ids fs p tr)
                      (State (Collecting n metadata futures (doc_id :: yielded)) pd
                             ({[doc_id]} ∪ ids)
                             (append_row_to_csv (make_row r doc_id doc_text) CSV_FILE fs)
                             (Pool (queue p) (workers p) (delete i (finished p)))
                             (EvRow n doc_id :: tr))
  | t_worker_start w c n pd ids fs p tr doc_id q :
      current_page c = Some n →
      workers p !! w = Some None →
      queue p = doc_id :: q →
      trans (WorkerStart w) (State c pd ids fs p tr)
                            (State c pd ids fs
                                   (Pool q (<[w := Some doc_id]> (workers p)) (finished p))
                                   (EvFetchBegin n doc_id :: tr))
  | t_worker_finish w c n pd ids fs p tr doc_id :
      current_page c = Some n →
      workers p !! w = Some (Some doc_id) →
      trans (WorkerFinish w) (State c pd ids fs p tr)
                             (State c pd ids fs
                                    (Pool (queue p) (<[w := None]> (workers p))
                                          (finished p ++ [(doc_id, download_document site n doc_id)]))
                                    (EvFetchEnd n doc_id (download_document site n doc_id) :: tr)).

End Run.

(** *** Observations on states *)

Definition futures_of (c : pc) : list string :=
  match c with
  | Submitting _ _ _ futures | Collecting _ _ futures _ => futures
  | AtLoop _ | Finished => []
  end.

Definition yielded_of (c : pc) : list string :=
  match c with
  | Collecting _ _ _ yielded => yielded
  | _ => []
  end.

Definition todo_of (c : pc) : list string :=
  match c with
  | Submitting _ _ todo _ => todo
  | _ => []
  end.

Definition metadata_of (c : pc) : list (string * record) :=
  match c with
  | Submitting _ metadata _ _ | Collecting _ metadata _ _ => metadata
  | AtLoop _ | Finished => []
  end.

(** The futures of the page that were not handed out yet. *)
Definition unsettled (p : pool) : list string :=
  queue p ++ running p ++ (finished p).*1.

Definition quiescent (p : pool) : Prop :=
  queue p = [] ∧ running p = [] ∧ finished p = [].

Record coherent (s : state) : Prop := Coherent {
  coh_workers : length (workers (st_pool s)) = CONCURRENT_REQUESTS;
  coh_futures :
    futures_of (st_pc s) ≡ₚ yielded_of (st_pc s) ++ unsettled (st_pool s);
  coh_nodup : NoDup (futures_of (st_pc s) ++ todo_of (st_pc s));
  coh_fresh : ∀ doc_id,
    doc_id ∈ unsettled (st_pool s) → doc_id ∉ st_ids_downloaded s;
  coh_keys : ∀ doc_id,
    doc_id ∈ futures_of (st_pc s) ++ todo_of (st_pc s) →
    is_Some (dict_get (metadata_of (st_pc s)) doc_id) ∧ doc_id ≠ "";
  coh_page : ∀ n,
    current_page (st_pc s) = Some n →
    1 ≤ n ≤ TOTAL_PAGES_TO_FETCH ∧ n ∉ st_pages_done s;
  coh_loop : ∀ n, st_pc s = AtLoop n → 1 ≤ n;
}.

(** *** Observations on traces *)

Definition page_fetches (tr : list event) : list Z :=
  omap (λ e, match e with EvPageFetch n => Some n | _ => None end) tr.

Definition doc_fetches (tr : list event) : list (Z * string) :=
  omap (λ e, match e with EvFetchBegin n doc_id => Some (n, doc_id) | _ => None end) tr.

(** The loop has reached page [m]. *)
Definition entered (c : pc) (m : Z) : Prop :=
  match c with
  | AtLoop n => m < n
  | Submitting n _ _ _ | Collecting n _ _ _ => m ≤ n
  | Finished => True
  end.

(** No call of [download_document] comes after a successful call for the
    same id (the trace is newest first). *)
Fixpoint no_refetch (tr : list event) : Prop :=
  match tr with
  | [] => True
  | e :: older =>
      match e with
      | EvFetchBegin _ doc_id => ∀ m t, EvFetchEnd m doc_id (DocText t) ∉ older
      | _ => True
      end ∧ no_refetch older
  end.

(** What holds of the fetches of a run that started from progress [p0]. *)
Record fetch_ok (p0 : progress) (s : state) : Prop := FetchOk {
  fo_pages_mono : pages_done p0 ⊆ st_pages_done s;
  fo_ids_mono : ids_downloaded p0 ⊆ st_ids_downloaded s;
  fo_page_fetch : ∀ m,
    m ∈ page_fetches (st_trace s) → (m ∉ pages_done p0) ∧ entered (st_pc s) m;
  fo_page_nodup : NoDup (page_fetches (st_trace s));
  fo_doc_fetch : ∀ m doc_id,
    (m, doc_id) ∈ doc_fetches (st_trace s) →
    (doc_id ∉ ids_downloaded p0) ∧ doc_id ≠ "" ∧ entered (st_pc s) m ∧
    (current_page (st_pc s) = Some m →
     doc_id ∈ futures_of (st_pc s) ∧ (doc_id ∉ queue (st_pool s)));
  fo_doc_nodup : NoDup (doc_fetches (st_trace s));
  fo_fetched : ∀ m doc_id t,
    EvFetchEnd m doc_id (DocText t) ∈ st_trace s →
    doc_id ∈ st_ids_downloaded s ∨
    (current_page (st_pc s) = Some m ∧ (doc_id, DocText t) ∈ finished (st_pool s));
  fo_no_refetch : no_refetch (st_trace s);
}.

(** How often [download_document] was called for [doc_id]. *)
Definition fetch_count (doc_id : string) (tr : list event) : nat :=
  length (filter (λ f, f.2 = doc_id) (doc_fetches tr)).

Definition fetch_ends (tr : list event) : list (Z * string) :=
  omap (λ e, match e with EvFetchEnd n doc_id _ => Some (n, doc_id) | _ => None end) tr.

(** What holds of the units and pages a run has settled. *)
Record settle_ok (site : remote) (p0 : progress) (s : state) : Prop := SettleOk {
  so_count :
    length (doc_fetches (st_trace s)) =
    (length (fetch_ends (st_trace s)) + in_flight (st_pool s))%nat;
  so_submit : ∀ m doc_id,
    EvSubmit m doc_id ∈ st_trace s →
    doc_id ≠ "" ∧
    ((m, doc_id) ∈ fetch_ends (st_trace s) ∨
     (current_page (st_pc s) = Some m ∧
      doc_id ∈ queue (st_pool s) ++ running (st_pool s)));
  so_row : ∀ m doc_id, EvRow m doc_id ∈ st_trace s → doc_id ≠ "";
  so_ids : ∀ doc_id,
    doc_id ∈ st_ids_downloaded s →
    doc_id ∈ ids_downloaded p0 ∨ ∃ m, EvRow m doc_id ∈ st_trace s;
  so_page : ∀ m,
    m ∈ page_fetches (st_trace s) →
    m ∈ st_pages_done s ∨ post_aramadetaylist site m PAGE_SIZE = PageRaise ∨
    current_page (st_pc s) = Some m;
  so_current : ∀ m,
    current_page (st_pc s) = Some m →
    m ∈ page_fetches (st_trace s) ∧
    ∃ data, post_aramadetaylist site m PAGE_SIZE = PageJson data;
  so_done : ∀ m,
    m ∈ st_pages_done s →
    m ∈ pages_done p0 ∨
    (m ∈ page_fetches (st_trace s) ∧
     ∃ data, post_aramadetaylist site m PAGE_SIZE = PageJson data);
}.

(** What holds of the two files of a run started on [fs0]. *)
Record disk_ok (fs0 : filesystem) (p0 : progress) (s : state) : Prop := DiskOk {
  do_csv : ∃ rows,
    st_fs s !! CSV_FILE =
      Some (default [] (init_csv_file CSV_FILE CSV_COLUMNS fs0 !! CSV_FILE)
            ++ (CsvLine <$> rows)) ∧
    ∀ r, r ∈ rows → row_id r ≠ "" ∧ ∃ m, EvRow m (row_id r) ∈ st_trace s;
  do_progress : ∃ p,
    load_progress (st_fs s) PROGRESS_FILE = Some p ∧
    pages_done p0 ⊆ pages_done p ∧ pages_done p ⊆ st_pages_done s ∧
    ids_downloaded p0 ⊆ ids_downloaded p ∧ ids_downloaded p ⊆ st_ids_downloaded s;
  do_synced :
    current_page (st_pc s) = None →
    load_progress (st_fs s) PROGRESS_FILE =
      Some (Progress (st_pages_done s) (st_ids_downloaded s));
}.

(** Every page skipped by the run was done when the run started. *)
Definition skips_ok (p0 : progress) (s : state) : Prop :=
  ∀ m, EvSkip m ∈ st_trace s → m ∈ pages_done p0.

(** *** A bound on the length of a run *)





(** A step that marks a page: it is a step of the main thread that leaves
    page [n] with an idle pool, every submitted call ended, the page added
    to [pages_done] and the progress file holding the new state. *)
Definition marks_page (s s' : state) (l : label) (n : Z) : Prop :=
  l = Main ∧
  (current_page (st_pc s) = Some n ∨ st_pc s = AtLoop n) ∧
  st_pc s' = AtLoop (n + 1) ∧
  (n ∉ st_pages_done s) ∧
  st_pages_done s' = {[n]} ∪ st_pages_done s ∧
  st_ids_downloaded s' = st_ids_downloaded s ∧
  quiescent (st_pool s) ∧
  length (yielded_of (st_pc s)) = length (futures_of (st_pc s)) ∧
  (∀ doc_id, EvSubmit n doc_id ∈ st_trace s →
             ∃ r, EvFetchEnd n doc_id r ∈ st_trace s) ∧
  load_progress (st_fs s') PROGRESS_FILE =
    Some (Progress (st_pages_done s') (st_ids_downloaded s')).

(** A step that marks nothing and leaves the progress file alone. *)
Definition keeps_progress (s s' : state) : Prop :=
  st_pages_done s' = st_pages_done s ∧
  st_fs s' !! PROGRESS_FILE = st_fs s !! PROGRESS_FILE.

End UYAP.
(** ** The company-list scraper *)

Module ZaubaCorp.

Definition company : Type := string * string.   (** CIN, company name *)

(** *** Files *)

Inductive item :=
  | IntText (z : Z)                    (** [str(n)] for an integer *)
  | CsvLine (cells : list string).

Abbreviation file := (list item).
Abbreviation filesystem := (gmap string file).

Definition open_w (path : string) (fs : filesystem) : filesystem :=
  <[path := []]> fs.

Definition write (path : string) (c : item) (fs : filesystem) : filesystem :=
  <[path := default [] (fs !! path) ++ [c]]> fs.

(** *** The extraction service *)

(** What the HTML of a 200 reply holds once parsed. *)
Inductive html :=
  | HtmlRaises                           (** no JSON body, no "browserHtml", a parser error *)
  | HtmlNoTable
  | HtmlTable (companies : list company).

Inductive http_reply :=
  | PostRaises                           (** timeout or connection error of [requests.post] *)
  | Response (status_code : Z) (body : html).

(** The reply to the [attempt]-th request for [page]. *)
Definition service : Type := Z → nat → http_reply.

Inductive event :=
  | Request (page : Z) (attempt : nat)
  | LogError (page : Z)
  | Sleep (seconds : Z)
  | Put (page : Z) (companies : list company)       (** [results_queue.put] *)
  | SaveProgress (page : Z).

(** *** The scraper object *)

Record scraper := Scraper {
  max_workers : Z;
  current_page : Z;
  companies_found : Z;
  disk : filesystem;
}.

Definition companies_file : string := "companies.csv".
Definition progress_file : string := "progress.txt".
Definition total_companies_target : Z := 3000000.

(** [load_progress]: [None] is the [ValueError] of [int] on a file that
    does not hold exactly one integer. *)
Definition load_progress (fs : filesystem) : option Z :=
  match fs !! progress_file with
  | None => Some 1
  | Some [IntText n] => Some n
  | Some _ => None
  end.

Inductive fs_op :=
  | OpOpenW (path : string)
  | OpWrite (path : string) (c : item).

Definition fs_apply (fs : filesystem) (op : fs_op) : filesystem :=
  match op with
  | OpOpenW path => open_w path fs
  | OpWrite path c => write path c fs
  end.

Definition save_progress_ops (page : Z) : list fs_op :=
  [OpOpenW progress_file; OpWrite progress_file (IntText page)].

Definition save_progress (s : scraper) : scraper :=
  Scraper (max_workers s) (current_page s) (companies_found s)
          (foldl fs_apply (disk s) (save_progress_ops (current_page s))).

Definition save_progress_crash (k : nat) (s : scraper) : filesystem :=
  foldl fs_apply (disk s) (take k (save_progress_ops (current_page s))).

(** [__init__] *)
Definition init (max_workers : Z) (fs : filesystem) : option scraper :=
  page ← load_progress fs;
  Some (Scraper max_workers page 0 fs).

Definition CR : Ascii.ascii := Ascii.ascii_of_nat 13.
Definition LF : Ascii.ascii := Ascii.ascii_of_nat 10.

(** The line breaks of a text as a file read in text mode sees them:
    a line feed, a carriage return, or the two in a row as one. *)
Fixpoint line_breaks (s : string) : nat :=
  match s with
  | EmptyString => 0%nat
  | String c rest =>
      if decide (c = CR) then
        match rest with
        | String c' rest' =>
            if decide (c' = LF) then S (line_breaks rest')
            else S (line_breaks rest)
        | EmptyString => 1%nat
        end
      else if decide (c = LF) then S (line_breaks rest)
      else line_breaks rest
  end.

(** The line ends an item puts into its file.  A number is written
    without one.  [csv.writer] ends a row with a line terminator and
    writes its cells as they are (in quotes when they hold a line break),
    so a row has one line end more for every line break in its cells. *)
Definition line_ends (it : item) : nat :=
  match it with
  | IntText _ => 0%nat
  | CsvLine cells => S (sum_list_with line_breaks cells)
  end.

(** The lines the iteration over a file yields: one for every line end,
    and one for the text after the last line end when there is any. *)
Definition file_lines (f : file) : nat :=
  (sum_list_with line_ends f
   + match last f with
     | Some (IntText _) => 1
     | _ => 0
     end)%nat.

(** [count_existing_companies]: the lines of the file, less one. *)
Definition count_existing_companies (fs : filesystem) : Z :=
  match fs !! companies_file with
  | None => 0
  | Some lines => Z.of_nat (file_lines lines) - 1
  end.

Definition save_companies_batch (companies : list company) (fs : filesystem) : filesystem :=
  match companies with
  | [] => fs
  | _ :: _ =>
      let rows := (λ c : company, CsvLine [c.1; c.2]) <$> companies in
      match fs !! companies_file with
      | Some _ => foldl (λ fs r, write companies_file r fs) fs rows
      | None =>
          foldl (λ fs r, write companies_file r fs)
                (open_w companies_file fs)
                (CsvLine ["CIN"; "Company Name"] :: rows)
      end
  end.

Section Service.

Variable zyte : service.

(** The body of the [for attempt in ...] loop of [scrape_page], over the
    attempts that remain. *)
Fixpoint scrape_attempts (page_number : Z) (attempts : list nat)
    : option (list company) * list event :=
  match attempts with
  | [] => (None, [])
  | attempt :: rest =>
      let on_exception :=
        let '(r, evs) := scrape_attempts page_number rest in
        (r, Request page_number attempt :: LogError page_number ::
            (if decide (attempt < 2)%nat then [Sleep (2 ^ Z.of_nat attempt)] else [])
            ++ evs) in
      match zyte page_number attempt with
      | PostRaises => on_exception
      | Response status_code body =>
          if decide (status_code ≠ 200) then
            let '(r, evs) := scrape_attempts page_number rest in
            (r, Request page_number attempt :: LogError page_number ::
                Sleep (2 ^ Z.of_nat attempt) :: evs)
          else
            match body with
            | HtmlRaises => on_exception
            | HtmlNoTable =>
                (None, [Request page_number attempt; LogError page_number])
            | HtmlTable companies =>
                (Some companies, [Request page_number attempt])
            end
      end
  end.

Definition scrape_page (page_number : Z) : option (list company) * list event :=
  scrape_attempts page_number (seq 0 3).

(** [process_page_range]: what is put on the queue, and what happens. *)
Fixpoint process_pages (pages : list Z) : list event :=
  match pages with
  | [] => []
  | page :: rest =>
      let '(companies, evs) := scrape_page page in
      evs ++
      match companies with
      | Some (c :: cs) => [Put page (c :: cs)]
      | _ => []
      end ++ Sleep 1 :: process_pages rest
  end.

Definition process_page_range (start_page end_page : Z) : list event :=
  process_pages (seqZ start_page (end_page + 1 - start_page)).

Definition puts (evs : list event) : list (Z * list company) :=
  omap (λ e, match e with Put page cs => Some (page, cs) | _ => None end) evs.

Definition requests (evs : list event) : list Z :=
  omap (λ e, match e with Request page _ => Some page | _ => None end) evs.

Definition sleeps (evs : list event) : list Z :=
  omap (λ e, match e with Sleep seconds => Some seconds | _ => None end) evs.

(** An attempt that ends in the retry path: the request raised, the
    status is not 200, or reading the reply raised. *)
Definition failing (r : http_reply) : Prop :=
  match r with
  | PostRaises => True
  | Response status_code body => status_code ≠ 200 ∨ body = HtmlRaises
  end.

(** Lines 126-131: the range handed to worker [i]. *)
Definition worker_range (s : scraper) (i : Z) : Z * Z :=
  let batch_size := max_workers s * 2 in
  let end_page := current_page s + batch_size - 1 in
  let start := current_page s + i * (batch_size `div` max_workers s) in
  let end_ := start + (batch_size `div` max_workers s) - 1 in
  (start, if decide (end_ > end_page) then end_page else end_).

(** Lines 135-144: the main thread takes results while fewer than
    [batch_size] pages are complete. *)
Fixpoint collect (batch_size : Z) (results : list (Z * list company))
    (completed_pages : gset Z) (found : Z) (fs : filesystem)
    : gset Z * Z * filesystem :=
  match results with
  | [] => (completed_pages, found, fs)
  | (page, companies) :: rest =>
      if decide (Z.of_nat (size completed_pages) < batch_size) then
        match companies with
        | [] => collect batch_size rest completed_pages found fs
        | _ :: _ =>
            collect batch_size rest ({[page]} ∪ completed_pages)
                    (found + Z.of_nat (length companies))
                    (save_companies_batch companies fs)
        end
      else (completed_pages, found, fs)
  end.

(** [max(completed_pages)]; the code calls it on a non-empty set only. *)
Definition max_page (pages : gset Z) : Z :=
  match elements pages with
  | [] => 0
  | page :: rest => foldr Z.max page rest
  end.

(** One iteration of the [while] loop of [run], for the executions in
    which every result put on the queue is taken by the loop of the same
    iteration (the 60 s timeout only ends the wait once the workers are
    done). *)
Definition run_batch (s : scraper) : scraper * list event :=
  let batch_size := max_workers s * 2 in
  let evs :=
    flat_map (λ i, let '(start, end_) := worker_range s i in
                   process_page_range start end_)
             (seqZ 0 (max_workers s)) in
  let '(completed_pages, found, fs) :=
    collect batch_size (puts evs) ∅ (companies_found s) (disk s) in
  let page :=
    if decide (completed_pages = ∅) then current_page s + batch_size
    else max_page completed_pages + 1 in
  let s' := save_progress (Scraper (max_workers s) page found fs) in
  (s', evs ++ [SaveProgress page] ++
       (if decide (completed_pages = ∅) then
          [LogError (current_page s); Sleep 60] else [])).

(** [run] for at most [fuel] iterations of the [while] loop. *)
Fixpoint run_loop (fuel : nat) (s : scraper) : scraper * list event :=
  match fuel with
  | O => (s, [])
  | S fuel' =>
      if decide (companies_found s < total_companies_target) then
        let '(s', evs) := run_batch s in
        let '(s'', evs') := run_loop fuel' s' in
        (s'', evs ++ evs')
      else (s, [])
  end.

Definition run (fuel : nat) (s : scraper) : scraper * list event :=
  run_loop fuel
    (Scraper (max_workers s) (current_page s)
             (count_existing_companies (disk s)) (disk s)).

End Service.

End ZaubaCorp.


(** ** Concrete sites and schedules *)

Module Samples.
Import Py UYAP.

Definition page_of (records : list record) : page_reply :=
  PageJson (SiteJson (Some (SiteData (Some records)))).

Definition record_a : record := {[ "id" := PStr "a" ]}.
Definition record_b : record := {[ "id" := PStr "b"; "daire" := PStr "46. Hukuk Dairesi" ]}.
Definition record_no_id : record := {[ "daire" := PStr "1. Hukuk Dairesi" ]}.
Definition record_empty_id : record := {[ "id" := PStr "" ]}.

(** The state the schedule [ls] leads to. *)
Definition after (site : remote) (fs : filesystem) (ls : list label) : state :=
  default (State Finished ∅ ∅ ∅ (Pool [] [] []) []) (run_schedule site fs ls).

(** Pages 1 and 2 both list document "a"; no document can be downloaded. *)
Definition repeated_id_site : remote :=
  Remote (λ n _, if decide (n = 1 ∨ n = 2) then page_of [record_a] else PageRaise)
         (λ _ _, DocRaise).

Definition repeated_id_schedule : list label :=
  [Main; Main; Main; WorkerStart 0; WorkerFinish 0; Yield 0; Main;
   Main; Main; Main; WorkerStart 0].

(** Page 1 has no records, page 2 has one. *)
Definition empty_first_page_site : remote :=
  Remote (λ n _, if decide (n = 1) then page_of []
                 else if decide (n = 2) then page_of [record_a] else PageRaise)
         (λ _ _, DocText "karar").

(** Every search request fails. *)
Definition down_site : remote :=
  Remote (λ _ _, PageRaise) (λ _ _, DocRaise).

(** A resumed run: page 1 and document "a" are already done; page 2 lists
    "a" again, a new document "b" and two records without a usable id. *)
Definition resumed_progress : progress := Progress {[1]} {["a"]}.

Definition resumed_fs : filesystem :=
  save_progress resumed_progress PROGRESS_FILE ∅.

Definition mixed_page : site_json :=
  SiteJson (Some (SiteData (Some [record_a; record_no_id; record_b; record_empty_id]))).

Definition mixed_site : remote :=
  Remote (λ n _, if decide (n = 2) then PageJson mixed_page else PageRaise)
         (λ _ doc_id, DocText ("text of " +:+ doc_id)).

(** Skip page 1, fetch page 2, submit "b", run it, collect it. *)
Definition mixed_schedule : list label :=
  [Main; Main; Main; Main; Main; WorkerStart 2; WorkerFinish 2; Yield 0].

Definition mixed_started : state := after mixed_site resumed_fs [].
Definition mixed_collected : state := after mixed_site resumed_fs mixed_schedule.
Definition mixed_marked : state :=
  after mixed_site resumed_fs (mixed_schedule ++ [Main]).

(** Page 1 lists two records, neither with a usable id. *)
Definition idless_site : remote :=
  Remote (λ n _, if decide (n = 1) then page_of [record_no_id; record_empty_id]
                 else PageRaise)
         (λ _ _, DocRaise).

(** The state of the round-trip example of the specification. *)
Definition example_progress : progress := Progress {[1; 2; 5]} {["a"; "b"]}.

(** Progress one page further than [resumed_progress]. *)
Definition next_progress : progress := Progress {[1; 2]} {["a"; "b"]}.

(** The extraction service answers every request with an HTTP error. *)
Definition dead_service : ZaubaCorp.service :=
  λ _ _, ZaubaCorp.Response 503 ZaubaCorp.HtmlRaises.

(** Page 1 cannot be fetched, every other page lists one company. *)
Definition hole_service : ZaubaCorp.service :=
  λ page _, if decide (page = 1) then ZaubaCorp.Response 500 ZaubaCorp.HtmlRaises
            else ZaubaCorp.Response 200 (ZaubaCorp.HtmlTable [("U01", "Acme")]).

(** A fresh scraper with three workers. *)
Definition fresh_scraper : ZaubaCorp.scraper := ZaubaCorp.Scraper 3 1 0 ∅.

End Samples.

(** ** The order of the visits and the content of the result file *)

Module UYAPRun.
Import Py UYAP.

(** Every page request comes after the requests for smaller page numbers
    only (the trace is newest first). *)
Fixpoint fetched_in_order (tr : list event) : Prop :=
  match tr with
  | [] => True
  | e :: older =>
      match e with
      | EvPageFetch m => ∀ m', EvPageFetch m' ∈ older → m' < m
      | _ => True
      end ∧ fetched_in_order older
  end.

(** The pages the [for] loop has left behind. *)
Definition passed (c : pc) (m : Z) : Prop :=
  match c with
  | AtLoop n | Submitting n _ _ _ | Collecting n _ _ _ => m < n
  | Finished => m ≤ TOTAL_PAGES_TO_FETCH
  end.

#[global] Instance passed_dec c m : Decision (passed c m).
Proof. destruct c; simpl; apply _. Defined.

(** What became of page [m] in the run started from progress [p0]: it was
    skipped, or it was requested and then marked or its request raised. *)
Definition visited (site : remote) (p0 : progress) (s : state) (m : Z) : Prop :=
  (m ∈ pages_done p0 ∧ EvSkip m ∈ st_trace s ∧ (EvPageFetch m ∉ st_trace s)) ∨
  ((m ∉ pages_done p0) ∧ EvPageFetch m ∈ st_trace s ∧ (EvSkip m ∉ st_trace s) ∧
   ((m ∈ st_pages_done s ∧ ∃ data, post_aramadetaylist site m PAGE_SIZE = PageJson data) ∨
    ((m ∉ st_pages_done s) ∧ post_aramadetaylist site m PAGE_SIZE = PageRaise ∧
     EvPageError m ∈ st_trace s))).

Record visit_ok (site : remote) (p0 : progress) (s : state) : Prop := VisitOk {
  vo_order : fetched_in_order (st_trace s);
  vo_passed : ∀ m, 1 ≤ m → passed (st_pc s) m → visited site p0 s m;
  vo_range : ∀ m, EvPageFetch m ∈ st_trace s → 1 ≤ m ≤ TOTAL_PAGES_TO_FETCH;
  vo_error : ∀ m,
    EvPageError m ∈ st_trace s →
    post_aramadetaylist site m PAGE_SIZE = PageRaise ∧ 1 ≤ m ∧
    (m ∉ st_pages_done s) ∧ m ≤ TOTAL_PAGES_TO_FETCH ∧ passed (st_pc s) m;
}.

(** What the result file and the pool hold in a run started on [fs0] from
    progress [p0]. *)
Record sink_ok (site : remote) (fs0 : filesystem) (p0 : progress) (s : state)
    : Prop := SinkOk {
  sk_finished : ∀ n doc_id reply,
    current_page (st_pc s) = Some n →
    (doc_id, reply) ∈ finished (st_pool s) →
    reply = download_document site n doc_id;
  sk_metadata : ∀ n,
    current_page (st_pc s) = Some n →
    ∃ data, post_aramadetaylist site n PAGE_SIZE = PageJson data ∧
            metadata_of (st_pc s) = metadata_by_id (records_of data);
  sk_rows : ∃ rows,
    st_fs s !! CSV_FILE =
      Some (default [] (init_csv_file CSV_FILE CSV_COLUMNS fs0 !! CSV_FILE)
            ++ (CsvLine <$> rows)) ∧
    NoDup (row_id <$> rows) ∧
    (∀ doc_id, doc_id ∈ st_ids_downloaded s ↔
               doc_id ∈ ids_downloaded p0 ∨ doc_id ∈ row_id <$> rows) ∧
    (∀ r, r ∈ rows → row_id r ∉ ids_downloaded p0) ∧
    (∀ r, r ∈ rows → ∃ n data metadata,
       post_aramadetaylist site n PAGE_SIZE = PageJson data ∧
       dict_get (metadata_by_id (records_of data)) (row_id r) = Some metadata ∧
       download_document site n (row_id r) = DocText (row_doc_text r) ∧
       r = make_row metadata (row_id r) (row_doc_text r));
  sk_other : ∀ path,
    path ≠ CSV_FILE → path ≠ PROGRESS_FILE → st_fs s !! path = fs0 !! path;
}.

(** The files a run started on [fs0] leaves behind when it is stopped.
    Stopped between two steps in state [s], it leaves the files of [s].
    Stopped inside the [save_progress] of the step that marks a page and
    leads to [s], it leaves the files as they are after [k] of the file
    operations of that call: the old progress file ([k = 0]), an empty
    one ([k = 1]), the new one (from [k = 2] on); the trace of [s] then
    lists what the run did up to the call. *)
Inductive left_behind (site : remote) (fs0 : filesystem) : state → filesystem → Prop :=
  | left_between s :
      reachable site fs0 s →
      left_behind site fs0 s (st_fs s)
  | left_in_save s0 s k :
      reachable site fs0 s0 →
      step site Main s0 = Some s →
      st_pages_done s ≠ st_pages_done s0 →
      left_behind site fs0 s
        (save_progress_crash k (Progress (st_pages_done s) (st_ids_downloaded s))
                             PROGRESS_FILE (st_fs s0)).

(** The records of a page that carry the id [doc_id], in page order. *)
Definition records_with_id (doc_id : string) (records : list record) : list record :=
  filter (λ r, doc_id_of r = doc_id) records.

(** The ids of a page in the order of their first occurrence. *)
Fixpoint first_occurrences (ids : list string) (seen : list string) : list string :=
  match ids with
  | [] => []
  | doc_id :: rest =>
      if decide (doc_id = "" ∨ doc_id ∈ seen) then first_occurrences rest seen
      else doc_id :: first_occurrences rest (doc_id :: seen)
  end.

End UYAPRun.

(** ** The batches of the company-list scraper, seen as a whole *)

Module ZaubaCorpBatch.
Import ZaubaCorp.

(** The pages of the ranges handed to the workers of one batch, worker
    after worker (lines 126-131 with the [range] of line 108). *)
Definition batch_pages (s : scraper) : list Z :=
  flat_map (λ i, let '(start, end_) := worker_range s i in
                 seqZ start (end_ + 1 - start))
           (seqZ 0 (max_workers s)).

(** How many requests [scrape_page] makes for a page. *)
Definition attempts_made (zyte : service) (page : Z) : nat :=
  length (requests (scrape_page zyte page).2).

(** What [process_page_range] puts on the queue for a page: nothing when
    [scrape_page] returned [None] or an empty list. *)
Definition page_result (zyte : service) (page : Z) : option (Z * list company) :=
  match (scrape_page zyte page).1 with
  | Some (c :: cs) => Some (page, c :: cs)
  | _ => None
  end.

(** The lines [save_companies_batch] writes for the results taken from
    the queue. *)
Definition rows_of_puts (results : list (Z * list company)) : list item :=
  flat_map (λ pc, (λ c : company, CsvLine [c.1; c.2]) <$> pc.2) results.

Definition companies_header : item := CsvLine ["CIN"; "Company Name"].

(** The companies file does not end in the middle of a line: it is
    absent, empty, or its last item is a row. *)
Definition whole_lines (fs : filesystem) : Prop :=
  ∀ f z, fs !! companies_file = Some f → last f ≠ Some (IntText z).

(** A batch stopped by [KeyboardInterrupt] in the loop of lines 135-144,
    when [k] results have been taken from the queue: line 146 is not
    reached, so [current_page] is still the first page of the batch when
    the handler of lines 157-159 calls [save_progress]. *)
Definition interrupted_batch (zyte : service) (k : nat) (s : scraper) : scraper :=
  let batch_size := max_workers s * 2 in
  let evs :=
    flat_map (λ i, let '(start, end_) := worker_range s i in
                   process_page_range zyte start end_)
             (seqZ 0 (max_workers s)) in
  let '(completed_pages, found, fs) :=
    collect batch_size (take k (puts evs)) ∅ (companies_found s) (disk s) in
  save_progress (Scraper (max_workers s) (current_page s) found fs).

(** *** The table of a page (lines 73-86) *)

(** A [td] cell: its text and, when the cell holds a link, the text of
    the first one. *)
Record td := Td {
  td_text : string;
  td_a : option string;
}.

Section Table.

(** [str.strip] *)
Variable strip : string → string.

(** The loop over [table.find_all('tr')[1:]]: a row is a list of cells. *)
Definition table_companies (rows : list (list td)) : list company :=
  omap (λ cols,
          match cols with
          | c0 :: c1 :: _ =>
              Some (strip (td_text c0), strip (default (td_text c1) (td_a c1)))
          | _ => None
          end)
       (drop 1 rows).

End Table.

End ZaubaCorpBatch.

(** ** More sites and runs *)

Module MoreSamples.
Import Py UYAP Samples.

(** A first run in which the request for page 1 raised, and a second run
    started on the files it left. *)
Definition failed_first_run : state := after down_site ∅ [Main].
Definition second_run : state := after mixed_site (st_fs failed_first_run) [Main].

(** A page on which id "a" occurs twice. *)
Definition record_a_again : record := {[ "id" := PStr "a"; "durum" := PStr "x" ]}.
Definition twice_a : list record := [record_a; record_no_id; record_b; record_a_again].

(** The first attempt for a page times out, the second gets the table. *)
Definition flaky_service : ZaubaCorp.service :=
  λ page attempt,
    match attempt with
    | O => ZaubaCorp.PostRaises
    | _ => ZaubaCorp.Response 200 (ZaubaCorp.HtmlTable [("U01", "Acme")])
    end.

(** Every page lists one company, whose name holds a line break. *)
Definition two_line_service : ZaubaCorp.service :=
  λ page attempt,
    ZaubaCorp.Response 200
      (ZaubaCorp.HtmlTable [("U01", "A" +:+ String ZaubaCorp.LF "B")]).

End MoreSamples.

(** ** The extraction service behind the two fetchers of the downloader *)

Module UYAPZyte.
Import Py UYAP.

Definition ZYTE_API_KEY : string := "".

(** Truth value of a JSON scalar. *)
Definition truthy (v : pyval) : bool :=
  match v with
  | PNone => false
  | PBool b => b
  | PInt z => bool_decide (z ≠ 0)
  | PStr s => truthy_str s
  end.

(** The keys of the [payload] dicts the script builds. *)
Record payload := Payload {
  url : string;
  httpRequestMethod : string;
  httpResponseBody : bool;
  customHttpRequestHeaders : list (string * string);
  httpRequestText : option string;
}.

(** What [requests.post], [raise_for_status] and [resp.json] make of a
    request.  A reply that is JSON is an object with scalar fields. *)
Inductive zyte_reply :=
  | PostRaises                     (** [requests.post] raised *)
  | StatusRaises                   (** [raise_for_status]: a 4xx or 5xx status *)
  | JsonRaises                     (** [resp.json]: the body is not JSON *)
  | Json (data : record).

(** Lines 131-154: the body of the search request, the value under the
    key "data". *)
Definition original_site_payload (page_number page_size : Z) : list (string * pyval) :=
  [("arananKelime", PStr "");
   ("Bam Hukuk Mahkemeleri", PStr "İstanbul Bölge Adliye Mahkemesi 46. Hukuk Dairesi");
   ("Hukuk Mahkemeleri", PStr "Bakırköy 7. Asliye Ticaret Mahkemesi");
   ("esasYil", PStr "");
   ("esasIlkSiraNo", PStr "");
   ("esasSonSiraNo", PStr "");
   ("kararYil", PStr "");
   ("kararIlkSiraNo", PStr "");
   ("kararSonSiraNo", PStr "");
   ("baslangicTarihi", PStr "");
   ("bitisTarihi", PStr "");
   ("siralama", PStr "3");
   ("siralamaDirection", PStr "desc");
   ("birimHukukMah",
    PStr ("Istanbul Bölge Adliye Mahkemesi 1. Hukuk Dairesi+Adana Bölge Adliye Mahkemesi 1. Hukuk Dairesi+"
          +:+ "Adana Bölge Adliye Mahkemesi 11. Hukuk Dairesi+Adana Bölge Adliye Mahkemesi 4. Hukuk Dairesi+"
          +:+ "Ankara Bölge Adliye Mahkemesi 20. Hukuk Dairesi+...+Bakırköy 7. Asliye Ticaret Mahkemesi"));
   ("pageSize", PInt page_size);
   ("pageNumber", PInt page_number)].

Section Service.

(** The service, given the headers and the payload of a request. *)
Variable zyte : list (string * string) → payload → zyte_reply.
(** [base64.b64encode(s.encode("utf-8")).decode("utf-8")] *)
Variable b64encode : string → string.
(** [base64.b64decode(s).decode("utf-8", errors="replace")]; [None] is the
    exception of [b64decode] on a string that is not base64. *)
Variable b64decode : string → option string.
(** [json.dumps] of the search request. *)
Variable json_dumps : list (string * pyval) → string.
(** [json.loads] of a search reply; [None] is [JSONDecodeError]. *)
Variable json_loads : string → option site_json.

Definition headers : list (string * string) :=
  [("Content-Type", "application/json");
   ("Authorization", "Basic " +:+ b64encode (ZYTE_API_KEY +:+ ":"))].

(** [zyte_request]; [None] stands for an exception. *)
Definition zyte_request (p : payload) : option record :=
  match zyte headers p with
  | Json data =>
      if httpResponseBody p && bool_decide (is_Some (data !! "httpResponseBody")) then
        let raw_b64 := get data "httpResponseBody" PNone in
        decoded ←
          (if truthy raw_b64 then
             match raw_b64 with
             | PStr s => b64decode s
             | _ => None                 (* [b64decode] of a number: TypeError *)
             end
           else Some "");
        Some (<["decodedBody" := PStr decoded]> data)
      else Some data
  | _ => None
  end.

(** The [zyte_payload] of lines 159-174. *)
Definition search_payload (page_number page_size : Z) : payload :=
  Payload "https://emsal.uyap.gov.tr/aramadetaylist" "POST" true
    [("User-Agent", "Mozilla/5.0");
     ("Accept", "*/*");
     ("Accept-Language", "en-US,en;q=0.9");
     ("Content-Type", "application/json; charset=UTF-8");
     ("Origin", "https://emsal.uyap.gov.tr");
     ("Referer", "https://emsal.uyap.gov.tr/");
     ("X-Requested-With", "XMLHttpRequest")]
    (Some (json_dumps (original_site_payload page_number page_size))).

Definition post_aramadetaylist (page_number page_size : Z) : page_reply :=
  match zyte_request (search_payload page_number page_size) with
  | None => PageRaise
  | Some data =>
      match get data "decodedBody" (PStr "") with
      | PStr raw_body =>
          match json_loads raw_body with
          | Some parsed_json => PageJson parsed_json
          | None => PageRaise            (* RuntimeError *)
          end
      | _ => PageRaise                   (* [json.loads] of a non-string: TypeError *)
      end
  end.

(** The [zyte_payload] of lines 195-202. *)
Definition document_payload (doc_id : string) : payload :=
  Payload ("https://emsal.uyap.gov.tr/getDokuman?id=" +:+ doc_id) "GET" true
    [("User-Agent", "Mozilla/5.0")] None.

Definition download_document (doc_id : string) : doc_reply :=
  match zyte_request (document_payload doc_id) with
  | None => DocRaise
  | Some data =>
      match get data "decodedBody" (PStr "") with
      | PStr doc_text => DocText doc_text
      | _ => DocRaise                    (* [len] of a non-string: TypeError *)
      end
  end.

(** The site [main] talks to. *)
Definition site : remote :=
  Remote post_aramadetaylist (λ _, download_document).

End Service.

End UYAPZyte.

Module ZyteSamples.
Import Py UYAP UYAPZyte.

(** A service that answers every request with an empty JSON object. *)
Definition silent_zyte : list (string * string) → payload → zyte_reply :=
  λ _ _, Json ∅.

(** A service that answers every request with the body "a2FyYXI=". *)
Definition karar_zyte : list (string * string) → payload → zyte_reply :=
  λ _ _, Json {[ "httpResponseBody" := PStr "a2FyYXI="; "decodedBody" := PStr "stale" ]}.

(** Stand-ins for the library functions: a decoder that knows one string,
    and a JSON reader that accepts nothing. *)
Definition one_b64decode (s : string) : option string :=
  if decide (s = "a2FyYXI=") then Some "karar" else None.

Definition no_json (s : string) : option site_json := None.

End ZyteSamples.

(** * Facts about the model *)

#[local] Set Warnings "-clear-no-such-hyp".

Module PyFacts.
Import Py.

Lemma truthy_str_spec s : truthy_str s = true ↔ s ≠ "".
Proof. destruct s; simpl; split; congruence. Qed.

Lemma dict_keys_set_in {V} k (v : V) d :
  k ∈ dict_keys d → dict_keys (dict_set k v d) = dict_keys d.
Proof.
  unfold dict_keys. induction d as [|[k' v'] d IH]; intros Hin; simpl.
  - by apply elem_of_nil in Hin.
  - destruct (decide (k = k')) as [->|Hne]; simpl; [done|].
    f_equal. apply IH. simpl in Hin. apply elem_of_cons in Hin. naive_solver.
Qed.

Lemma dict_keys_set_notin {V} k (v : V) d :
  k ∉ dict_keys d → dict_keys (dict_set k v d) = dict_keys d ++ [k].
Proof.
  unfold dict_keys. induction d as [|[k' v'] d IH]; intros Hin; simpl; [done|].
  simpl in Hin. apply not_elem_of_cons in Hin as [Hne Hin].
  rewrite decide_False by done. simpl. f_equal. by apply IH.
Qed.

Lemma dict_get_is_Some {V} (d : list (string * V)) k :
  is_Some (dict_get d k) ↔ k ∈ dict_keys d.
Proof.
  unfold dict_keys. induction d as [|[k' v'] d IH]; simpl.
  - split; [intros [? ?]; done | intros ?%elem_of_nil; done].
  - rewrite elem_of_cons. destruct (decide (k = k')) as [->|Hne].
    + split; eauto.
    + rewrite IH. naive_solver.
Qed.

Lemma truthy_list_spec {A} (l : list A) : truthy_list l = true ↔ l ≠ [].
Proof. destruct l; simpl; split; congruence. Qed.





End PyFacts.

Module UYAPFacts.
Import Py PyFacts UYAP.

Lemma progress_file_not_csv : PROGRESS_FILE ≠ CSV_FILE.
Proof. done. Qed.


(** A JSON null is not an empty id: [str(None)] is "None". *)
Example doc_id_of_null : doc_id_of {[ "id" := PNone ]} = "None".
Proof. done. Qed.

(** *** Files *)

Lemma lookup_open_w path path' fs :
  open_w path fs !! path' = if decide (path = path') then Some [] else fs !! path'.
Proof. unfold open_w. apply lookup_insert. Qed.

Lemma lookup_write path path' c fs :
  write path c fs !! path' =
  if decide (path = path') then Some (default [] (fs !! path) ++ [c]) else fs !! path'.
Proof. unfold write. apply lookup_insert. Qed.

Lemma lookup_save_progress p path path' fs :
  save_progress p path fs !! path' =
  if decide (path = path') then Some [JsonText (progress_data p)] else fs !! path'.
Proof.
  unfold save_progress; simpl. rewrite lookup_write, !lookup_open_w.
  by repeat case_decide.
Qed.

Lemma load_save_progress p path fs :
  load_progress (save_progress p path fs) path = Some p.
Proof.
  unfold load_progress. rewrite lookup_save_progress, decide_True by done.
  simpl. unfold py_list. rewrite !list_to_set_elements_L. by destruct p.
Qed.

Lemma lookup_save_progress_crash k p path path' fs :
  save_progress_crash k p path fs !! path' =
  if decide (path = path') then
    match k with
    | O => fs !! path
    | 1%nat => Some []
    | _ => Some [JsonText (progress_data p)]
    end
  else fs !! path'.
Proof.
  unfold save_progress_crash, save_progress_ops.
  destruct k as [|[|k]]; simpl; rewrite ?take_nil; simpl; unfold write, open_w;
    case_decide; by simplify_map_eq.
Qed.

Lemma load_progress_list path pages ids fs :
  load_progress (write path (JsonText (ProgressDoc (Some pages) (Some ids)))
                       (open_w path fs)) path =
  Some (Progress (list_to_set pages) (list_to_set ids)).
Proof.
  unfold load_progress. rewrite lookup_write, lookup_open_w, !decide_True by done.
  done.
Qed.

Lemma load_progress_other fs fs' path :
  fs' !! path = fs !! path → load_progress fs' path = load_progress fs path.
Proof. unfold load_progress. by intros ->. Qed.

Lemma lookup_init_csv_file csv_path columns path fs :
  path ≠ csv_path → init_csv_file csv_path columns fs !! path = fs !! path.
Proof.
  intros Hne. unfold init_csv_file. destruct (fs !! csv_path); [done|].
  rewrite lookup_write, !lookup_open_w. repeat case_decide; congruence.
Qed.

Lemma init_csv_file_is_Some csv_path columns fs :
  is_Some (init_csv_file csv_path columns fs !! csv_path).
Proof.
  unfold init_csv_file. destruct (fs !! csv_path) eqn:Hf; [by rewrite Hf|].
  rewrite lookup_write, decide_True by done. eauto.
Qed.

Lemma lookup_append_row_to_csv row csv_path path fs :
  append_row_to_csv row csv_path fs !! path =
  if decide (csv_path = path) then Some (default [] (fs !! csv_path) ++ [CsvLine row])
  else fs !! path.
Proof. apply lookup_write. Qed.

Lemma metadata_by_id_keys records :
  NoDup (dict_keys (metadata_by_id records)) ∧
  ∀ k, k ∈ dict_keys (metadata_by_id records) ↔ k ≠ "" ∧ ∃ r, r ∈ records ∧ doc_id_of r = k.
Proof.
  unfold metadata_by_id.
  cut (∀ d, NoDup (dict_keys d) →
    let d' := foldl (λ d r, let doc_id := doc_id_of r in
                if truthy_str doc_id then dict_set doc_id r d else d) d records in
    NoDup (dict_keys d') ∧
    ∀ k, k ∈ dict_keys d' ↔ k ∈ dict_keys d ∨ (k ≠ "" ∧ ∃ r, r ∈ records ∧ doc_id_of r = k)).
  { intros H. destruct (H [] (NoDup_nil_2)) as [H1 H2]. split; [done|].
    intros k. rewrite H2. unfold dict_keys; simpl. rewrite elem_of_nil. naive_solver. }
  induction records as [|r records IH]; intros d Hd; simpl.
  - split; [done|]. intros k. split; [eauto|]. intros [?|(_ & r & Hr%elem_of_nil & _)]; done.
  - destruct (truthy_str (doc_id_of r)) eqn:Ht.
    + apply truthy_str_spec in Ht.
      destruct (IH (dict_set (doc_id_of r) r d)) as [H1 H2].
      { destruct (decide (doc_id_of r ∈ dict_keys d)) as [Hin|Hin].
        - by rewrite dict_keys_set_in.
        - rewrite dict_keys_set_notin by done.
          apply NoDup_app. split_and!; [done| |apply NoDup_singleton].
          intros x Hx ->%list_elem_of_singleton. done. }
      split; [done|]. intros k. rewrite H2.
      setoid_rewrite elem_of_cons.
      destruct (decide (doc_id_of r ∈ dict_keys d)) as [Hin|Hin].
      * rewrite dict_keys_set_in by done. naive_solver.
      * rewrite dict_keys_set_notin by done.
        rewrite elem_of_app, list_elem_of_singleton. naive_solver.
    + destruct (IH d Hd) as [H1 H2]. split; [done|].
      intros k. rewrite H2. setoid_rewrite elem_of_cons.
      assert (doc_id_of r = "") as Hr.
      { destruct (doc_id_of r); [done|discriminate]. }
      naive_solver.
Qed.


(** Pool bookkeeping *)

Lemma running_start (ws : list (option string)) w doc_id :
  ws !! w = Some None →
  omap id (<[w := Some doc_id]> ws) ≡ₚ doc_id :: omap id ws.
Proof.
  revert w. induction ws as [|x ws IH]; intros [|w] Hw; simplify_eq/=; [done|].
  destruct x as [x|]; simpl.
  - rewrite IH by done. apply Permutation_swap.
  - by apply IH.
Qed.

Lemma running_finish (ws : list (option string)) w doc_id :
  ws !! w = Some (Some doc_id) →
  omap id ws ≡ₚ doc_id :: omap id (<[w := None]> ws).
Proof.
  revert w. induction ws as [|x ws IH]; intros [|w] Hw; simplify_eq/=; [done|].
  destruct x as [x|]; simpl.
  - rewrite IH by done. apply Permutation_swap.
  - by apply IH.
Qed.

Lemma omap_replicate_None {A} n : omap id (replicate n (@None A)) = [].
Proof. induction n; simpl; auto. Qed.

Lemma finished_yield (fin : list (string * doc_reply)) i doc_id r :
  fin !! i = Some (doc_id, r) → fin.*1 ≡ₚ doc_id :: (delete i fin).*1.
Proof. intros H. by rewrite (delete_Permutation fin i _ H) at 1. Qed.

Lemma new_pool_unsettled k : unsettled (new_pool k) = [].
Proof. unfold unsettled, new_pool, running; simpl. by rewrite omap_replicate_None. Qed.

Lemma new_pool_workers k : length (workers (new_pool k)) = k.
Proof. apply length_replicate. Qed.

Lemma unsettled_submit p doc_id :
  unsettled (Pool (queue p ++ [doc_id]) (workers p) (finished p)) ≡ₚ doc_id :: unsettled p.
Proof.
  unfold unsettled, running; simpl. rewrite <- (assoc_L (++)). simpl.
  by rewrite <- Permutation_middle.
Qed.

Lemma unsettled_yield p i doc_id r :
  finished p !! i = Some (doc_id, r) →
  unsettled p ≡ₚ doc_id :: unsettled (Pool (queue p) (workers p) (delete i (finished p))).
Proof.
  intros Hi. unfold unsettled, running; simpl.
  rewrite (finished_yield _ _ _ _ Hi). by rewrite <- !Permutation_middle.
Qed.

Lemma unsettled_start p w doc_id q :
  workers p !! w = Some None → queue p = doc_id :: q →
  unsettled (Pool q (<[w := Some doc_id]> (workers p)) (finished p)) ≡ₚ unsettled p.
Proof.
  intros Hw Hq. unfold unsettled, running; simpl. rewrite Hq.
  rewrite (running_start _ _ _ Hw). simpl. by rewrite <- Permutation_middle.
Qed.

Lemma unsettled_finish p w doc_id r :
  workers p !! w = Some (Some doc_id) →
  unsettled (Pool (queue p) (<[w := None]> (workers p)) (finished p ++ [(doc_id, r)]))
    ≡ₚ unsettled p.
Proof.
  intros Hw. unfold unsettled, running; simpl.
  rewrite (running_finish _ _ _ Hw), fmap_app. simpl.
  rewrite <- Permutation_middle. apply Permutation_app_head.
  by rewrite app_nil_r, <- Permutation_middle.
Qed.

Opaque new_pool CONCURRENT_REQUESTS TOTAL_PAGES_TO_FETCH PROGRESS_FILE CSV_FILE.

Lemma unsettled_nil p : unsettled p = [] → quiescent p.
Proof.
  unfold unsettled, quiescent. intros H.
  apply app_eq_nil in H as [? H]. apply app_eq_nil in H as [? H].
  split_and!; [done..|]. by apply fmap_nil_inv in H.
Qed.

Section Invariants.
Variable site : remote.

Lemma step_trans l s s' : step site l s = Some s' ↔ trans site l s s'.
Proof.
  split.
  - destruct s as [c pd ids fs p tr]. destruct l as [|i|w|w]; simpl.
    + unfold main_step, finish_page; simpl.
      destruct c as [n|n metadata [|doc_id todo] futures|n metadata futures yielded|];
        simpl; intros Hstep; repeat (case_decide || case_match); simplify_eq;
        try (by econstructor).
      * constructor; try done. by apply truthy_list_spec.
      * eapply t_page_empty; try done.
        destruct (records_of data); [done|discriminate].
    + unfold yield_step; simpl. destruct c; try done.
      destruct (finished p !! i) as [[doc_id reply]|] eqn:Hi; simpl; [|done].
      destruct reply; simpl.
      * intros [= <-]. by constructor.
      * destruct (dict_get metadata doc_id) eqn:Hg; simpl; [|done].
        intros [= <-]. by constructor.
    + unfold worker_start; simpl.
      destruct (current_page c) as [n|] eqn:Hc; simpl; [|done].
      destruct (workers p !! w) as [[?|]|] eqn:Hslot; simpl; try done.
      destruct (queue p) as [|doc_id q] eqn:Hq; [done|].
      intros [= <-]. by econstructor.
    + unfold worker_finish; simpl.
      destruct (current_page c) as [n|] eqn:Hc; simpl; [|done].
      destruct (workers p !! w) as [[?|]|] eqn:Hslot; simpl; try done.
      intros [= <-]. by econstructor.
  - destruct 1; simpl; unfold main_step, finish_page, yield_step, worker_start,
      worker_finish; simpl;
      repeat match goal with
             | H : _ = _ |- _ => rewrite H
             end; simpl;
      repeat case_decide; try done.
    + destruct (records_of data); done.
    + by rewrite H0.
Qed.


Lemma coherent_start fs s : start fs = Some s → coherent s.
Proof.
  unfold start. intros H. simplify_option_eq.
  split; simpl.
  - apply new_pool_workers.
  - by rewrite new_pool_unsettled.
  - constructor.
  - intros ?. rewrite new_pool_unsettled. by intros ?%elem_of_nil.
  - by intros ? ?%elem_of_nil.
  - done.
  - intros n [= <-]. done.
Qed.

Lemma coherent_quiescent s :
  coherent s → length (yielded_of (st_pc s)) = length (futures_of (st_pc s)) →
  quiescent (st_pool s).
Proof.
  intros Hc Hlen. apply unsettled_nil.
  pose proof (coh_futures s Hc) as Hp. apply Permutation_length in Hp.
  rewrite length_app in Hp. apply nil_length_inv. lia.
Qed.

Lemma coherent_step l s s' : coherent s → step site l s = Some s' → coherent s'.
Proof.
  intros [Hw Hf Hn Hfr Hk Hp Hl] Hstep%step_trans.
  destruct Hstep; simpl in *.
  - (* end of the loop *) by split.
  - (* skip *)
    split; simpl; try done. intros ? [= <-]. specialize (Hl _ eq_refl). lia.
  - (* page error *)
    split; simpl; try done. intros ? [= <-]. specialize (Hl _ eq_refl). lia.
  - (* page with records *)
    destruct (metadata_by_id_keys (records_of data)) as [Hnd Hkeys].
    split; simpl; rewrite ?new_pool_unsettled, ?app_nil_r; try done.
    + by intros ? ?%elem_of_nil.
    + intros doc_id Hin. split; [by apply dict_get_is_Some|].
      apply Hkeys in Hin. tauto.
    + intros ? [= <-]. specialize (Hl _ eq_refl). split; [lia|done].
  - (* page without records *)
    split; simpl; try done. intros ? [= <-]. specialize (Hl _ eq_refl). lia.
  - (* id already downloaded: not submitted *)
    split; simpl; try done.
    + apply NoDup_app in Hn as (? & Hd & Hn'). apply NoDup_app. split_and!; [done| |].
      * intros x Hx. specialize (Hd x Hx). rewrite not_elem_of_cons in Hd. tauto.
      * by apply NoDup_cons in Hn' as [_ ?].
    + intros x Hx. apply Hk. rewrite elem_of_app, elem_of_cons in *. tauto.
  - (* submit *)
    split; simpl; rewrite ?unsettled_submit; try done.
    + rewrite Hf. symmetry. apply Permutation_cons_append.
    + by rewrite <- (assoc_L (++)).
    + intros x Hx. rewrite unsettled_submit in Hx.
      apply elem_of_cons in Hx as [->|Hx]; [done|]. by apply Hfr.
    + intros x Hx. apply Hk. by rewrite <- (assoc_L (++)) in Hx.
  - (* end of the submit loop *)
    by split.
  - (* leaving [with]: the page is marked *)
    split; simpl; try done.
    + apply Permutation_length in Hf. rewrite length_app in Hf.
      assert (unsettled p = []) as -> by (apply nil_length_inv; lia). done.
    + constructor.
    + by intros ? ?%elem_of_nil.
    + intros ? [= <-]. destruct (Hp n eq_refl). lia.
  - (* a future that raised is handed out *)
    rewrite (unsettled_yield _ _ _ _ H) in Hf.
    setoid_rewrite (unsettled_yield _ _ _ _ H) in Hfr.
    split; simpl; try done.
    + by rewrite Hf, Permutation_middle.
    + intros x Hx. apply Hfr. by right.
  - (* a future with a document is handed out *)
    rewrite (unsettled_yield _ _ _ _ H) in Hf.
    setoid_rewrite (unsettled_yield _ _ _ _ H) in Hfr.
    split; simpl; try done.
    + by rewrite Hf, Permutation_middle.
    + intros x Hx. rewrite elem_of_union, elem_of_singleton.
      intros [->|Hin].
      * rewrite app_nil_r, Hf, <- Permutation_middle in Hn.
        apply NoDup_cons in Hn as [Hni _]. apply Hni. rewrite elem_of_app. tauto.
      * apply (Hfr x); [by right|done].
  - (* a worker takes a call *)
    split; simpl; rewrite ?(unsettled_start _ _ _ _ H0 H1); try done.
    + by rewrite length_insert.
    + intros x Hx. rewrite (unsettled_start _ _ _ _ H0 H1) in Hx. by apply Hfr.
  - (* a call returns *)
    split; simpl; rewrite ?(unsettled_finish _ _ _ _ H0); try done.
    + by rewrite length_insert.
    + intros x Hx. rewrite (unsettled_finish _ _ _ _ H0) in Hx. by apply Hfr.
Qed.

Lemma reachable_load fs s :
  reachable site fs s → ∃ p0, load_progress fs PROGRESS_FILE = Some p0.
Proof.
  induction 1 as [s Hs|]; [|done]. unfold start in Hs.
  destruct (load_progress fs PROGRESS_FILE); [eauto|done].
Qed.

Lemma exec_reachable fs ls s s' :
  reachable site fs s → exec site ls s = Some s' → reachable site fs s'.
Proof.
  revert s. induction ls as [|l ls IH]; intros s Hs; simpl.
  - by intros [= <-].
  - destruct (step site l s) as [s1|] eqn:Hstep; [|done]. simpl.
    apply IH. by eapply reach_step.
Qed.

Lemma run_schedule_reachable fs ls s :
  run_schedule site fs ls = Some s → reachable site fs s.
Proof.
  unfold run_schedule. destruct (start fs) as [s0|] eqn:Hs; [|done]. simpl.
  apply exec_reachable. by constructor.
Qed.

Lemma no_refetch_split tr newer m doc_id older :
  no_refetch tr → tr = newer ++ EvFetchBegin m doc_id :: older →
  ∀ m' t, EvFetchEnd m' doc_id (DocText t) ∉ older.
Proof.
  revert tr. induction newer as [|e newer IH]; intros tr Hnr ->; simpl in Hnr.
  - by destruct Hnr.
  - destruct Hnr as [_ Hnr]. by eapply IH.
Qed.

Lemma reachable_coherent fs s : reachable site fs s → coherent s.
Proof.
  induction 1 as [s Hs|s l s' _ IH Hstep].
  - by eapply coherent_start.
  - by eapply coherent_step.
Qed.

(** An event that is not the newest one of its kind is in the older part. *)
Ltac older H :=
  repeat (apply elem_of_cons in H as [H|H]; [discriminate H|]).

Lemma fetch_ok_start fs p0 s :
  load_progress fs PROGRESS_FILE = Some p0 → start fs = Some s → fetch_ok p0 s.
Proof.
  unfold start. intros Hl Hs. rewrite Hl in Hs. simpl in Hs. simplify_eq.
  split; simpl; try done; try apply NoDup_nil_2.
  - by intros ? ?%elem_of_nil.
  - by intros ? ? ?%elem_of_nil.
  - by intros ? ? ? ?%elem_of_nil.
Qed.

Lemma current_page_entered c n : current_page c = Some n → entered c n.
Proof. destruct c; simpl; intros [= ->]; lia. Qed.

Lemma coherent_unsettled_nodup s : coherent s → NoDup (unsettled (st_pool s)).
Proof.
  intros Hc. pose proof (coh_nodup s Hc) as Hn.
  apply NoDup_app in Hn as (Hn & _ & _).
  rewrite (coh_futures s Hc) in Hn. by apply NoDup_app in Hn as (_ & _ & ?).
Qed.

Lemma coherent_unsettled_future s doc_id :
  coherent s → doc_id ∈ unsettled (st_pool s) → doc_id ∈ futures_of (st_pc s).
Proof. intros Hc Hin. rewrite (coh_futures s Hc), elem_of_app. by right. Qed.

Lemma elem_of_delete_other {A} (l : list A) i x y :
  l !! i = Some y → x ∈ l → x = y ∨ x ∈ delete i l.
Proof.
  intros Hi Hx. rewrite (delete_Permutation l i y Hi) in Hx.
  by apply elem_of_cons in Hx.
Qed.

Lemma fetch_ok_step p0 l s s' :
  coherent s → fetch_ok p0 s → step site l s = Some s' → fetch_ok p0 s'.
Proof.
  intros Hc [Hpm Him Hpf Hpn Hdf Hdn Hfd Hnr] Hstep%step_trans.
  pose proof (coherent_unsettled_nodup s Hc) as Hund.
  pose proof (λ d, coherent_unsettled_future s d Hc) as Hunf.
  destruct Hc as [Hw Hf Hn Hfr Hk Hp Hl].
  destruct Hstep; simpl in *; split; simpl; try done.
  all: try (intros m d t Hin; older Hin; by destruct (Hfd m d t Hin) as [?|[? ?]]; eauto).
  all: try (intros m Hm; destruct (Hpf m Hm); split; [done|lia]).
  all: try (intros m d Hm; destruct (Hdf m d Hm) as (? & ? & ? & ?);
            split_and!; [done|done|lia|done]).
  all: try (intros m [->|Hm]%elem_of_cons;
            [split; [set_solver|lia] | destruct (Hpf m Hm); split; [done|lia]]).
  all: try (constructor; [intros Hin; destruct (Hpf n Hin); lia | done]).
  all: try (clear -Hpm Him; set_solver).
  - (* a page with records is entered: older fetches are of earlier pages *)
    intros m d Hm. destruct (Hdf m d Hm) as (? & ? & ? & ?).
    split_and!; [done|done|lia|]. intros [= ->]. lia.
  - (* submit *)
    intros m d Hm. destruct (Hdf m d Hm) as (? & ? & ? & Hcur).
    split_and!; try done. intros Heq. destruct (Hcur Heq) as [Hin Hnq].
    split; [set_solver|]. rewrite not_elem_of_app. split; [done|].
    intros ->%list_elem_of_singleton.
    apply NoDup_app in Hn as (_ & Hd & _). apply (Hd doc_id Hin). left.
  - (* the page is marked: nothing is left in the pool *)
    intros m d t Hin. older Hin. destruct (Hfd m d t Hin) as [?|[? Hfin]]; [by left|].
    apply Permutation_length in Hf. rewrite length_app in Hf.
    assert (unsettled p = []) as Hnil by (apply nil_length_inv; lia).
    apply unsettled_nil in Hnil as (_ & _ & Hnil). rewrite Hnil in Hfin.
    by apply elem_of_nil in Hfin.
  - (* a failed future is handed out *)
    intros m d t Hin. older Hin. destruct (Hfd m d t Hin) as [?|[? Hfin]]; [by left|].
    right. split; [done|].
    by destruct (elem_of_delete_other _ _ _ _ H Hfin) as [?|?].
  - (* a document is handed out *)
    intros m d t Hin. older Hin. destruct (Hfd m d t Hin) as [?|[? Hfin]].
    + left. set_solver.
    + destruct (elem_of_delete_other _ _ _ _ H Hfin) as [?|?]; simplify_eq.
      * left. set_solver.
      * by right.
  - (* a worker takes a call *)
    assert (doc_id ∈ unsettled p) as Hu.
    { unfold unsettled. rewrite H1. left. }
    intros m d [[= -> ->]|Hm]%elem_of_cons.
    + split_and!.
      * intros Hin. apply (Hfr doc_id Hu). set_solver.
      * apply (Hk doc_id). rewrite elem_of_app. left. by apply Hunf.
      * by apply current_page_entered.
      * intros _. split; [by apply Hunf|].
        unfold unsettled in Hund. rewrite H1 in Hund. simpl in Hund.
        apply NoDup_cons in Hund as [Hni _]. rewrite elem_of_app in Hni. tauto.
    + destruct (Hdf m d Hm) as (? & ? & ? & Hcur). split_and!; try done.
      intros Heq. destruct (Hcur Heq) as [? Hnq]. split; [done|].
      rewrite H1, not_elem_of_cons in Hnq. tauto.
  - constructor; [|done]. intros Hin.
    destruct (Hdf n doc_id Hin) as (_ & _ & _ & Hcur).
    destruct (Hcur H) as [_ Hnq]. apply Hnq. rewrite H1. left.
  - (* the call that starts does not follow a successful one *)
    split; [|done]. intros m t Hin.
    assert (doc_id ∈ unsettled p) as Hu.
    { unfold unsettled. rewrite H1. left. }
    destruct (Hfd m doc_id t Hin) as [?|[? Hfin]]; [by apply (Hfr doc_id)|].
    unfold unsettled in Hund. rewrite H1 in Hund. simpl in Hund.
    apply NoDup_cons in Hund as [Hni _]. apply Hni.
    rewrite !elem_of_app. right. right.
    apply list_elem_of_fmap. by exists (doc_id, DocText t).
  - (* a call returns *)
    intros m d t [[= -> -> Hr]|Hin]%elem_of_cons.
    + right. split; [done|]. rewrite elem_of_app, list_elem_of_singleton.
      right. by rewrite Hr.
    + destruct (Hfd m d t Hin) as [?|[? Hfin]]; [by left|].
      right. split; [done|]. rewrite elem_of_app. by left.
Qed.

Lemma elem_of_page_fetches tr m : m ∈ page_fetches tr ↔ EvPageFetch m ∈ tr.
Proof.
  unfold page_fetches. rewrite list_elem_of_omap. split.
  - intros ([] & Hin & Heq); by simplify_eq.
  - intros Hin. by exists (EvPageFetch m).
Qed.

Lemma elem_of_doc_fetches tr m doc_id :
  (m, doc_id) ∈ doc_fetches tr ↔ EvFetchBegin m doc_id ∈ tr.
Proof.
  unfold doc_fetches. rewrite list_elem_of_omap. split.
  - intros ([] & Hin & Heq); by simplify_eq.
  - intros Hin. by exists (EvFetchBegin m doc_id).
Qed.

Lemma elem_of_fetch_ends tr m doc_id :
  (m, doc_id) ∈ fetch_ends tr ↔ ∃ r, EvFetchEnd m doc_id r ∈ tr.
Proof.
  unfold fetch_ends. rewrite list_elem_of_omap. split.
  - intros ([] & Hin & Heq); simplify_eq; eauto.
  - intros [r Hin]. by exists (EvFetchEnd m doc_id r).
Qed.

Lemma in_flight_start p w doc_id q :
  workers p !! w = Some None →
  in_flight (Pool q (<[w := Some doc_id]> (workers p)) (finished p)) = S (in_flight p).
Proof.
  intros Hw. unfold in_flight, running; simpl.
  by rewrite (running_start _ _ _ Hw).
Qed.

Lemma in_flight_finish p w doc_id fin :
  workers p !! w = Some (Some doc_id) →
  in_flight p = S (in_flight (Pool (queue p) (<[w := None]> (workers p)) fin)).
Proof.
  intros Hw. unfold in_flight, running; simpl.
  by rewrite (running_finish _ _ _ Hw).
Qed.

Lemma in_flight_new_pool k : in_flight (new_pool k) = 0%nat.
Proof.
  pose proof (new_pool_unsettled k) as H. apply unsettled_nil in H as (_ & H & _).
  unfold in_flight. by rewrite H.
Qed.

Lemma quiescent_in_flight p : quiescent p → in_flight p = 0%nat.
Proof. intros (_ & H & _). unfold in_flight. by rewrite H. Qed.


Lemma settle_ok_start fs p0 s :
  load_progress fs PROGRESS_FILE = Some p0 → start fs = Some s → settle_ok site p0 s.
Proof.
  unfold start. intros Hl Hs. rewrite Hl in Hs. simpl in Hs. simplify_eq.
  split; simpl; try done.
  - by intros ? ? ?%elem_of_nil.
  - by intros ? ? ?%elem_of_nil.
  - intros. by left.
  - by intros ? ?%elem_of_nil.
  - intros. by left.
Qed.

(** The newest events do not change what an older fact says. *)
Ltac newer := rewrite ?elem_of_cons; tauto.

Lemma settle_ok_step p0 l s s' :
  coherent s → settle_ok site p0 s → step site l s = Some s' → settle_ok site p0 s'.
Proof.
  intros Hc [Hcnt Hsub Hrow Hids Hpg Hcur Hdn] Hstep%step_trans.
  pose proof (coherent_unsettled_nodup s Hc) as Hund.
  pose proof (λ d, coherent_unsettled_future s d Hc) as Hunf.
  pose proof (coherent_quiescent s Hc) as Hq.
  destruct Hc as [Hw Hf Hn Hfr Hk Hp Hl].
  destruct Hstep; simpl in *; split; simpl; try done.
  all: try (intros m d Hin; older Hin; by eapply Hrow).
  all: try (intros d Hd; destruct (Hids d Hd) as [?|[m ?]];
            [by left | right; exists m; newer]).
  all: try (intros m d Hin; older Hin;
            destruct (Hsub m d Hin) as [? [?|[[=] ?]]]; split; [done|by left]).
  all: try (intros m [->|Hm]%elem_of_cons;
            [by eauto | destruct (Hpg m Hm) as [?|[?|[=]]]; by eauto]).
  all: try (intros m Hm; destruct (Hdn m Hm) as [?|[? ?]];
            [by left | right; split; [by right|done]]).
  - (* a page with records is entered *)
    rewrite in_flight_new_pool. rewrite Hcnt. f_equal.
    apply quiescent_in_flight, unsettled_nil, Permutation_nil. by symmetry.
  - intros ? [= <-]. split; [left|eauto].
  - (* a page without records *)
    intros m [->|Hm]%elem_of_cons; [left; set_solver|].
    destruct (Hpg m Hm) as [?|[?|[=]]]; [left; set_solver|by eauto].
  - intros m [->%elem_of_singleton|Hm]%elem_of_union.
    + right. split; [left|eauto].
    + destruct (Hdn m Hm) as [?|[? ?]]; [by left | right; split; [by right|done]].
  - (* submit *)
    intros m d [[= -> ->]|Hin]%elem_of_cons.
    + split; [apply (Hk doc_id); rewrite elem_of_app, elem_of_cons; tauto|].
      right. split; [done|]. rewrite !elem_of_app, list_elem_of_singleton. tauto.
    + destruct (Hsub m d Hin) as [? [?|[? Hqr]]]; split; [done|by left|done|].
      right. split; [done|]. revert Hqr. unfold running; simpl.
      rewrite !elem_of_app. tauto.
  - (* the page is marked: every submitted call has ended *)
    intros m d Hin. older Hin.
    destruct (Hsub m d Hin) as [? [?|[? Hqr]]]; split; [done|by left|done|].
    destruct (Hq H) as (Hq1 & Hq2 & _). rewrite Hq1, Hq2 in Hqr.
    by apply elem_of_nil in Hqr.
  - intros m Hm. destruct (Hpg m Hm) as [?|[?|[= ->]]]; [left|by eauto|left]; set_solver.
  - intros m [->%elem_of_singleton|Hm]%elem_of_union.
    + right. by apply Hcur.
    + destruct (Hdn m Hm) as [?|[? ?]]; [by left | by right].
  - (* a failed future is handed out *)
    intros m d Hin. older Hin. by apply Hsub.
  - (* a document is handed out *)
    intros m d Hin. older Hin. by apply Hsub.
  - intros m d [[= -> ->]|Hin]%elem_of_cons; [|by eapply Hrow].
    apply (Hk doc_id). rewrite app_nil_r. apply Hunf.
    unfold unsettled. rewrite !elem_of_app. right. right.
    apply list_elem_of_fmap. exists (doc_id, DocText doc_text). split; [done|].
    by eapply list_elem_of_lookup_2.
  - intros d [->%elem_of_singleton|Hd]%elem_of_union.
    + right. exists n. left.
    + destruct (Hids d Hd) as [?|[m ?]]; [by left | right; exists m; by right].
  - (* a worker takes a call *)
    rewrite (in_flight_start _ _ _ _ H0). lia.
  - intros m d Hin. older Hin.
    destruct (Hsub m d Hin) as [? [?|[? Hqr]]]; split; [done|by left|done|].
    right. split; [done|]. revert Hqr. unfold running; simpl.
    rewrite (running_start _ _ _ H0), H1. rewrite !elem_of_app, !elem_of_cons. tauto.
  - (* a call returns *)
    rewrite Hcnt. rewrite (in_flight_finish p w doc_id
      (finished p ++ [(doc_id, download_document site n doc_id)]) H0). lia.
  - intros m d Hin. older Hin.
    destruct (Hsub m d Hin) as [? [?|[Hm Hqr]]]; split; [done|by left; right|done|].
    revert Hqr. unfold running; simpl.
    rewrite (running_finish _ _ _ H0). rewrite !elem_of_app, !elem_of_cons.
    intros [?|[->|?]]; [right; tauto| |right; tauto].
    left. left. congruence.
Qed.

Lemma reachable_settle_ok fs p0 s :
  load_progress fs PROGRESS_FILE = Some p0 → reachable site fs s → settle_ok site p0 s.
Proof.
  intros Hl. induction 1 as [s Hs|s l s' Hr IH Hstep].
  - by eapply settle_ok_start.
  - eapply settle_ok_step; [|done..]. by eapply reachable_coherent.
Qed.

Lemma disk_ok_start fs p0 s :
  load_progress fs PROGRESS_FILE = Some p0 → start fs = Some s → disk_ok fs p0 s.
Proof.
  unfold start. intros Hl Hs. rewrite Hl in Hs. simpl in Hs. simplify_eq.
  assert (load_progress (init_csv_file CSV_FILE CSV_COLUMNS fs) PROGRESS_FILE
          = Some p0) as Hl'.
  { rewrite <- Hl. apply load_progress_other, lookup_init_csv_file,
      progress_file_not_csv. }
  split; simpl.
  - exists []. split; [|by intros ? ?%elem_of_nil].
    destruct (init_csv_file_is_Some CSV_FILE CSV_COLUMNS fs) as [f Hf].
    rewrite Hf. simpl. by rewrite app_nil_r.
  - by exists p0.
  - intros _. rewrite Hl'. by destruct p0.
Qed.

Lemma disk_ok_step fs0 p0 l s s' :
  coherent s → disk_ok fs0 p0 s → step site l s = Some s' → disk_ok fs0 p0 s'.
Proof.
  intros Hc [(rows & Hcsv & Hrows) (p' & Hload & Hp1 & Hp2 & Hi1 & Hi2) Hsync]
    Hstep%step_trans.
  pose proof (λ d, coherent_unsettled_future s d Hc) as Hunf.
  pose proof progress_file_not_csv as Hne.
  destruct Hc as [Hw Hf Hn Hfr Hk Hp Hl].
  destruct Hstep; simpl in *.
  all: try (split; simpl;
    [ exists rows; split; [done|];
      intros r Hr; destruct (Hrows r Hr) as [? [m ?]]; split; [done|]; exists m; newer
    | by exists p'
    | (by auto) || congruence ]).
  - (* a page without records: saved *)
    split; simpl.
    + exists rows. rewrite lookup_save_progress, decide_False by done. split; [done|].
      intros r Hr; destruct (Hrows r Hr) as [? [m ?]]; split; [done|]; exists m; newer.
    + eexists. rewrite load_save_progress. split; [done|]. simpl. set_solver.
    + intros _. apply load_save_progress.
  - (* a page with records: saved *)
    split; simpl.
    + exists rows. rewrite lookup_save_progress, decide_False by done. split; [done|].
      intros r Hr; destruct (Hrows r Hr) as [? [m ?]]; split; [done|]; exists m; newer.
    + eexists. rewrite load_save_progress. split; [done|]. simpl. set_solver.
    + intros _. apply load_save_progress.
  - (* a row is appended *)
    split; simpl; [| |done].
    + exists (rows ++ [make_row r doc_id doc_text]).
      rewrite lookup_append_row_to_csv, decide_True by done. rewrite Hcsv. simpl.
      split; [by rewrite fmap_app, (assoc_L (++))|].
      intros r' [Hr|Hr%list_elem_of_singleton]%elem_of_app.
      * destruct (Hrows r' Hr) as [? [m ?]]; split; [done|]; exists m; newer.
      * subst r'. simpl. split; [|exists n; left].
        apply (Hk doc_id). rewrite app_nil_r. apply Hunf.
        unfold unsettled. rewrite !elem_of_app. right. right.
        apply list_elem_of_fmap. exists (doc_id, DocText doc_text). split; [done|].
        by eapply list_elem_of_lookup_2.
    + exists p'. split; [|set_solver].
      rewrite <- Hload. apply load_progress_other.
      rewrite lookup_append_row_to_csv. by rewrite decide_False.
Qed.

Lemma reachable_disk_ok fs p0 s :
  load_progress fs PROGRESS_FILE = Some p0 → reachable site fs s → disk_ok fs p0 s.
Proof.
  intros Hl. induction 1 as [s Hs|s l s' Hr IH Hstep].
  - by eapply disk_ok_start.
  - eapply disk_ok_step; [|done..]. by eapply reachable_coherent.
Qed.

Lemma step_marks_or_keeps p0 l s s' :
  coherent s → settle_ok site p0 s → step site l s = Some s' →
  keeps_progress s s' ∨ ∃ n, marks_page s s' l n.
Proof.
  intros Hc [Hcnt Hsub Hrow Hids Hpg Hcur Hdn] Hstep%step_trans.
  pose proof (coherent_quiescent s Hc) as Hq.
  pose proof progress_file_not_csv as Hne.
  destruct Hc as [Hw Hf Hn Hfr Hk Hp Hl].
  destruct Hstep; simpl in *; try (by left).
  - (* a page without records *)
    right. exists n. split_and!; try done; eauto.
    + intros d Hin. apply elem_of_fetch_ends.
      by destruct (Hsub n d Hin) as [_ [?|[[=] _]]].
    + apply load_save_progress.
  - (* a page whose futures were all handed out *)
    right. exists n. split_and!; try done; eauto.
    + by destruct (Hp n eq_refl).
    + intros d Hin. apply elem_of_fetch_ends.
      destruct (Hsub n d Hin) as [_ [?|[_ Hqr]]]; [done|].
      destruct (Hq H) as (Hq1 & Hq2 & _). rewrite Hq1, Hq2 in Hqr.
      by apply elem_of_nil in Hqr.
    + apply load_save_progress.
  - (* a row is appended: the progress file is not touched *)
    left. split; [done|]. simpl.
    rewrite lookup_append_row_to_csv. by rewrite decide_False.
Qed.





Lemma reachable_fetch_ok fs p0 s :
  load_progress fs PROGRESS_FILE = Some p0 → reachable site fs s → fetch_ok p0 s.
Proof.
  intros Hl. induction 1 as [s Hs|s l s' Hr IH Hstep].
  - by eapply fetch_ok_start.
  - eapply fetch_ok_step; [|done..]. by eapply reachable_coherent.
Qed.


Lemma skips_ok_step p0 l s s' :
  fetch_ok p0 s → settle_ok site p0 s → skips_ok p0 s →
  step site l s = Some s' → skips_ok p0 s'.
Proof.
  intros Hf Hs Hsk Hstep%step_trans m.
  destruct Hstep; simpl in *; try (intros Hin; older Hin; by apply Hsk).
  intros [[= ->]|Hin]%elem_of_cons; [|by apply Hsk].
  destruct (so_done site p0 _ Hs n) as [?|[Hfetched _]]; [done..|].
  destruct (fo_page_fetch p0 _ Hf n Hfetched) as [_ Hlt]. simpl in Hlt. lia.
Qed.

Lemma reachable_skips_ok fs p0 s :
  load_progress fs PROGRESS_FILE = Some p0 → reachable site fs s → skips_ok p0 s.
Proof.
  intros Hl. induction 1 as [s Hs|s l s' Hr IH Hstep].
  - unfold start in Hs. rewrite Hl in Hs. simpl in Hs. simplify_eq.
    by intros m ?%elem_of_nil.
  - eapply skips_ok_step; [| |done..].
    + by eapply reachable_fetch_ok.
    + by eapply reachable_settle_ok.
Qed.

(** *** Every run is finite *)





(** *** The main thread and the pool do not block each other *)





End Invariants.

(** *** Resuming *)

(** A run resumed on the files an earlier run left skips a page only if
    the page was done before the earlier run or was fetched with a reply in
    it; a page whose fetch failed is asked for again. *)
Lemma resume_skips_only_processed (site site' : remote) fs p0 s1 s2 m :
  load_progress fs PROGRESS_FILE = Some p0 →
  reachable site fs s1 →
  reachable site' (st_fs s1) s2 →
  EvSkip m ∈ st_trace s2 →
  m ∈ pages_done p0 ∨
  (EvPageFetch m ∈ st_trace s1 ∧
   ∃ data, post_aramadetaylist site m PAGE_SIZE = PageJson data).
Proof.
  intros Hload Hr1 Hr2 Hskip.
  destruct (do_progress fs p0 s1 (reachable_disk_ok site fs p0 s1 Hload Hr1))
    as (p1 & Hload1 & _ & Hsub & _).
  pose proof (reachable_skips_ok site' (st_fs s1) p1 s2 Hload1 Hr2 m Hskip) as Hm.
  apply Hsub in Hm.
  destruct (so_done site p0 s1 (reachable_settle_ok site fs p0 s1 Hload Hr1) m Hm)
    as [?|[Hf ?]]; [by left|right].
  split; [by apply elem_of_page_fetches|done].
Qed.

End UYAPFacts.
Module ZaubaCorpFacts.
Import ZaubaCorp.

Section Service.
Variable zyte : service.

(** *** The retry loop *)

Lemma scrape_attempts_requests page attempts :
  (∀ p, p ∈ requests (scrape_attempts zyte page attempts).2 → p = page) ∧
  (length (requests (scrape_attempts zyte page attempts).2) ≤ length attempts)%nat.
Proof.
  induction attempts as [|attempt rest [IH1 IH2]]; simpl.
  { split; [by intros ? ?%elem_of_nil|done]. }
  destruct (scrape_attempts zyte page rest) as [r evs] eqn:Hrest; simpl in *.
  destruct (zyte page attempt) as [|status_code body];
    [|destruct (decide (status_code ≠ 200)); [|destruct body]]; simpl.
  all: repeat case_decide; simpl.
  all: split; [intros p; rewrite ?elem_of_cons, ?elem_of_nil; naive_solver | lia].
Qed.

Lemma scrape_page_requests page :
  (∀ p, p ∈ requests (scrape_page zyte page).2 → p = page) ∧
  (length (requests (scrape_page zyte page).2) ≤ 3)%nat.
Proof. apply (scrape_attempts_requests page (seq 0 3)). Qed.

(** Three failing attempts: three requests, a pause of [2 ^ attempt]
    seconds after the first two (and after the third when it was an HTTP
    error), and no result. *)
Lemma scrape_page_failing page :
  (∀ attempt, failing (zyte page attempt)) →
  (scrape_page zyte page).1 = None ∧
  requests (scrape_page zyte page).2 = [page; page; page] ∧
  (sleeps (scrape_page zyte page).2 = [1; 2] ∨
   sleeps (scrape_page zyte page).2 = [1; 2; 4]).
Proof.
  intros Hfail. unfold scrape_page; simpl.
  pose proof (Hfail 0%nat) as H0. pose proof (Hfail 1%nat) as H1.
  pose proof (Hfail 2%nat) as H2.
  destruct (zyte page 0%nat) as [|c0 [| |]], (zyte page 1%nat) as [|c1 [| |]],
    (zyte page 2%nat) as [|c2 [| |]]; simpl in *;
    repeat case_decide; simpl; try tauto; try (destruct H0; done);
    try (destruct H1; done); try (destruct H2; done).
Qed.


(** *** Pages requested and completed by a batch *)

Lemma process_pages_requests pages p :
  p ∈ requests (process_pages zyte pages) → p ∈ pages.
Proof.
  induction pages as [|page rest IH]; simpl; [done|].
  destruct (scrape_page_requests page) as [Hreq _].
  destruct (scrape_page zyte page) as [r evs]; simpl in *.
  unfold requests in *. rewrite !omap_app. simpl.
  rewrite !elem_of_app. intros [Hin|[Hin|Hin]].
  - apply elem_of_cons. left. by apply Hreq.
  - destruct r as [[|]|]; simpl in Hin; by apply elem_of_nil in Hin.
  - right. by apply IH.
Qed.

Lemma process_pages_puts pages p cs :
  (p, cs) ∈ puts (process_pages zyte pages) → p ∈ pages.
Proof.
  induction pages as [|page rest IH]; simpl; [by intros ?%elem_of_nil|].
  destruct (scrape_page zyte page) as [r evs] eqn:Hs; simpl in *.
  unfold puts in *. rewrite !omap_app. simpl.
  rewrite !elem_of_app. intros [Hin|[Hin|Hin]].
  - exfalso. apply list_elem_of_omap in Hin as (e & He & Heq).
    unfold scrape_page in Hs.
    assert (∀ attempts r evs, scrape_attempts zyte page attempts = (r, evs) →
              ∀ q c, Put q c ∉ evs) as Hno.
    { clear. induction attempts as [|attempt rest IH]; simpl; intros r evs Heq q c.
      - simplify_eq. apply not_elem_of_nil.
      - destruct (scrape_attempts zyte page rest) as [r' evs'] eqn:Hrest.
        specialize (IH _ _ eq_refl q c).
        destruct (zyte page attempt) as [|status_code body];
          [|destruct (decide (status_code ≠ 200)); [|destruct body]];
          repeat case_decide; simplify_eq; simpl;
          rewrite ?elem_of_cons, ?elem_of_nil; naive_solver. }
    destruct e; simplify_eq. by eapply Hno.
  - destruct r as [[|]|]; simpl in Hin;
      rewrite ?elem_of_cons, ?elem_of_nil in Hin; [done| |done].
    destruct Hin as [[= -> _]|[]]. left.
  - right. by apply IH.
Qed.

Lemma worker_range_start s i :
  0 < max_workers s → 0 ≤ i → current_page s ≤ (worker_range s i).1.
Proof.
  intros HK Hi. unfold worker_range; simpl.
  rewrite (Z.mul_comm (max_workers s) 2), Z.div_mul by lia. lia.
Qed.

Lemma elem_of_process_page_range_requests start_page end_page p :
  p ∈ requests (process_page_range zyte start_page end_page) → start_page ≤ p.
Proof.
  intros Hin%process_pages_requests. apply elem_of_seqZ in Hin. lia.
Qed.

Lemma elem_of_process_page_range_puts start_page end_page p cs :
  (p, cs) ∈ puts (process_page_range zyte start_page end_page) → start_page ≤ p.
Proof.
  intros Hin%process_pages_puts. apply elem_of_seqZ in Hin. lia.
Qed.

Lemma foldr_max_ge (seed : Z) (l : list Z) x :
  x ∈ seed :: l → x ≤ foldr Z.max seed l.
Proof.
  induction l as [|y l IH]; simpl.
  - intros ->%list_elem_of_singleton. lia.
  - rewrite !elem_of_cons. intros [->|[->|Hx]].
    + assert (seed ≤ foldr Z.max seed l) by (apply IH; left). lia.
    + lia.
    + assert (x ≤ foldr Z.max seed l) by (apply IH; by right). lia.
Qed.

Lemma max_page_ge (pages : gset Z) x : x ∈ pages → x ≤ max_page pages.
Proof.
  intros Hx%elem_of_elements. unfold max_page.
  destruct (elements pages) as [|page rest]; [by apply elem_of_nil in Hx|].
  by apply foldr_max_ge.
Qed.

Lemma collect_completed batch_size results completed found fs x :
  x ∈ (collect batch_size results completed found fs).1.1 →
  x ∈ completed ∨ ∃ cs, (x, cs) ∈ results.
Proof.
  revert completed found fs.
  induction results as [|[page companies] rest IH]; intros completed found fs; simpl.
  - by left.
  - case_decide; [|by left]. destruct companies as [|c cs].
    + intros Hin. destruct (IH _ _ _ Hin) as [?|[cs' ?]]; [by left|].
      right. exists cs'. by right.
    + intros Hin. destruct (IH _ _ _ Hin) as [Hx|[cs' ?]].
      * apply elem_of_union in Hx as [->%elem_of_singleton|?]; [|by left].
        right. exists (c :: cs). left.
      * right. exists cs'. by right.
Qed.

Lemma batch_events_requests s (is_ : list Z) p :
  0 < max_workers s → Forall (λ i, 0 ≤ i) is_ →
  p ∈ requests (flat_map (λ i, let '(start, end_) := worker_range s i in
                                process_page_range zyte start end_) is_) →
  current_page s ≤ p.
Proof.
  intros HK. induction 1 as [|i is_ Hi _ IH]; simpl; [by intros ?%elem_of_nil|].
  unfold requests in *. rewrite omap_app, elem_of_app. intros [Hin|Hin]; [|by apply IH].
  pose proof (worker_range_start s i HK Hi) as Hstart.
  unfold worker_range in Hstart. simpl in Hstart.
  apply elem_of_process_page_range_requests in Hin. lia.
Qed.

Lemma batch_events_puts s (is_ : list Z) p cs :
  0 < max_workers s → Forall (λ i, 0 ≤ i) is_ →
  (p, cs) ∈ puts (flat_map (λ i, let '(start, end_) := worker_range s i in
                                 process_page_range zyte start end_) is_) →
  current_page s ≤ p.
Proof.
  intros HK. induction 1 as [|i is_ Hi _ IH]; simpl; [by intros ?%elem_of_nil|].
  unfold puts in *. rewrite omap_app, elem_of_app. intros [Hin|Hin]; [|by apply IH].
  pose proof (worker_range_start s i HK Hi) as Hstart.
  unfold worker_range in Hstart. simpl in Hstart.
  apply elem_of_process_page_range_puts in Hin. lia.
Qed.

Lemma seqZ_nonneg n : Forall (λ i, 0 ≤ i) (seqZ 0 n).
Proof. apply Forall_forall. intros i Hi%elem_of_seqZ. lia. Qed.

(** A batch asks only for pages from [current_page] on, and moves
    [current_page] forward. *)
Lemma run_batch_forward s :
  0 < max_workers s →
  (∀ p, p ∈ requests (run_batch zyte s).2 → current_page s ≤ p) ∧
  current_page s < current_page (run_batch zyte s).1 ∧
  max_workers (run_batch zyte s).1 = max_workers s.
Proof.
  intros HK. unfold run_batch.
  destruct (collect _ _ _ _ _) as [[completed found] fs] eqn:Hcol. simpl.
  split_and!; [|case_decide as He|done].
  - intros p. unfold requests. rewrite omap_app, elem_of_app.
    intros [Hin|Hin].
    + by eapply batch_events_requests; [|apply seqZ_nonneg|].
    + exfalso. case_decide; simpl in Hin; by apply elem_of_nil in Hin.
  - lia.
  - apply set_choose_L in He as [x Hx].
    pose proof (max_page_ge completed x Hx) as Hmax.
    assert (x ∈ (∅ : gset Z) ∨ ∃ cs, (x, cs) ∈ puts
              (flat_map (λ i, let '(start, end_) := worker_range s i in
                              process_page_range zyte start end_)
                        (seqZ 0 (max_workers s)))) as [?|[cs Hput]];
      [|set_solver|].
    { apply (collect_completed (max_workers s * 2) _ ∅ (companies_found s) (disk s)).
      by rewrite Hcol. }
    eapply batch_events_puts in Hput; [|done|apply seqZ_nonneg]. lia.
Qed.

Lemma run_loop_requests fuel s p :
  0 < max_workers s →
  p ∈ requests (run_loop zyte fuel s).2 → current_page s ≤ p.
Proof.
  revert s. induction fuel as [|fuel IH]; intros s HK; simpl;
    [by intros ?%elem_of_nil|].
  case_decide; [|by intros ?%elem_of_nil].
  destruct (run_batch_forward s HK) as (Hreq & Hcur & Hmw).
  destruct (run_batch zyte s) as [s' evs]. simpl in *.
  specialize (IH s'). destruct (run_loop zyte fuel s') as [s'' evs']. simpl in *.
  unfold requests in *. rewrite omap_app, elem_of_app. intros [Hin|Hin].
  - by apply Hreq.
  - assert (current_page s' ≤ p) by (apply IH; [lia|done]). lia.
Qed.

Lemma run_requests fuel s p :
  0 < max_workers s → p ∈ requests (run zyte fuel s).2 → current_page s ≤ p.
Proof. intros HK. unfold run. by apply run_loop_requests. Qed.

End Service.

(** *** The progress file *)

Lemma lookup_scraper_progress_crash k s path :
  save_progress_crash k s !! path =
  if decide (path = progress_file) then
    match k with
    | O => disk s !! progress_file
    | 1%nat => Some []
    | _ => Some [IntText (current_page s)]
    end
  else disk s !! path.
Proof.
  unfold save_progress_crash, save_progress_ops.
  destruct k as [|[|k]]; simpl; rewrite ?take_nil; simpl; unfold write, open_w;
    case_decide; by simplify_map_eq.
Qed.

End ZaubaCorpFacts.

(** * The claims of the specification *)

Import Py PyFacts UYAP UYAPFacts Samples.

(** ** C1: deduplication by the dispatcher *)

(** C1, as stated, fails: when the download of a document raises, its id
    is not recorded, and the same id listed on a later page is fetched
    again.  On [repeated_id_site] document "a" is fetched twice in one
    run. *)
Lemma C1_refetch_after_failure :
  run_schedule repeated_id_site ∅ repeated_id_schedule
    = Some (after repeated_id_site ∅ repeated_id_schedule) ∧
  fetch_count "a" (st_trace (after repeated_id_site ∅ repeated_id_schedule)) = 2%nat ∧
  doc_fetches (st_trace (after repeated_id_site ∅ repeated_id_schedule))
    = [(2, "a"); (1, "a")].
Proof. by vm_compute. Qed.

(** C1 (amended): in a run started from progress [p0], no id of
    [ids_downloaded p0] is ever passed to [download_document]; an id is
    fetched at most once per page; and once a fetch of an id has returned
    a document, that id is never fetched again in the run. *)
Theorem C1_dispatcher_dedup (site : remote) (fs : filesystem) (p0 : progress) (s : state) :
  load_progress fs PROGRESS_FILE = Some p0 →
  reachable site fs s →
  (∀ m doc_id, doc_id ∈ ids_downloaded p0 → EvFetchBegin m doc_id ∉ st_trace s) ∧
  NoDup (doc_fetches (st_trace s)) ∧
  (∀ newer m doc_id older,
     st_trace s = newer ++ EvFetchBegin m doc_id :: older →
     ∀ m' t, EvFetchEnd m' doc_id (DocText t) ∉ older).
Proof.
  intros Hload Hreach.
  destruct (reachable_fetch_ok site fs p0 s Hload Hreach) as [_ _ _ _ Hdf Hdn _ Hnr].
  split_and!; [|done|].
  - intros m doc_id Hin Hev%elem_of_doc_fetches.
    by destruct (Hdf m doc_id Hev) as [? _].
  - intros newer m doc_id older Htr. by eapply no_refetch_split.
Qed.

Lemma C1_dispatcher_dedup_witness :
  (∀ m doc_id, doc_id ∈ ids_downloaded resumed_progress →
               EvFetchBegin m doc_id ∉ st_trace mixed_collected) ∧
  NoDup (doc_fetches (st_trace mixed_collected)) ∧
  (∀ newer m doc_id older,
     st_trace mixed_collected = newer ++ EvFetchBegin m doc_id :: older →
     ∀ m' t, EvFetchEnd m' doc_id (DocText t) ∉ older).
Proof.
  apply (C1_dispatcher_dedup mixed_site resumed_fs resumed_progress mixed_collected).
  - by vm_compute.
  - apply (run_schedule_reachable _ _ mixed_schedule). by vm_compute.
Defined.

(** ** C2: completed pages are skipped *)

(** C2: a page that is in [pages_done] when the run starts is never
    requested from the site, whatever the site would answer; at the head
    of the loop the only move of the driver for such a page is to skip
    it. *)
Theorem C2_done_pages_not_refetched (site : remote) (fs : filesystem)
    (p0 : progress) (s : state) (n : Z) :
  load_progress fs PROGRESS_FILE = Some p0 →
  reachable site fs s →
  n ∈ pages_done p0 →
  (EvPageFetch n ∉ st_trace s) ∧
  (st_pc s = AtLoop n → n ≤ TOTAL_PAGES_TO_FETCH →
   step site Main s =
     Some (State (AtLoop (n + 1)) (st_pages_done s) (st_ids_downloaded s)
                 (st_fs s) (st_pool s) (EvSkip n :: st_trace s))).
Proof.
  intros Hload Hreach Hn.
  destruct (reachable_fetch_ok site fs p0 s Hload Hreach) as [Hpm _ Hpf _ _ _ _ _].
  split.
  - intros Hev%elem_of_page_fetches. by destruct (Hpf n Hev).
  - intros Hpc Hle. simpl. unfold main_step. rewrite Hpc.
    rewrite decide_False by lia. rewrite decide_True; [done|]. by apply Hpm.
Qed.

Lemma C2_done_pages_not_refetched_witness :
  (EvPageFetch 1 ∉ st_trace mixed_started) ∧
  (st_pc mixed_started = AtLoop 1 → 1 ≤ TOTAL_PAGES_TO_FETCH →
   step mixed_site Main mixed_started =
     Some (State (AtLoop (1 + 1)) (st_pages_done mixed_started)
                 (st_ids_downloaded mixed_started) (st_fs mixed_started)
                 (st_pool mixed_started) (EvSkip 1 :: st_trace mixed_started))).
Proof.
  apply (C2_done_pages_not_refetched mixed_site resumed_fs resumed_progress
           mixed_started 1).
  - by vm_compute.
  - apply (run_schedule_reachable _ _ []). by vm_compute.
  - by vm_compute.
Defined.

(** ** C3: a page is marked and flushed once, after its units settled *)



(** ** C9: bounded concurrency *)



(** ** C10: records without an id *)



(** On [idless_site] the first page is marked and saved after three steps
    of the main thread, with nothing submitted, fetched or written. *)
Example page_without_ids_is_marked :
  st_pc (after idless_site ∅ [Main; Main; Main]) = AtLoop 2 ∧
  st_trace (after idless_site ∅ [Main; Main; Main])
    = [EvSave (Progress {[1]} ∅); EvPageDone 1; EvPageFetch 1] ∧
  st_ids_downloaded (after idless_site ∅ [Main; Main; Main]) = ∅ ∧
  load_progress (st_fs (after idless_site ∅ [Main; Main; Main])) PROGRESS_FILE
    = Some (Progress {[1]} ∅).
Proof. by vm_compute. Qed.

(** ** C8: the progress file round-trips *)

(** C8: loading what [save_progress] wrote gives back the saved state, and
    so does loading a file that lists the same pages and ids in any other
    order. *)
Theorem C8_progress_round_trip (p : progress) (path : string) (fs : filesystem)
    (pages : list Z) (ids : list string) :
  pages ≡ₚ py_list (pages_done p) →
  ids ≡ₚ py_list (ids_downloaded p) →
  load_progress (save_progress p path fs) path = Some p ∧
  load_progress (write path (JsonText (ProgressDoc (Some pages) (Some ids)))
                       (open_w path fs)) path = Some p.
Proof.
  intros Hpages Hids. split; [apply load_save_progress|].
  rewrite load_progress_list. destruct p as [pd idd]; simpl in *.
  unfold py_list in *. f_equal. f_equal.
  - apply set_eq. intros x. rewrite elem_of_list_to_set, Hpages. apply elem_of_elements.
  - apply set_eq. intros x. rewrite elem_of_list_to_set, Hids. apply elem_of_elements.
Qed.

Lemma C8_progress_round_trip_witness :
  load_progress (save_progress example_progress PROGRESS_FILE ∅) PROGRESS_FILE
    = Some example_progress ∧
  load_progress (write PROGRESS_FILE
                       (JsonText (ProgressDoc (Some [2; 5; 1]) (Some ["b"; "a"])))
                       (open_w PROGRESS_FILE ∅)) PROGRESS_FILE
    = Some example_progress.
Proof.
  apply (C8_progress_round_trip example_progress PROGRESS_FILE ∅ [2; 5; 1] ["b"; "a"]).
  - apply (bool_decide_unpack _). by vm_compute.
  - apply (bool_decide_unpack _). by vm_compute.
Defined.

(** ** C4: how the progress file is written *)

(** C4, as stated, fails: [save_progress] opens the progress file itself
    for writing, which empties it, before the new state is written.  A
    crash between the two leaves an empty file that holds neither the old
    nor the new state and that [load_progress] cannot read. *)
Lemma C4_crash_truncates_progress_file :
  load_progress resumed_fs PROGRESS_FILE = Some resumed_progress ∧
  save_progress_crash 1 next_progress PROGRESS_FILE resumed_fs !! PROGRESS_FILE
    = Some [] ∧
  load_progress (save_progress_crash 1 next_progress PROGRESS_FILE resumed_fs)
                PROGRESS_FILE = None.
Proof. by vm_compute. Qed.

(** C4 (amended): [save_progress] rewrites the progress file in place and
    touches no other path (no temporary file, no rename): before the first
    operation the file is unchanged, after [open(.., "w")] it is empty and
    cannot be loaded, after the write it holds the new state, which loads
    back.  The same holds of [CompanyScraper.save_progress]. *)
Theorem C4_progress_saved_in_place (p : progress) (path path' : string)
    (fs : filesystem) (k : nat) (z : ZaubaCorp.scraper) :
  save_progress_crash k p path fs !! path' =
    (if decide (path = path') then
       match k with
       | O => fs !! path
       | 1%nat => Some []
       | _ => Some [JsonText (progress_data p)]
       end
     else fs !! path') ∧
  save_progress_crash 2 p path fs = save_progress p path fs ∧
  load_progress (save_progress_crash 1 p path fs) path = None ∧
  load_progress (save_progress p path fs) path = Some p ∧
  ZaubaCorp.save_progress_crash k z !! path' =
    (if decide (path' = ZaubaCorp.progress_file) then
       match k with
       | O => ZaubaCorp.disk z !! ZaubaCorp.progress_file
       | 1%nat => Some []
       | _ => Some [ZaubaCorp.IntText (ZaubaCorp.current_page z)]
       end
     else ZaubaCorp.disk z !! path') ∧
  ZaubaCorp.load_progress (ZaubaCorp.save_progress_crash 1 z) = None ∧
  ZaubaCorp.load_progress (ZaubaCorp.disk (ZaubaCorp.save_progress z))
    = Some (ZaubaCorp.current_page z).
Proof.
  split_and!.
  - apply lookup_save_progress_crash.
  - done.
  - unfold load_progress.
    by rewrite lookup_save_progress_crash, decide_True.
  - apply load_save_progress.
  - apply ZaubaCorpFacts.lookup_scraper_progress_crash.
  - unfold ZaubaCorp.load_progress.
    by rewrite ZaubaCorpFacts.lookup_scraper_progress_crash, decide_True.
  - unfold ZaubaCorp.load_progress.
    change (ZaubaCorp.disk (ZaubaCorp.save_progress z))
      with (ZaubaCorp.save_progress_crash 2 z).
    by rewrite ZaubaCorpFacts.lookup_scraper_progress_crash, decide_True.
Qed.

(** ** C6: a page without records *)

(** C6, as stated, fails: after a page with zero records the loop goes on.
    On [empty_first_page_site] page 1 is empty and page 2 is fetched
    next. *)
Lemma C6_empty_page_does_not_stop :
  run_schedule empty_first_page_site ∅ [Main; Main]
    = Some (after empty_first_page_site ∅ [Main; Main]) ∧
  EvNoRecords 1 ∈ st_trace (after empty_first_page_site ∅ [Main; Main]) ∧
  page_fetches (st_trace (after empty_first_page_site ∅ [Main; Main])) = [2; 1] ∧
  current_page (st_pc (after empty_first_page_site ∅ [Main; Main])) = Some 2.
Proof.
  split_and!; try by vm_compute.
  vm_compute. do 3 apply list_elem_of_further. apply list_elem_of_here.
Qed.

(** C6 (amended): when a fetched page has zero records the driver submits
    nothing, marks the page done, saves the progress and moves to the next
    page; the loop ends only when the page number has passed
    [TOTAL_PAGES_TO_FETCH]. *)
Theorem C6_empty_page_continues (site : remote) (s : state) (n : Z) (data : site_json) :
  st_pc s = AtLoop n →
  n ≤ TOTAL_PAGES_TO_FETCH →
  n ∉ st_pages_done s →
  post_aramadetaylist site n PAGE_SIZE = PageJson data →
  records_of data = [] →
  (∃ s', step site Main s = Some s' ∧
         st_pc s' = AtLoop (n + 1) ∧
         st_pages_done s' = {[n]} ∪ st_pages_done s ∧
         st_ids_downloaded s' = st_ids_downloaded s ∧
         st_pool s' = st_pool s ∧
         doc_fetches (st_trace s') = doc_fetches (st_trace s) ∧
         load_progress (st_fs s') PROGRESS_FILE
           = Some (Progress (st_pages_done s') (st_ids_downloaded s'))) ∧
  (∀ l s1 s2, step site l s1 = Some s2 → st_pc s2 = Finished →
              l = Main ∧ ∃ m, st_pc s1 = AtLoop m ∧ TOTAL_PAGES_TO_FETCH < m).
Proof.
  intros Hpc Hle Hnd Hpage Hrec. split.
  - destruct s as [c pd ids fs p tr]; simpl in *. subst c.
    eexists. split.
    + apply (step_trans site Main).
      by apply (t_page_empty site n pd ids fs p tr data); [lia|..].
    + simpl. split_and!; try done. apply load_save_progress.
  - intros l s1 s2 Hstep%step_trans Hfin.
    destruct Hstep; simpl in *; try done.
    + split; [done|]. by exists n0.
    + subst c. done.
    + subst c. done.
Qed.

Lemma C6_empty_page_continues_witness :
  (∃ s', step empty_first_page_site Main (after empty_first_page_site ∅ []) = Some s' ∧
         st_pc s' = AtLoop (1 + 1) ∧
         st_pages_done s' = {[1]} ∪ st_pages_done (after empty_first_page_site ∅ []) ∧
         st_ids_downloaded s' = st_ids_downloaded (after empty_first_page_site ∅ []) ∧
         st_pool s' = st_pool (after empty_first_page_site ∅ []) ∧
         doc_fetches (st_trace s')
           = doc_fetches (st_trace (after empty_first_page_site ∅ [])) ∧
         load_progress (st_fs s') PROGRESS_FILE
           = Some (Progress (st_pages_done s') (st_ids_downloaded s'))) ∧
  (∀ l s1 s2, step empty_first_page_site l s1 = Some s2 → st_pc s2 = Finished →
              l = Main ∧ ∃ m, st_pc s1 = AtLoop m ∧ TOTAL_PAGES_TO_FETCH < m).
Proof.
  apply (C6_empty_page_continues empty_first_page_site
           (after empty_first_page_site ∅ []) 1 (SiteJson (Some (SiteData (Some []))))).
  - by vm_compute.
  - by vm_compute.
  - apply (bool_decide_unpack _). by vm_compute.
  - by vm_compute.
  - by vm_compute.
Defined.

(** ** C7: failed page fetches *)




(** ** C5: at-least-once across runs *)

(** C5 at the failing input: a fresh company-list scraper with three
    workers whose six first pages all fail.  The batch puts nothing on
    the queue, yet [current_page] moves from 1 to 7 and 7 is what the
    progress file holds; a process restarted from that file, and the
    running one, never request a page below 7 again, whatever the service
    answers.  The same happens to a single failed page below a successful
    one ([hole_service]: page 1 fails, pages 2-6 succeed). *)
Theorem C5_failed_pages_are_skipped :
  ZaubaCorp.requests (ZaubaCorp.run_batch dead_service fresh_scraper).2
    = [1; 1; 1; 2; 2; 2; 3; 3; 3; 4; 4; 4; 5; 5; 5; 6; 6; 6] ∧
  ZaubaCorp.puts (ZaubaCorp.run_batch dead_service fresh_scraper).2 = [] ∧
  ZaubaCorp.current_page (ZaubaCorp.run_batch dead_service fresh_scraper).1 = 7 ∧
  ZaubaCorp.load_progress
    (ZaubaCorp.disk (ZaubaCorp.run_batch dead_service fresh_scraper).1) = Some 7 ∧
  (∀ zyte fuel p,
     p ∈ ZaubaCorp.requests
           (ZaubaCorp.run zyte fuel
              (ZaubaCorp.run_batch dead_service fresh_scraper).1).2 →
     7 ≤ p) ∧
  (∀ zyte fuel workers s p,
     0 < workers →
     ZaubaCorp.init workers
       (ZaubaCorp.disk (ZaubaCorp.run_batch dead_service fresh_scraper).1) = Some s →
     p ∈ ZaubaCorp.requests (ZaubaCorp.run zyte fuel s).2 →
     7 ≤ p) ∧
  (ZaubaCorp.puts (ZaubaCorp.run_batch hole_service fresh_scraper).2).*1
    = [2; 3; 4; 5; 6] ∧
  ZaubaCorp.load_progress
    (ZaubaCorp.disk (ZaubaCorp.run_batch hole_service fresh_scraper).1) = Some 7.
Proof.
  assert (ZaubaCorp.run_batch dead_service fresh_scraper
          = (ZaubaCorp.Scraper 3 7 0 {[ZaubaCorp.progress_file := [ZaubaCorp.IntText 7]]},
             (ZaubaCorp.run_batch dead_service fresh_scraper).2)) as Hdead.
  { by vm_compute. }
  split_and!.
  - by vm_compute.
  - by vm_compute.
  - by rewrite Hdead.
  - by vm_compute.
  - intros zyte fuel p Hp. rewrite Hdead in Hp.
    by apply ZaubaCorpFacts.run_requests in Hp.
  - intros zyte fuel workers s p Hw Hinit Hp. rewrite Hdead in Hinit.
    assert (s = ZaubaCorp.Scraper workers 7 0
                  {[ZaubaCorp.progress_file := [ZaubaCorp.IntText 7]]}) as ->.
    { vm_compute in Hinit. by injection Hinit as <-. }
    by apply ZaubaCorpFacts.run_requests in Hp.
  - by vm_compute.
  - by vm_compute.
Qed.

(** * Further properties of the two scripts *)

(** ** The court-records run: visits, rows and files *)

Module UYAPRunFacts.
Import Py PyFacts UYAP UYAPFacts UYAPRun.

Lemma fetched_in_order_split tr newer m older :
  fetched_in_order tr → tr = newer ++ EvPageFetch m :: older →
  ∀ m', EvPageFetch m' ∈ older → m' < m.
Proof.
  revert tr. induction newer as [|e newer IH]; intros tr Hord ->; simpl in Hord.
  - by destruct Hord.
  - destruct Hord as [_ Hord]. by eapply IH.
Qed.

(** *** The dict of a page *)

Lemma dict_get_set {V} k k' (v : V) d :
  dict_get (dict_set k v d) k' = if decide (k' = k) then Some v else dict_get d k'.
Proof.
  induction d as [|[k0 v0] d IH]; simpl; [done|].
  destruct (decide (k = k0)) as [->|Hne]; simpl; [by repeat case_decide|].
  rewrite IH. repeat case_decide; simplify_eq; done.
Qed.

Lemma metadata_by_id_get records doc_id :
  doc_id ≠ "" →
  dict_get (metadata_by_id records) doc_id = last (records_with_id doc_id records).
Proof.
  intros Hne. unfold metadata_by_id, records_with_id.
  cut (∀ d0,
    dict_get (foldl (λ d r, let doc_id := doc_id_of r in
                if truthy_str doc_id then dict_set doc_id r d else d) d0 records) doc_id
    = match last (filter (λ r, doc_id_of r = doc_id) records) with
      | Some r => Some r
      | None => dict_get d0 doc_id
      end).
  { intros H. etrans; [apply (H [])|]. simpl. by destruct (last _). }
  induction records as [|r records IH]; intros d0; simpl; [done|].
  rewrite IH. rewrite filter_cons. destruct (decide (doc_id_of r = doc_id)) as [Hr|Hr].
  - rewrite last_cons. destruct (last _); [done|].
    rewrite Hr. apply truthy_str_spec in Hne. rewrite Hne.
    by rewrite dict_get_set, decide_True.
  - destruct (last _); [done|].
    destruct (truthy_str (doc_id_of r)); [|done].
    rewrite dict_get_set, decide_False; [done|congruence].
Qed.

Lemma metadata_by_id_order records :
  dict_keys (metadata_by_id records) = first_occurrences (doc_id_of <$> records) [].
Proof.
  unfold metadata_by_id.
  cut (∀ d0 seen, (∀ x, x ∈ seen ↔ x ∈ dict_keys d0) →
    dict_keys (foldl (λ d r, let doc_id := doc_id_of r in
                 if truthy_str doc_id then dict_set doc_id r d else d) d0 records)
    = dict_keys d0 ++ first_occurrences (doc_id_of <$> records) seen).
  { intros H. by apply (H [] []). }
  induction records as [|r records IH]; intros d0 seen Hseen; simpl.
  - by rewrite app_nil_r.
  - destruct (truthy_str (doc_id_of r)) eqn:Ht.
    + apply truthy_str_spec in Ht.
      destruct (decide (doc_id_of r ∈ dict_keys d0)) as [Hin|Hin].
      * rewrite decide_True by (right; by apply Hseen).
        rewrite (IH _ seen); [by rewrite dict_keys_set_in|].
        intros x. by rewrite dict_keys_set_in.
      * rewrite decide_False by (rewrite Hseen; tauto).
        rewrite (IH _ (doc_id_of r :: seen)).
        -- rewrite dict_keys_set_notin by done. by rewrite <- (assoc_L (++)).
        -- intros x. rewrite dict_keys_set_notin by done.
           rewrite elem_of_cons, elem_of_app, list_elem_of_singleton, Hseen. tauto.
    + assert (doc_id_of r = "") as Hr by (destruct (doc_id_of r); [done|discriminate]).
      rewrite decide_True by (by left). by apply IH.
Qed.

(** *** The header of the result file *)

Lemma init_csv_file_lookup csv_path columns fs :
  init_csv_file csv_path columns fs !! csv_path
    = Some (default [CsvHeader columns] (fs !! csv_path)).
Proof.
  unfold init_csv_file. destruct (fs !! csv_path) eqn:Hf; [by rewrite Hf|].
  rewrite lookup_write, decide_True by done.
  by rewrite lookup_open_w, decide_True by done.
Qed.

(** An event that is not the newest one of its kind is in the older part. *)
Ltac older H :=
  repeat (apply elem_of_cons in H as [H|H]; [discriminate H|]).

Section Run.
Variable site : remote.

(** A step only adds events, pages and ids. *)
Lemma trans_mono l s s' :
  trans site l s s' →
  (∃ evs, st_trace s' = evs ++ st_trace s) ∧
  st_pages_done s ⊆ st_pages_done s' ∧
  st_ids_downloaded s ⊆ st_ids_downloaded s'.
Proof.
  destruct 1; simpl; split_and!; try set_solver;
    first [by exists [] | by eexists [_] | by eexists [_; _]
          | by eexists [_; _; _; _]].
Qed.

Lemma visited_intro p0 s m :
  fetch_ok p0 s → skips_ok p0 s →
  EvSkip m ∈ st_trace s ∨
  (EvPageFetch m ∈ st_trace s ∧
   ((m ∈ st_pages_done s ∧ ∃ data, post_aramadetaylist site m PAGE_SIZE = PageJson data) ∨
    ((m ∉ st_pages_done s) ∧ post_aramadetaylist site m PAGE_SIZE = PageRaise ∧
     EvPageError m ∈ st_trace s))) →
  visited site p0 s m.
Proof.
  intros Hf Hsk [Hskip|[Hfetch Hrest]].
  - left. split_and!; [by apply Hsk|done|].
    intros Hin%elem_of_page_fetches.
    destruct (fo_page_fetch p0 s Hf m Hin) as [Hn _]. apply Hn. by apply Hsk.
  - right. assert (m ∉ pages_done p0) as Hn.
    { apply elem_of_page_fetches in Hfetch. by destruct (fo_page_fetch p0 s Hf m Hfetch). }
    split_and!; [done|done| |done]. intros Hin. apply Hn. by apply Hsk.
Qed.

Lemma visited_seen p0 s m :
  visited site p0 s m →
  EvSkip m ∈ st_trace s ∨
  (EvPageFetch m ∈ st_trace s ∧
   ((m ∈ st_pages_done s ∧ ∃ data, post_aramadetaylist site m PAGE_SIZE = PageJson data) ∨
    ((m ∉ st_pages_done s) ∧ post_aramadetaylist site m PAGE_SIZE = PageRaise ∧
     EvPageError m ∈ st_trace s))).
Proof. unfold visited. tauto. Qed.

Lemma visit_ok_start fs p0 s :
  load_progress fs PROGRESS_FILE = Some p0 → start fs = Some s → visit_ok site p0 s.
Proof.
  unfold start. intros Hl Hs. rewrite Hl in Hs. simpl in Hs. simplify_eq.
  split; simpl; [done| | |].
  - intros m ? ?. lia.
  - by intros m ?%elem_of_nil.
  - by intros m ?%elem_of_nil.
Qed.

Lemma visited_mono p0 s s' m :
  fetch_ok p0 s' → skips_ok p0 s' →
  (∃ evs, st_trace s' = evs ++ st_trace s) →
  st_pages_done s ⊆ st_pages_done s' →
  (m ∉ st_pages_done s → m ∉ st_pages_done s') →
  visited site p0 s m → visited site p0 s' m.
Proof.
  intros Hf Hsk [evs Htr] Hpd Hkeep Hv. apply visited_intro; [done..|].
  destruct (visited_seen p0 s m Hv) as [?|[? [[? ?]|(? & ? & ?)]]].
  - left. rewrite Htr, elem_of_app. by right.
  - right. split; [rewrite Htr, elem_of_app; by right|]. left. split; [set_solver|done].
  - right. split; [rewrite Htr, elem_of_app; by right|]. right.
    split_and!; [by apply Hkeep|done|rewrite Htr, elem_of_app; by right].
Qed.

Lemma visit_ok_step p0 l s s' :
  coherent s → fetch_ok p0 s → settle_ok site p0 s →
  fetch_ok p0 s' → skips_ok p0 s' →
  visit_ok site p0 s → step site l s = Some s' → visit_ok site p0 s'.
Proof.
  intros Hc Hf Hs Hf' Hsk' [Hord Hpass Hrange Herr] Hstep%step_trans.
  pose proof (trans_mono l s s' Hstep) as (Htr & Hpd & _).
  pose proof (λ m, visited_mono p0 s s' m Hf' Hsk' Htr Hpd) as Hmono.
  pose proof (λ m, visited_intro p0 s' m Hf' Hsk') as Hintro.
  clear Htr Hpd Hf' Hsk'.
  destruct Hc as [_ _ _ _ _ Hcp Hloop].
  destruct Hf as [Hpm _ Hpf _ _ _ _ _].
  destruct Hs as [_ _ _ _ _ Hcur Hdn].
  destruct Hstep; simpl in *; split; simpl.
  all: try done.
  all: try (intros m Hm Hlt; apply Hmono; [done|by apply Hpass]).
  all: try (intros m Hin; older Hin; by apply Hrange).
  all: try (intros m Hin; older Hin; destruct (Herr m Hin) as (? & ? & ? & ? & ?);
            split_and!; [done|done|done|done|(lia || done)]).
  all: try (intros m Hin;
            repeat (apply elem_of_cons in Hin as [Hin|Hin];
                    [first [discriminate Hin
                           |injection Hin as ->; specialize (Hloop n eq_refl); lia]|]);
            by apply Hrange).
  all: try (intros m Hin; older Hin; destruct (Herr m Hin) as (? & ? & ? & ? & ?);
            split_and!; [done|done| |done|lia];
            rewrite not_elem_of_union, not_elem_of_singleton; split; [lia|done]).
  all: try by (repeat (split; [done|]); split; [|done];
               intros m' Hin%elem_of_page_fetches; destruct (Hpf m' Hin)).
  - (* end of the loop *)
    intros m Hm Hle. apply Hmono; [done|]. apply Hpass; lia.
  - (* skip *)
    intros m Hm Hlt. destruct (decide (m = n)) as [->|Hne].
    + apply Hintro. left. left.
    + apply Hmono; [done|]. apply Hpass; lia.
  - (* page error *)
    intros m Hm Hlt. destruct (decide (m = n)) as [->|Hne].
    + apply Hintro. right. split; [right; left|]. right. split_and!; [done..|left].
    + apply Hmono; [done|]. apply Hpass; lia.
  - intros m [[= ->]|Hin]%elem_of_cons.
    { specialize (Hloop n eq_refl). split_and!; [done|lia|done|lia|lia]. }
    older Hin. destruct (Herr m Hin) as (? & ? & ? & ? & ?).
    split_and!; [done|done|done|done|lia].
  - (* a page without records *)
    intros m Hm Hlt. destruct (decide (m = n)) as [->|Hne].
    + apply Hintro. right. split; [do 3 right; left|]. left. split; [set_solver|eauto].
    + apply Hmono; [|apply Hpass; lia].
      rewrite not_elem_of_union, not_elem_of_singleton. tauto.
  - (* the page is marked *)
    intros m Hm Hlt. destruct (decide (m = n)) as [->|Hne].
    + destruct (Hcur n eq_refl) as [Hin%elem_of_page_fetches Hdata].
      apply Hintro. right. split; [by do 2 right|]. left. split; [set_solver|done].
    + apply Hmono; [|apply Hpass; lia].
      rewrite not_elem_of_union, not_elem_of_singleton. tauto.
Qed.

Lemma reachable_visit_ok fs p0 s :
  load_progress fs PROGRESS_FILE = Some p0 → reachable site fs s → visit_ok site p0 s.
Proof.
  intros Hl. induction 1 as [s Hs|s l s' Hr IH Hstep].
  - by eapply visit_ok_start.
  - eapply visit_ok_step; [| | | | |done..].
    + by eapply reachable_coherent.
    + by eapply reachable_fetch_ok.
    + by eapply reachable_settle_ok.
    + eapply reachable_fetch_ok; [done|]. by eapply reach_step.
    + eapply reachable_skips_ok; [done|]. by eapply reach_step.
Qed.

(** *** The result file *)

Lemma finished_new_pool k : finished (new_pool k) = [].
Proof. done. Qed.

Lemma sink_ok_start fs p0 s :
  load_progress fs PROGRESS_FILE = Some p0 → start fs = Some s → sink_ok site fs p0 s.
Proof.
  unfold start. intros Hl Hs. rewrite Hl in Hs. simpl in Hs. simplify_eq.
  split; simpl.
  - done.
  - done.
  - exists []. split_and!.
    + destruct (init_csv_file_is_Some CSV_FILE CSV_COLUMNS fs) as [f Hf].
      rewrite Hf. simpl. by rewrite app_nil_r.
    + constructor.
    + intros doc_id. simpl. rewrite elem_of_nil. tauto.
    + by intros r ?%elem_of_nil.
    + by intros r ?%elem_of_nil.
  - intros path Hcsv _. by apply lookup_init_csv_file.
Qed.

Lemma sink_ok_step fs0 p0 l s s' :
  coherent s → sink_ok site fs0 p0 s → step site l s = Some s' → sink_ok site fs0 p0 s'.
Proof.
  intros Hc [Hfin Hmeta (rows & Hcsv & Hnd & Hids & Hnew & Hrows) Hother] Hstep%step_trans.
  pose proof (λ d, coherent_unsettled_future s d Hc) as Hunf.
  pose proof progress_file_not_csv as Hne.
  destruct Hc as [Hw Hf Hn Hfr Hk Hp Hl].
  destruct Hstep; simpl in *; split; simpl.
  all: try done.
  all: try (by exists rows).
  all: try (intros path ? ?; rewrite lookup_save_progress, decide_False by done;
            by apply Hother).
  all: try (exists rows; by rewrite lookup_save_progress, decide_False by done).
  all: try (intros n0 d reply Heq Hin; apply (Hfin n0 d reply Heq);
            rewrite (delete_Permutation _ _ _ H); by right).
  - (* a page with records is entered: a new pool *)
    intros n0 d reply _ Hin. rewrite ?finished_new_pool in Hin.
    by apply elem_of_nil in Hin.
  - intros n0 [= <-]. eauto.
  - (* a row is appended *)
    assert (doc_id ∈ unsettled p) as Hu.
    { unfold unsettled. rewrite !elem_of_app. right. right.
      apply list_elem_of_fmap. exists (doc_id, DocText doc_text). split; [done|].
      by eapply list_elem_of_lookup_2. }
    assert (doc_id ∉ ids) as Hfresh by by apply Hfr.
    destruct (Hmeta n eq_refl) as (data & Hpage & ->).
    exists (rows ++ [make_row r doc_id doc_text]). split_and!.
    + rewrite lookup_append_row_to_csv, decide_True by done. rewrite Hcsv. simpl.
      by rewrite fmap_app, (assoc_L (++)).
    + rewrite fmap_app. simpl. apply NoDup_app. split_and!; [done| |apply NoDup_singleton].
      intros x Hx ->%list_elem_of_singleton. apply Hfresh. apply Hids. by right.
    + intros d. rewrite elem_of_union, elem_of_singleton, Hids, fmap_app, elem_of_app.
      simpl. rewrite list_elem_of_singleton. tauto.
    + intros r' [Hr|Hr%list_elem_of_singleton]%elem_of_app; [by apply Hnew|].
      subst r'. simpl. intros Hin. apply Hfresh. apply Hids. by left.
    + intros r' [Hr|Hr%list_elem_of_singleton]%elem_of_app; [by apply Hrows|].
      subst r'. simpl. exists n, data, r. split_and!; [done|done| |done].
      symmetry. apply (Hfin n doc_id (DocText doc_text) eq_refl).
      by eapply list_elem_of_lookup_2.
  - intros path ? ?. rewrite lookup_append_row_to_csv, decide_False by done.
    by apply Hother.
  - (* a call returns *)
    intros n0 d reply Heq [Hin|Hin%list_elem_of_singleton]%elem_of_app.
    + by apply Hfin.
    + simplify_eq. congruence.
Qed.

Lemma reachable_sink_ok fs p0 s :
  load_progress fs PROGRESS_FILE = Some p0 → reachable site fs s → sink_ok site fs p0 s.
Proof.
  intros Hl. induction 1 as [s Hs|s l s' Hr IH Hstep].
  - by eapply sink_ok_start.
  - eapply sink_ok_step; [|done..]. by eapply reachable_coherent.
Qed.

(** *** What a step does to the files *)

Lemma step_csv_file l s s' :
  step site l s = Some s' →
  st_fs s' !! CSV_FILE = st_fs s !! CSV_FILE ∨
  ∃ i n doc_id metadata doc_text,
    l = Yield i ∧
    (doc_id, DocText doc_text) ∈ finished (st_pool s) ∧
    current_page (st_pc s) = Some n ∧
    dict_get (metadata_of (st_pc s)) doc_id = Some metadata ∧
    st_fs s' !! CSV_FILE =
      Some (default [] (st_fs s !! CSV_FILE)
            ++ [CsvLine (make_row metadata doc_id doc_text)]).
Proof.
  intros Hstep%step_trans. pose proof progress_file_not_csv as Hne.
  destruct Hstep; simpl; try (by left).
  - left. by rewrite lookup_save_progress, decide_False.
  - left. by rewrite lookup_save_progress, decide_False.
  - right. exists i, n, doc_id, r, doc_text. split_and!; try done.
    + by eapply list_elem_of_lookup_2.
    + by rewrite lookup_append_row_to_csv, decide_True.
Qed.

(** The sets in memory and the sets in the progress file only grow. *)
Lemma step_progress_grows fs0 p0 l s s' :
  coherent s → settle_ok site p0 s → disk_ok fs0 p0 s →
  step site l s = Some s' →
  st_pages_done s ⊆ st_pages_done s' ∧
  st_ids_downloaded s ⊆ st_ids_downloaded s' ∧
  ∃ p p', load_progress (st_fs s) PROGRESS_FILE = Some p ∧
          load_progress (st_fs s') PROGRESS_FILE = Some p' ∧
          pages_done p ⊆ pages_done p' ∧ ids_downloaded p ⊆ ids_downloaded p' ∧
          pages_done p' ⊆ st_pages_done s' ∧
          ids_downloaded p' ⊆ st_ids_downloaded s'.
Proof.
  intros Hc Hs Hd Hstep.
  destruct (trans_mono l s s' (proj1 (step_trans site l s s') Hstep)) as (_ & Hpd & Hid).
  split_and!; [done..|].
  destruct (do_progress fs0 p0 s Hd) as (p & Hload & _ & Hp & _ & Hi).
  exists p.
  destruct (step_marks_or_keeps site p0 l s s' Hc Hs Hstep) as [[_ Hk]|[n Hm]].
  - exists p. split_and!; [done| |done|done|set_solver|set_solver].
    rewrite <- Hload. by apply load_progress_other.
  - destruct Hm as (_ & _ & _ & _ & _ & _ & _ & _ & _ & Hload').
    eexists. split_and!; [done|done|simpl..]; set_solver.
Qed.

(** *** The run can always be brought to its end *)


(** A run cannot start on a progress file that does not hold one JSON
    document. *)
Lemma unreadable_progress_no_run fs f s :
  fs !! PROGRESS_FILE = Some f → json_load f = None → ¬ reachable site fs s.
Proof.
  intros Hf Hj. induction 1 as [s Hs|]; [|done].
  unfold start, load_progress in Hs. rewrite Hf, Hj in Hs. done.
Qed.

End Run.

(** *** Resuming on the files of a stopped run *)

(** The progress file a stopped run leaves, when it loads, holds pages
    and ids the run had in memory. *)
Lemma left_behind_progress (site : remote) fs p0 s1 fs1 p1 :
  load_progress fs PROGRESS_FILE = Some p0 →
  left_behind site fs s1 fs1 →
  load_progress fs1 PROGRESS_FILE = Some p1 →
  reachable site fs s1 ∧
  pages_done p1 ⊆ st_pages_done s1 ∧
  ids_downloaded p1 ⊆ st_ids_downloaded s1.
Proof.
  intros Hload Hleft Hload1. destruct Hleft as [s Hr|s0 s k Hr Hstep Hne].
  - destruct (do_progress fs p0 s (reachable_disk_ok site fs p0 s Hload Hr))
      as (p & Hp & _ & Hpages & _ & Hids).
    rewrite Hp in Hload1. by simplify_eq.
  - assert (reachable site fs s) as Hr' by by eapply reach_step.
    split; [done|].
    apply step_trans in Hstep. destruct (trans_mono site _ _ _ Hstep) as (_ & Hpd & Hid).
    unfold load_progress in Hload1.
    rewrite lookup_save_progress_crash, decide_True in Hload1 by done.
    destruct k as [|[|k]].
    + destruct (do_progress fs p0 s0 (reachable_disk_ok site fs p0 s0 Hload Hr))
        as (p & Hp & _ & Hpages & _ & Hids).
      unfold load_progress in Hp. rewrite Hp in Hload1. simplify_eq. set_solver.
    + done.
    + simpl in Hload1. unfold py_list in Hload1.
      rewrite !list_to_set_elements_L in Hload1. by simplify_eq.
Qed.

(** A run started from a progress file that holds only pages an earlier
    run had in [pages_done]. *)
Lemma resumed_from (site site' : remote) fs p0 s1 fs1 p1 s2 :
  load_progress fs PROGRESS_FILE = Some p0 →
  reachable site fs s1 →
  load_progress fs1 PROGRESS_FILE = Some p1 →
  pages_done p1 ⊆ st_pages_done s1 →
  reachable site' fs1 s2 →
  (∀ m, m ∈ pages_done p1 → EvPageFetch m ∉ st_trace s2) ∧
  (∀ m doc_id, doc_id ∈ ids_downloaded p1 → EvFetchBegin m doc_id ∉ st_trace s2) ∧
  (∀ m, EvPageError m ∈ st_trace s1 → passed (st_pc s2) m →
        EvPageFetch m ∈ st_trace s2) ∧
  (∀ m, EvSkip m ∈ st_trace s2 →
        m ∈ pages_done p0 ∨
        (EvPageFetch m ∈ st_trace s1 ∧
         ∃ data, post_aramadetaylist site m PAGE_SIZE = PageJson data)).
Proof.
  intros Hload Hr1 Hload1 Hsub Hr2.
  pose proof (reachable_fetch_ok site' fs1 p1 s2 Hload1 Hr2) as Hf2.
  pose proof (reachable_visit_ok site fs p0 s1 Hload Hr1) as Hv1.
  pose proof (reachable_visit_ok site' fs1 p1 s2 Hload1 Hr2) as Hv2.
  split_and!.
  - intros m Hm Hin%elem_of_page_fetches.
    by destruct (fo_page_fetch p1 s2 Hf2 m Hin).
  - intros m doc_id Hd Hin%elem_of_doc_fetches.
    by destruct (fo_doc_fetch p1 s2 Hf2 m doc_id Hin).
  - intros m Herr Hpass.
    destruct (vo_error site p0 s1 Hv1 m Herr) as (Hraise & Hm & Hnd & _ & _).
    destruct (vo_passed site' p1 s2 Hv2 m Hm Hpass) as [(Hin & _)|(_ & Hfetch & _)];
      [|done].
    exfalso. apply Hnd. by apply Hsub.
  - intros m Hskip.
    pose proof (reachable_skips_ok site' fs1 p1 s2 Hload1 Hr2 m Hskip) as Hm.
    apply Hsub in Hm.
    destruct (so_done site p0 s1 (reachable_settle_ok site fs p0 s1 Hload Hr1) m Hm)
      as [?|[Hf ?]]; [by left|right].
    split; [by apply elem_of_page_fetches|done].
Qed.

End UYAPRunFacts.

(** ** The company-list scraper: batches as a whole *)

Module ZaubaCorpBatchFacts.
Import ZaubaCorp ZaubaCorpFacts ZaubaCorpBatch.

(** *** The ranges of the workers *)

Lemma flat_map_pairs cur (k : nat) :
  flat_map (λ i, seqZ (cur + 2 * i) 2) (seqZ 0 (Z.of_nat k))
  = seqZ cur (2 * Z.of_nat k).
Proof.
  induction k as [|k IH]; [done|].
  rewrite seqZ_S, flat_map_app, IH. simpl.
  replace (2 * Z.of_nat (S k)) with (2 * Z.of_nat k + 2) by lia.
  rewrite seqZ_app by lia. f_equal. all: simpl; repeat f_equal; lia.
Qed.

Lemma flat_map_ext_Forall {A B} (P : A → Prop) (f g : A → list B) l :
  Forall P l → (∀ x, P x → f x = g x) → flat_map f l = flat_map g l.
Proof.
  intros Hl Hfg. induction Hl as [|x l Hx _ IH]; simpl; [done|].
  by rewrite IH, Hfg.
Qed.

Lemma worker_range_pair s i :
  0 < max_workers s → 0 ≤ i < max_workers s →
  worker_range s i = (current_page s + 2 * i, current_page s + 2 * i + 1).
Proof.
  intros HK Hi. unfold worker_range. simpl.
  rewrite (Z.mul_comm (max_workers s) 2), Z.div_mul by lia.
  rewrite decide_False by lia. f_equal; lia.
Qed.

(** With [batch_size = 2 * max_workers] every worker gets two pages, and
    the ranges follow one another without a gap or an overlap. *)
Lemma batch_pages_seq s :
  0 < max_workers s → batch_pages s = seqZ (current_page s) (2 * max_workers s).
Proof.
  intros HK. unfold batch_pages.
  rewrite (flat_map_ext_Forall (λ i, 0 ≤ i < max_workers s) _
             (λ i, seqZ (current_page s + 2 * i) 2)).
  - rewrite <- (Z2Nat.id (max_workers s)) at 1 2 by lia. apply flat_map_pairs.
  - apply Forall_forall. intros i Hi%elem_of_seqZ. lia.
  - intros i Hi. rewrite worker_range_pair by done. f_equal. lia.
Qed.

Section Service.
Variable zyte : service.

Lemma process_pages_app l1 l2 :
  process_pages zyte (l1 ++ l2) = process_pages zyte l1 ++ process_pages zyte l2.
Proof.
  induction l1 as [|page l1 IH]; simpl; [done|].
  destruct (scrape_page zyte page) as [r evs]. rewrite IH.
  by rewrite <- !(assoc_L (++)).
Qed.

(** The events of a batch are those of one pass over its pages. *)
Lemma batch_events s (is_ : list Z) :
  flat_map (λ i, let '(start, end_) := worker_range s i in
                 process_page_range zyte start end_) is_
  = process_pages zyte
      (flat_map (λ i, let '(start, end_) := worker_range s i in
                      seqZ start (end_ + 1 - start)) is_).
Proof.
  induction is_ as [|i is_ IH]; [done|]. cbn [flat_map].
  rewrite process_pages_app, IH. by destruct (worker_range s i).
Qed.

(** *** Requests *)

Lemma all_equal_replicate {A} (l : list A) a :
  (∀ x, x ∈ l → x = a) → l = replicate (length l) a.
Proof.
  induction l as [|y l IH]; intros Hall; simpl; [done|].
  rewrite (Hall y) by left. f_equal. apply IH. intros x Hx. apply Hall. by right.
Qed.

Lemma scrape_page_events page :
  requests (scrape_page zyte page).2 = replicate (attempts_made zyte page) page ∧
  puts (scrape_page zyte page).2 = [] ∧
  (1 ≤ attempts_made zyte page ≤ 3)%nat.
Proof.
  destruct (scrape_page_requests zyte page) as [Hreq Hlen]. split_and!.
  - by apply all_equal_replicate.
  - unfold scrape_page; simpl.
    destruct (zyte page 0%nat) as [|c0 [| |]], (zyte page 1%nat) as [|c1 [| |]],
      (zyte page 2%nat) as [|c2 [| |]]; simpl; repeat case_decide; done.
  - unfold attempts_made.
    change (scrape_page zyte page) with (scrape_attempts zyte page (0 :: [1; 2])%nat).
    generalize [1; 2]%nat. intros rest. cbn [scrape_attempts].
    destruct (scrape_attempts zyte page rest) as [r evs].
    destruct (zyte page 0%nat) as [|c0 [| |]]; simpl; repeat case_decide; simpl; lia.
  - done.
Qed.

Lemma requests_app evs evs' : requests (evs ++ evs') = requests evs ++ requests evs'.
Proof. apply omap_app. Qed.

Lemma puts_app evs evs' : puts (evs ++ evs') = puts evs ++ puts evs'.
Proof. apply omap_app. Qed.

Lemma process_pages_requests_eq pages :
  requests (process_pages zyte pages)
  = flat_map (λ page, replicate (attempts_made zyte page) page) pages.
Proof.
  induction pages as [|page rest IH]; [done|]. cbn [process_pages flat_map].
  destruct (scrape_page_events page) as (Hreq & _ & _).
  destruct (scrape_page zyte page) as [r evs]; simpl in Hreq.
  rewrite !requests_app, Hreq.
  change (requests (Sleep 1 :: process_pages zyte rest))
    with (requests (process_pages zyte rest)).
  rewrite IH. by destruct r as [[|]|].
Qed.

Lemma process_pages_puts_eq pages :
  puts (process_pages zyte pages) = omap (page_result zyte) pages.
Proof.
  induction pages as [|page rest IH]; [done|]. cbn [process_pages omap list_omap].
  destruct (scrape_page_events page) as (_ & Hput & _). unfold page_result.
  destruct (scrape_page zyte page) as [r evs]; simpl in *.
  rewrite !puts_app, Hput.
  change (puts (Sleep 1 :: process_pages zyte rest))
    with (puts (process_pages zyte rest)).
  rewrite IH. by destruct r as [[|]|].
Qed.

(** *** What is put on the queue *)

Lemma page_result_Some page pc :
  page_result zyte page = Some pc → pc.1 = page ∧ pc.2 ≠ [].
Proof.
  unfold page_result. destruct ((scrape_page zyte page).1) as [[|c cs]|]; try done.
  by intros [= <-].
Qed.

Lemma page_results_nonempty pages :
  Forall (λ pc : Z * list company, pc.2 ≠ []) (omap (page_result zyte) pages).
Proof.
  apply Forall_forall. intros pc (page & _ & Hpc)%list_elem_of_omap.
  by destruct (page_result_Some page pc Hpc).
Qed.

Lemma page_results_pages pages :
  (omap (page_result zyte) pages).*1
  = filter (λ page, is_Some (page_result zyte page)) pages.
Proof.
  induction pages as [|page rest IH]; [done|]. simpl. rewrite filter_cons.
  destruct (page_result zyte page) as [pc|] eqn:Hpc; simpl; [|apply IH].
  f_equal; [|apply IH]. by destruct (page_result_Some page pc Hpc).
Qed.

Lemma page_results_length pages :
  (length (omap (page_result zyte) pages) ≤ length pages)%nat.
Proof.
  rewrite <- (length_fmap fst), page_results_pages. apply length_filter.
Qed.

End Service.

(** *** The companies file *)

Lemma lookup_open_item path path' fs :
  open_w path fs !! path' = if decide (path = path') then Some [] else fs !! path'.
Proof. unfold open_w. apply lookup_insert. Qed.

Lemma lookup_write_item path path' c fs :
  write path c fs !! path' =
  if decide (path = path') then Some (default [] (fs !! path) ++ [c]) else fs !! path'.
Proof. unfold write. apply lookup_insert. Qed.

Lemma lookup_foldl_write path path' rows fs :
  foldl (λ fs r, write path r fs) fs rows !! path' =
  if decide (path = path') then
    match rows with
    | [] => fs !! path
    | _ :: _ => Some (default [] (fs !! path) ++ rows)
    end
  else fs !! path'.
Proof.
  revert fs. induction rows as [|r rows IH]; intros fs; simpl.
  - by case_decide; simplify_eq.
  - rewrite IH, !lookup_write_item. case_decide; [|done].
    rewrite decide_True by done. simpl.
    destruct rows; simpl; by rewrite <- ?(assoc_L (++)).
Qed.

Lemma lookup_save_companies_batch companies fs path :
  save_companies_batch companies fs !! path =
  if decide (path = companies_file) then
    match companies with
    | [] => fs !! companies_file
    | _ :: _ => Some (default [companies_header] (fs !! companies_file)
                      ++ ((λ c : company, CsvLine [c.1; c.2]) <$> companies))
    end
  else fs !! path.
Proof.
  unfold save_companies_batch. destruct companies as [|c cs].
  { by case_decide; simplify_eq. }
  destruct (fs !! companies_file) as [f|] eqn:Hf.
  - rewrite (lookup_foldl_write companies_file path). case_decide; simplify_eq.
    + rewrite decide_True by done. by rewrite Hf.
    + by rewrite decide_False by done.
  - rewrite (lookup_foldl_write companies_file path).
    rewrite !lookup_open_item. case_decide; simplify_eq.
    + rewrite !decide_True by done. done.
    + by rewrite !decide_False by done.
Qed.

(** A file that does not end in the middle of a line has as many lines
    as line ends. *)
Lemma file_lines_whole (f : file) :
  (∀ z, last f ≠ Some (IntText z)) →
  file_lines f = sum_list_with line_ends f.
Proof.
  intros Hlast. unfold file_lines.
  destruct (last f) as [[z|cells]|]; [by destruct (Hlast z)|lia..].
Qed.

Lemma last_rows (f : file) (companies : list company) z :
  (∀ z, last f ≠ Some (IntText z)) →
  last (f ++ ((λ c : company, CsvLine [c.1; c.2]) <$> companies)) ≠ Some (IntText z).
Proof.
  intros Hlast. induction companies as [|c cs IH] using rev_ind.
  - simpl. rewrite app_nil_r. apply Hlast.
  - rewrite fmap_app, app_assoc. simpl. by rewrite last_snoc.
Qed.

Lemma rows_of_puts_app r1 r2 :
  rows_of_puts (r1 ++ r2) = rows_of_puts r1 ++ rows_of_puts r2.
Proof. apply flat_map_app. Qed.

(** The rows of the results are rows. *)
Lemma last_rows_of_puts (f : file) results z :
  (∀ z, last f ≠ Some (IntText z)) →
  last (f ++ rows_of_puts results) ≠ Some (IntText z).
Proof.
  intros Hlast. revert f Hlast.
  induction results as [|[page companies] results IH]; intros f Hlast.
  - simpl. rewrite app_nil_r. apply Hlast.
  - change (rows_of_puts ((page, companies) :: results))
      with (((λ c : company, CsvLine [c.1; c.2]) <$> companies) ++ rows_of_puts results).
    rewrite app_assoc. apply IH. intros z'. by apply last_rows.
Qed.

(** Rows whose cells hold no line break take one line each. *)
Lemma line_ends_rows results :
  (∀ pc c, pc ∈ results → c ∈ pc.2 → line_breaks c.1 = 0%nat ∧ line_breaks c.2 = 0%nat) →
  sum_list_with line_ends (rows_of_puts results) = length (rows_of_puts results).
Proof.
  induction results as [|[page companies] results IH]; intros Hno; [done|].
  change (rows_of_puts ((page, companies) :: results))
    with (((λ c : company, CsvLine [c.1; c.2]) <$> companies) ++ rows_of_puts results).
  rewrite sum_list_with_app, length_app, IH
    by (intros pc c ? ?; apply (Hno pc c); [by right|done]).
  f_equal.
  assert (∀ c, c ∈ companies → line_breaks c.1 = 0%nat ∧ line_breaks c.2 = 0%nat) as Hc.
  { intros c Hin. apply (Hno (page, companies) c); [left|done]. }
  clear -Hc. induction companies as [|c cs IH]; [done|]. simpl.
  destruct (Hc c) as [-> ->]; [left|]. simpl. f_equal. apply IH.
  intros c' ?. apply Hc. by right.
Qed.

Lemma rows_of_puts_nil results :
  Forall (λ pc : Z * list company, pc.2 ≠ []) results →
  rows_of_puts results = [] → results = [].
Proof.
  destruct 1 as [|[page [|c cs]] results Hne _]; simpl; done.
Qed.

Lemma lookup_saved results fs path :
  Forall (λ pc : Z * list company, pc.2 ≠ []) results →
  foldl (λ fs (pc : Z * list company), save_companies_batch pc.2 fs) fs results !! path =
  if decide (path = companies_file) then
    match results with
    | [] => fs !! companies_file
    | _ :: _ => Some (default [companies_header] (fs !! companies_file)
                      ++ rows_of_puts results)
    end
  else fs !! path.
Proof.
  intros Hne. revert fs. induction Hne as [|[page cs] results Hcs _ IH]; intros fs.
  { simpl. by case_decide; simplify_eq. }
  cbn [foldl]. rewrite IH. case_decide.
  - rewrite lookup_save_companies_batch, decide_True by done. simpl in *.
    destruct cs as [|c cs]; [done|].
    destruct results as [|pc results]; simpl.
    + by rewrite app_nil_r.
    + by rewrite <- !(assoc_L (++)).
  - by rewrite lookup_save_companies_batch, decide_False.
Qed.

(** *** The loop that takes the results *)

(** The guard [len(completed_pages) < batch_size] never stops the loop
    while a result of the batch is on the queue. *)
Lemma collect_all batch_size results completed found fs :
  Z.of_nat (size completed) + Z.of_nat (length results) ≤ batch_size →
  Forall (λ pc : Z * list company, pc.2 ≠ []) results →
  collect batch_size results completed found fs =
    (list_to_set results.*1 ∪ completed,
     found + Z.of_nat (length (rows_of_puts results)),
     foldl (λ fs (pc : Z * list company), save_companies_batch pc.2 fs) fs results).
Proof.
  intros Hsize Hne. revert completed found fs Hsize.
  induction Hne as [|[page cs] results Hcs _ IH]; intros completed found fs Hsize.
  { simpl. by rewrite (left_id_L ∅ (∪)), Z.add_0_r. }
  cbn [collect]. simpl in Hsize, Hcs. rewrite decide_True by lia.
  destruct cs as [|c cs]; [done|]. rewrite IH.
  - cbn [foldl fmap list_fmap fst rows_of_puts flat_map snd].
    change (flat_map _ results) with (rows_of_puts results).
    rewrite length_app. cbn [length list_to_set]. rewrite length_fmap.
    rewrite (assoc_L (∪)), (comm_L (∪) (list_to_set _) {[page]}).
    f_equal. f_equal. lia.
  - assert (size ({[page]} ∪ completed) ≤ S (size completed))%nat; [|lia].
    destruct (decide (page ∈ completed)) as [Hin|Hin].
    + replace ({[page]} ∪ completed) with completed by set_solver. lia.
    + rewrite size_union by set_solver. rewrite size_singleton. lia.
Qed.

(** *** One batch *)

Section Batch.
Variable zyte : service.

Lemma completed_empty (results : list (Z * list company)) :
  list_to_set results.*1 ∪ ∅ = (∅ : gset Z) ↔ results = [].
Proof.
  rewrite (right_id_L ∅ (∪)). destruct results as [|[page cs] results]; simpl.
  - done.
  - split; [|done]. intros Hempty. exfalso.
    assert (page ∈ (∅ : gset Z)) as Hin by (rewrite <- Hempty; set_solver).
    set_solver.
Qed.

(** A batch, spelled out: one pass over the [2 * max_workers] pages from
    [current_page] on, every result saved, then the new [current_page]. *)
Lemma run_batch_eq s :
  0 < max_workers s →
  run_batch zyte s =
    (save_progress
       (Scraper (max_workers s)
          (if decide (omap (page_result zyte)
                        (seqZ (current_page s) (2 * max_workers s)) = [])
           then current_page s + max_workers s * 2
           else max_page (list_to_set
                  (omap (page_result zyte)
                     (seqZ (current_page s) (2 * max_workers s))).*1 ∪ ∅) + 1)
          (companies_found s + Z.of_nat (length (rows_of_puts
             (omap (page_result zyte) (seqZ (current_page s) (2 * max_workers s))))))
          (foldl (λ fs (pc : Z * list company), save_companies_batch pc.2 fs) (disk s)
             (omap (page_result zyte) (seqZ (current_page s) (2 * max_workers s))))),
     process_pages zyte (seqZ (current_page s) (2 * max_workers s)) ++
     [SaveProgress
        (if decide (omap (page_result zyte)
                      (seqZ (current_page s) (2 * max_workers s)) = [])
         then current_page s + max_workers s * 2
         else max_page (list_to_set
                (omap (page_result zyte)
                   (seqZ (current_page s) (2 * max_workers s))).*1 ∪ ∅) + 1)] ++
     (if decide (omap (page_result zyte)
                   (seqZ (current_page s) (2 * max_workers s)) = [])
      then [LogError (current_page s); Sleep 60] else [])).
Proof.
  intros HK. unfold run_batch. cbv zeta. rewrite batch_events.
  change (flat_map _ (seqZ 0 (max_workers s))) with (batch_pages s).
  rewrite batch_pages_seq by done. rewrite process_pages_puts_eq.
  rewrite collect_all.
  - destruct (decide (omap (page_result zyte)
                        (seqZ (current_page s) (2 * max_workers s)) = [])) as [He|He].
    + rewrite !decide_True by by apply completed_empty. done.
    + rewrite !decide_False by by rewrite completed_empty. done.
  - rewrite size_empty. pose proof (page_results_length zyte
      (seqZ (current_page s) (2 * max_workers s))) as Hlen.
    rewrite length_seqZ in Hlen. lia.
  - apply page_results_nonempty.
Qed.

Lemma run_batch_requests s :
  0 < max_workers s →
  requests (run_batch zyte s).2
  = flat_map (λ page, replicate (attempts_made zyte page) page)
             (seqZ (current_page s) (2 * max_workers s)).
Proof.
  intros HK. rewrite run_batch_eq by done. cbn [snd].
  rewrite !requests_app, process_pages_requests_eq.
  case_decide; simpl; by rewrite app_nil_r.
Qed.

Lemma run_batch_puts s :
  0 < max_workers s →
  puts (run_batch zyte s).2
  = omap (page_result zyte) (seqZ (current_page s) (2 * max_workers s)).
Proof.
  intros HK. rewrite run_batch_eq by done. cbn [snd].
  rewrite !puts_app, process_pages_puts_eq.
  case_decide; simpl; by rewrite app_nil_r.
Qed.

Lemma run_batch_state s :
  0 < max_workers s →
  max_workers (run_batch zyte s).1 = max_workers s ∧
  current_page (run_batch zyte s).1 =
    (if decide (puts (run_batch zyte s).2 = []) then current_page s + 2 * max_workers s
     else max_page (list_to_set (puts (run_batch zyte s).2).*1) + 1) ∧
  companies_found (run_batch zyte s).1 =
    companies_found s + Z.of_nat (length (rows_of_puts (puts (run_batch zyte s).2))) ∧
  ∀ path,
    disk (run_batch zyte s).1 !! path =
      if decide (path = progress_file) then
        Some [IntText (current_page (run_batch zyte s).1)]
      else if decide (path = companies_file) then
        match puts (run_batch zyte s).2 with
        | [] => disk s !! companies_file
        | _ :: _ => Some (default [companies_header] (disk s !! companies_file)
                          ++ rows_of_puts (puts (run_batch zyte s).2))
        end
      else disk s !! path.
Proof.
  intros HK. rewrite run_batch_puts by done. rewrite run_batch_eq by done. cbn [fst].
  split_and!; [done| |done|].
  - simpl. case_decide; [lia|]. by rewrite (right_id_L ∅ (∪)).
  - intros path.
    change (disk (save_progress ?z)) with (save_progress_crash 2 z).
    rewrite lookup_scraper_progress_crash. case_decide; [done|]. simpl.
    rewrite lookup_saved by apply page_results_nonempty.
    by case_decide.
Qed.

(** The pages put on the queue by a batch are pages of the batch, each at
    most once, and all below the new [current_page]. *)
Lemma run_batch_put_pages s :
  0 < max_workers s →
  NoDup (puts (run_batch zyte s).2).*1 ∧
  ∀ p, p ∈ (puts (run_batch zyte s).2).*1 →
       current_page s ≤ p < current_page s + 2 * max_workers s ∧
       p < current_page (run_batch zyte s).1.
Proof.
  intros HK. destruct (run_batch_state s HK) as (_ & Hpage & _).
  pose proof (run_batch_puts s HK) as Hputs.
  rewrite Hputs in Hpage |- *. rewrite page_results_pages. split.
  - apply NoDup_filter, NoDup_seqZ.
  - intros p Hp. pose proof Hp as [_ Hin%elem_of_seqZ]%list_elem_of_filter.
    split; [lia|]. rewrite Hpage. case_decide as He.
    { exfalso. rewrite <- page_results_pages, He in Hp. by apply elem_of_nil in Hp. }
    rewrite page_results_pages.
    assert (p ≤ max_page (list_to_set
              (filter (λ page, is_Some (page_result zyte page))
                 (seqZ (current_page s) (2 * max_workers s))))); [|lia].
    apply max_page_ge. by apply elem_of_list_to_set.
Qed.

(** *** A batch that is interrupted *)

Lemma interrupted_batch_state k s :
  0 < max_workers s →
  max_workers (interrupted_batch zyte k s) = max_workers s ∧
  current_page (interrupted_batch zyte k s) = current_page s ∧
  ∀ path,
    disk (interrupted_batch zyte k s) !! path =
      if decide (path = progress_file) then Some [IntText (current_page s)]
      else if decide (path = companies_file) then
        match take k (puts (run_batch zyte s).2) with
        | [] => disk s !! companies_file
        | _ :: _ => Some (default [companies_header] (disk s !! companies_file)
                          ++ rows_of_puts (take k (puts (run_batch zyte s).2)))
        end
      else disk s !! path.
Proof.
  intros HK. rewrite run_batch_puts by done. unfold interrupted_batch. cbv zeta.
  rewrite batch_events.
  change (flat_map _ (seqZ 0 (max_workers s))) with (batch_pages s).
  rewrite batch_pages_seq by done. rewrite process_pages_puts_eq.
  assert (Forall (λ pc : Z * list company, pc.2 ≠ [])
            (take k (omap (page_result zyte)
                       (seqZ (current_page s) (2 * max_workers s))))) as Hne.
  { apply Forall_take, page_results_nonempty. }
  rewrite collect_all; [|rewrite size_empty, length_take|done].
  - split_and!; [done..|]. intros path.
    change (disk (save_progress ?z)) with (save_progress_crash 2 z).
    rewrite lookup_scraper_progress_crash. case_decide; [done|]. simpl.
    rewrite lookup_saved by done. by case_decide.
  - pose proof (page_results_length zyte
      (seqZ (current_page s) (2 * max_workers s))) as Hlen.
    rewrite length_seqZ in Hlen. lia.
Qed.

(** *** The loop over the batches *)

Lemma run_loop_saved fuel s :
  0 < max_workers s →
  max_workers (run_loop zyte fuel s).1 = max_workers s ∧
  current_page s ≤ current_page (run_loop zyte fuel s).1 ∧
  Forall (λ pc : Z * list company, pc.2 ≠ []) (puts (run_loop zyte fuel s).2) ∧
  companies_found (run_loop zyte fuel s).1 =
    companies_found s + Z.of_nat (length (rows_of_puts (puts (run_loop zyte fuel s).2))) ∧
  disk (run_loop zyte fuel s).1 !! companies_file =
    match puts (run_loop zyte fuel s).2 with
    | [] => disk s !! companies_file
    | _ :: _ => Some (default [companies_header] (disk s !! companies_file)
                      ++ rows_of_puts (puts (run_loop zyte fuel s).2))
    end.
Proof.
  revert s. induction fuel as [|fuel IH]; intros s HK; simpl.
  { split_and!; [done|lia|done|unfold puts, rows_of_puts; simpl; lia|done]. }
  case_decide.
  2: { simpl. split_and!; [done|lia|done|unfold puts, rows_of_puts; simpl; lia|done]. }
  destruct (run_batch_state s HK) as (Hmw & Hpage & Hfound & Hdisk).
  destruct (run_batch_put_pages s HK) as [_ Hput].
  pose proof (run_batch_puts s HK) as Hputs.
  pose proof (run_batch_forward zyte s HK) as (_ & Hfwd & _).
  specialize (Hdisk companies_file). rewrite decide_False, decide_True in Hdisk by done.
  destruct (run_batch zyte s) as [s' evs]. simpl in *.
  destruct (IH s') as (Hmw' & Hpage' & Hne' & Hfound' & Hdisk'); [lia|].
  destruct (run_loop zyte fuel s') as [s'' evs']. simpl in *.
  assert (Forall (λ pc : Z * list company, pc.2 ≠ []) (puts evs)) as Hne.
  { rewrite Hputs. apply page_results_nonempty. }
  rewrite puts_app, rows_of_puts_app, length_app.
  split_and!; [congruence|lia|by apply Forall_app|lia|].
  rewrite Hdisk', Hdisk.
  destruct (puts evs) as [|pc1 l1], (puts evs') as [|pc2 l2]; simpl; try done.
  - by rewrite !app_nil_r.
  - by rewrite <- !(assoc_L (++)).
Qed.

Lemma run_loop_put_pages fuel s :
  0 < max_workers s →
  NoDup (puts (run_loop zyte fuel s).2).*1 ∧
  ∀ p, p ∈ (puts (run_loop zyte fuel s).2).*1 →
       current_page s ≤ p < current_page (run_loop zyte fuel s).1.
Proof.
  revert s. induction fuel as [|fuel IH]; intros s HK; simpl.
  { split; [constructor|by intros p ?%elem_of_nil]. }
  case_decide; [|simpl; split; [constructor|by intros p ?%elem_of_nil]].
  destruct (run_batch_state s HK) as (Hmw & _).
  destruct (run_batch_put_pages s HK) as [Hnd Hput].
  pose proof (run_batch_forward zyte s HK) as (_ & Hfwd & _).
  destruct (run_batch zyte s) as [s' evs]. simpl in *.
  destruct (IH s') as (Hnd' & Hput'); [lia|].
  pose proof (run_loop_saved fuel s') as (_ & Hmono & _); [lia|].
  destruct (run_loop zyte fuel s') as [s'' evs']. simpl in *.
  rewrite puts_app, fmap_app. split.
  - apply NoDup_app. split_and!; [done| |done].
    intros p Hp Hp'. specialize (Hput p Hp). specialize (Hput' p Hp'). lia.
  - intros p [Hp|Hp]%elem_of_app.
    + specialize (Hput p Hp). lia.
    + specialize (Hput' p Hp). lia.
Qed.

(** *** A service that is down *)

Lemma dead_page_result page :
  (∀ attempt, failing (zyte page attempt)) →
  page_result zyte page = None ∧ attempts_made zyte page = 3%nat.
Proof.
  intros Hfail. destruct (scrape_page_failing zyte page Hfail) as (Hnone & Hreq & _).
  unfold page_result, attempts_made. by rewrite Hnone, Hreq.
Qed.

Lemma run_loop_dead fuel s :
  (∀ page attempt, failing (zyte page attempt)) →
  0 < max_workers s →
  companies_found s < total_companies_target →
  current_page (run_loop zyte fuel s).1
    = current_page s + Z.of_nat fuel * (2 * max_workers s) ∧
  max_workers (run_loop zyte fuel s).1 = max_workers s ∧
  companies_found (run_loop zyte fuel s).1 = companies_found s ∧
  puts (run_loop zyte fuel s).2 = [] ∧
  Z.of_nat (length (requests (run_loop zyte fuel s).2))
    = Z.of_nat fuel * (3 * (2 * max_workers s)).
Proof.
  intros Hfail. revert s. induction fuel as [|fuel IH]; intros s HK Hfound.
  { simpl. split_and!; try done; lia. }
  cbn [run_loop]. rewrite decide_True by done.
  assert (omap (page_result zyte) (seqZ (current_page s) (2 * max_workers s)) = [])
    as Hnone.
  { generalize (seqZ (current_page s) (2 * max_workers s)). intros pages.
    induction pages as [|page pages IHp]; [done|]. simpl.
    by destruct (dead_page_result page (Hfail page)) as [-> _]. }
  destruct (run_batch_state s HK) as (Hmw & Hpage & Hfound' & _).
  pose proof (run_batch_puts s HK) as Hputs. rewrite Hnone in Hputs.
  pose proof (run_batch_requests s HK) as Hreq.
  rewrite Hputs in Hpage, Hfound'. simpl in Hpage, Hfound'.
  destruct (run_batch zyte s) as [s' evs]. simpl in *.
  destruct (IH s') as (Hp & Hm & Hf & Hpu & Hr); [lia|lia|].
  destruct (run_loop zyte fuel s') as [s'' evs']. simpl in *.
  rewrite puts_app, requests_app, length_app, Hputs, Hpu, Hreq.
  split_and!; [lia|congruence|lia|done|].
  assert (length (flat_map (λ page, replicate (attempts_made zyte page) page)
                    (seqZ (current_page s) (2 * max_workers s)))
          = (3 * length (seqZ (current_page s) (2 * max_workers s)))%nat) as ->.
  { generalize (seqZ (current_page s) (2 * max_workers s)). intros pages.
    induction pages as [|page pages IHp]; [done|]. cbn [flat_map].
    rewrite length_app, length_replicate, IHp.
    destruct (dead_page_result page (Hfail page)) as [_ ->]. simpl. lia. }
  rewrite length_seqZ. lia.
Qed.

End Batch.

End ZaubaCorpBatchFacts.

(** ** The fetchers of the downloader *)

Module UYAPZyteFacts.
Import Py UYAP UYAPZyte.

Section Service.
Variable zyte : list (string * string) → payload → zyte_reply.
Variable b64encode : string → string.
Variable b64decode : string → option string.

(** A reply without a body, or with an empty one, is returned with an
    empty [decodedBody] or with none at all. *)
Lemma zyte_request_no_body (p : payload) (data : record) :
  httpResponseBody p = true →
  zyte (headers b64encode) p = Json data →
  match data !! "httpResponseBody" with
  | None => data !! "decodedBody" = None
  | Some raw => truthy raw = false
  end →
  ∃ data', zyte_request zyte b64encode b64decode p = Some data' ∧
           get data' "decodedBody" (PStr "") = PStr "".
Proof.
  intros Hp Hreply Hbody. unfold zyte_request. rewrite Hreply, Hp. unfold get.
  destruct (data !! "httpResponseBody") as [raw|] eqn:Hraw; simpl.
  - rewrite Hbody. simpl. eexists. split; [done|]. by simplify_map_eq.
  - exists data. split; [done|]. by rewrite Hbody.
Qed.

End Service.
End UYAPZyteFacts.

(** * Further properties of the court-records downloader *)

Import UYAPRun UYAPRunFacts MoreSamples.

(** X1: the search requests of a run are made in strictly increasing
    order of page number, all within [1 .. TOTAL_PAGES_TO_FETCH]: a
    request for page [m] comes after requests for smaller pages only. *)
Theorem X1_pages_requested_in_order (site : remote) (fs : filesystem) (s : state)
    (newer older : list event) (m : Z) :
  reachable site fs s →
  st_trace s = newer ++ EvPageFetch m :: older →
  1 ≤ m ≤ TOTAL_PAGES_TO_FETCH ∧ ∀ m', EvPageFetch m' ∈ older → m' < m.
Proof.
  intros Hreach Htr. destruct (reachable_load site fs s Hreach) as [p0 Hload].
  destruct (reachable_visit_ok site fs p0 s Hload Hreach) as [Hord _ Hrange _].
  split.
  - apply Hrange. rewrite Htr, elem_of_app. right. left.
  - by eapply fetched_in_order_split.
Qed.

Lemma X1_pages_requested_in_order_witness :
  1 ≤ 2 ≤ TOTAL_PAGES_TO_FETCH ∧
  ∀ m', EvPageFetch m' ∈ [EvPageError 1; EvPageFetch 1] → m' < 2.
Proof.
  apply (X1_pages_requested_in_order down_site ∅ (after down_site ∅ [Main; Main])
           [EvPageError 2] [EvPageError 1; EvPageFetch 1] 2).
  - apply (run_schedule_reachable _ _ [Main; Main]). by vm_compute.
  - by vm_compute.
Defined.

(** X2: every page the loop has left behind was visited exactly one way.
    A page that was in [pages_done] when the run started was skipped and
    never requested; any other page was requested, never skipped, and
    then either got a reply and is in [pages_done], or its request raised
    and it is not in [pages_done].  Once the loop has ended this holds of
    every page from 1 to [TOTAL_PAGES_TO_FETCH]. *)
Theorem X2_every_page_left_is_accounted_for (site : remote) (fs : filesystem)
    (p0 : progress) (s : state) (m : Z) :
  load_progress fs PROGRESS_FILE = Some p0 →
  reachable site fs s →
  1 ≤ m →
  passed (st_pc s) m →
  visited site p0 s m ∧
  (st_pc s = Finished → ∀ m', 1 ≤ m' ≤ TOTAL_PAGES_TO_FETCH → visited site p0 s m').
Proof.
  intros Hload Hreach Hm Hp.
  destruct (reachable_visit_ok site fs p0 s Hload Hreach) as [_ Hpass _ _].
  split; [by apply Hpass|]. intros Hfin m' [? ?]. apply Hpass; [done|].
  by rewrite Hfin.
Qed.

Lemma X2_every_page_left_is_accounted_for_witness :
  visited mixed_site resumed_progress mixed_marked 2 ∧
  (st_pc mixed_marked = Finished →
   ∀ m', 1 ≤ m' ≤ TOTAL_PAGES_TO_FETCH → visited mixed_site resumed_progress mixed_marked m').
Proof.
  apply (X2_every_page_left_is_accounted_for mixed_site resumed_fs resumed_progress
           mixed_marked 2).
  - by vm_compute.
  - apply (run_schedule_reachable _ _ (mixed_schedule ++ [Main])). by vm_compute.
  - lia.
  - vm_compute. done.
Defined.

(** X3: the result file of a run is what it was at the start (a fresh
    header if it did not exist) followed by the rows of the run; the rows
    of one run have pairwise distinct ids, none of them an id that was in
    [ids_downloaded] at the start, and [ids_downloaded] is exactly the
    ids it started with together with the ids of these rows. *)
Theorem X3_one_row_per_new_id (site : remote) (fs : filesystem) (p0 : progress)
    (s : state) :
  load_progress fs PROGRESS_FILE = Some p0 →
  reachable site fs s →
  ∃ rows,
    st_fs s !! CSV_FILE =
      Some (default [] (init_csv_file CSV_FILE CSV_COLUMNS fs !! CSV_FILE)
            ++ (CsvLine <$> rows)) ∧
    NoDup (row_id <$> rows) ∧
    (∀ r, r ∈ rows → row_id r ∉ ids_downloaded p0) ∧
    (∀ doc_id, doc_id ∈ st_ids_downloaded s ↔
               doc_id ∈ ids_downloaded p0 ∨ doc_id ∈ row_id <$> rows).
Proof.
  intros Hload Hreach.
  destruct (sk_rows site fs p0 s (reachable_sink_ok site fs p0 s Hload Hreach))
    as (rows & Hcsv & Hnd & Hids & Hnew & _).
  by exists rows.
Qed.

Lemma X3_one_row_per_new_id_witness :
  ∃ rows,
    st_fs mixed_marked !! CSV_FILE =
      Some (default [] (init_csv_file CSV_FILE CSV_COLUMNS resumed_fs !! CSV_FILE)
            ++ (CsvLine <$> rows)) ∧
    NoDup (row_id <$> rows) ∧
    (∀ r, r ∈ rows → row_id r ∉ ids_downloaded resumed_progress) ∧
    (∀ doc_id, doc_id ∈ st_ids_downloaded mixed_marked ↔
               doc_id ∈ ids_downloaded resumed_progress ∨ doc_id ∈ row_id <$> rows).
Proof.
  apply (X3_one_row_per_new_id mixed_site resumed_fs resumed_progress mixed_marked).
  - by vm_compute.
  - apply (run_schedule_reachable _ _ (mixed_schedule ++ [Main])). by vm_compute.
Defined.

(** X4: every row a run has appended is built from a page of the run: its
    id is a non-empty id of that page, its [doc_text] is the text
    [download_document] returned for that id while the page was processed,
    and its other cells are read from the entry of [metadata_by_id] for
    that id, a missing field giving the empty string. *)
Theorem X4_row_content (site : remote) (fs : filesystem) (p0 : progress) (s : state)
    (f : file) (r : csv_row) :
  load_progress fs PROGRESS_FILE = Some p0 →
  reachable site fs s →
  st_fs s !! CSV_FILE =
    Some (default [] (init_csv_file CSV_FILE CSV_COLUMNS fs !! CSV_FILE) ++ f) →
  CsvLine r ∈ f →
  row_id r ≠ "" ∧
  ∃ n data metadata,
    post_aramadetaylist site n PAGE_SIZE = PageJson data ∧
    dict_get (metadata_by_id (records_of data)) (row_id r) = Some metadata ∧
    download_document site n (row_id r) = DocText (row_doc_text r) ∧
    r = CsvRow (row_id r)
          (get metadata "daire" (PStr "")) (get metadata "esasNo" (PStr ""))
          (get metadata "kararNo" (PStr "")) (get metadata "kararTarihi" (PStr ""))
          (get metadata "arananKelime" (PStr "")) (get metadata "durum" (PStr ""))
          (get metadata "index" (PStr "")) (row_doc_text r).
Proof.
  intros Hload Hreach Hcsv Hr.
  destruct (sk_rows site fs p0 s (reachable_sink_ok site fs p0 s Hload Hreach))
    as (rows & Hcsv' & _ & _ & _ & Hrows).
  rewrite Hcsv in Hcsv'. injection Hcsv' as Hf. apply app_inv_head in Hf. subst f.
  apply list_elem_of_fmap in Hr as (r' & [= <-] & Hr).
  destruct (Hrows r Hr) as (n & data & metadata & Hpage & Hget & Hdoc & Hrow).
  split.
  - destruct (metadata_by_id_keys (records_of data)) as [_ Hkeys].
    apply (Hkeys (row_id r)). apply dict_get_is_Some. by eexists.
  - by exists n, data, metadata.
Qed.

Lemma X4_row_content_witness :
  row_id (make_row record_b "b" "text of b") ≠ "" ∧
  ∃ n data metadata,
    post_aramadetaylist mixed_site n PAGE_SIZE = PageJson data ∧
    dict_get (metadata_by_id (records_of data))
             (row_id (make_row record_b "b" "text of b")) = Some metadata ∧
    download_document mixed_site n (row_id (make_row record_b "b" "text of b"))
      = DocText (row_doc_text (make_row record_b "b" "text of b")) ∧
    make_row record_b "b" "text of b" =
      CsvRow (row_id (make_row record_b "b" "text of b"))
          (get metadata "daire" (PStr "")) (get metadata "esasNo" (PStr ""))
          (get metadata "kararNo" (PStr "")) (get metadata "kararTarihi" (PStr ""))
          (get metadata "arananKelime" (PStr "")) (get metadata "durum" (PStr ""))
          (get metadata "index" (PStr ""))
          (row_doc_text (make_row record_b "b" "text of b")).
Proof.
  apply (X4_row_content mixed_site resumed_fs resumed_progress mixed_marked
           [CsvLine (make_row record_b "b" "text of b")]).
  - by vm_compute.
  - apply (run_schedule_reachable _ _ (mixed_schedule ++ [Main])). by vm_compute.
  - by vm_compute.
  - apply list_elem_of_here.
Defined.

(** X5: the result file is append-only.  It exists throughout the run;
    a step leaves it as it is or, when a finished download is collected,
    adds exactly one data line at its end; what the file held before the
    run is still its beginning, and a file created by the run begins with
    the header. *)
Theorem X5_result_file_append_only (site : remote) (fs : filesystem) (s s' : state)
    (l : label) :
  reachable site fs s →
  step site l s = Some s' →
  ∃ f,
    st_fs s !! CSV_FILE = Some f ∧
    (st_fs s' !! CSV_FILE = Some f ∨
     ∃ i r, l = Yield i ∧ st_fs s' !! CSV_FILE = Some (f ++ [CsvLine r])) ∧
    match fs !! CSV_FILE with
    | Some f0 => f0 `prefix_of` f
    | None => ∃ lines, f = CsvHeader CSV_COLUMNS :: lines
    end.
Proof.
  intros Hreach Hstep. destruct (reachable_load site fs s Hreach) as [p0 Hload].
  destruct (sk_rows site fs p0 s (reachable_sink_ok site fs p0 s Hload Hreach))
    as (rows & Hcsv & _).
  eexists. split; [done|]. split.
  - destruct (step_csv_file site l s s' Hstep)
      as [Heq|(i & n & doc_id & metadata & doc_text & -> & _ & _ & _ & Heq)].
    + left. by rewrite Heq.
    + right. exists i, (make_row metadata doc_id doc_text). split; [done|].
      by rewrite Heq, Hcsv.
  - rewrite init_csv_file_lookup. destruct (fs !! CSV_FILE) as [f0|]; simpl.
    + by eexists.
    + by eexists.
Qed.

Lemma X5_result_file_append_only_witness :
  ∃ f,
    st_fs mixed_collected !! CSV_FILE = Some f ∧
    (st_fs mixed_marked !! CSV_FILE = Some f ∨
     ∃ i r, Main = Yield i ∧ st_fs mixed_marked !! CSV_FILE = Some (f ++ [CsvLine r])) ∧
    match resumed_fs !! CSV_FILE with
    | Some f0 => f0 `prefix_of` f
    | None => ∃ lines, f = CsvHeader CSV_COLUMNS :: lines
    end.
Proof.
  apply (X5_result_file_append_only mixed_site resumed_fs mixed_collected mixed_marked
           Main).
  - apply (run_schedule_reachable _ _ mixed_schedule). by vm_compute.
  - by vm_compute.
Defined.

(** X6: a run writes to the result file and to the progress file only:
    every other path of the file system holds what it held when the run
    started. *)
Theorem X6_only_two_files_written (site : remote) (fs : filesystem) (s : state)
    (path : string) :
  reachable site fs s →
  path ≠ CSV_FILE →
  path ≠ PROGRESS_FILE →
  st_fs s !! path = fs !! path.
Proof.
  intros Hreach Hcsv Hprog. destruct (reachable_load site fs s Hreach) as [p0 Hload].
  by apply (sk_other site fs p0 s (reachable_sink_ok site fs p0 s Hload Hreach)).
Qed.

Lemma X6_only_two_files_written_witness :
  st_fs mixed_marked !! "scraper.log" = resumed_fs !! "scraper.log".
Proof.
  apply (X6_only_two_files_written mixed_site resumed_fs mixed_marked "scraper.log").
  - apply (run_schedule_reachable _ _ (mixed_schedule ++ [Main])). by vm_compute.
  - done.
  - done.
Defined.

(** X7: progress is never lost during a run.  Across every step the sets
    [pages_done] and [ids_downloaded] in memory only grow; the progress
    file can be loaded before and after the step, what it holds only
    grows too, and it never holds a page or an id that is not in memory. *)
Theorem X7_progress_only_grows (site : remote) (fs : filesystem) (s s' : state)
    (l : label) :
  reachable site fs s →
  step site l s = Some s' →
  st_pages_done s ⊆ st_pages_done s' ∧
  st_ids_downloaded s ⊆ st_ids_downloaded s' ∧
  ∃ p p', load_progress (st_fs s) PROGRESS_FILE = Some p ∧
          load_progress (st_fs s') PROGRESS_FILE = Some p' ∧
          pages_done p ⊆ pages_done p' ∧ ids_downloaded p ⊆ ids_downloaded p' ∧
          pages_done p' ⊆ st_pages_done s' ∧
          ids_downloaded p' ⊆ st_ids_downloaded s'.
Proof.
  intros Hreach Hstep. destruct (reachable_load site fs s Hreach) as [p0 Hload].
  apply (step_progress_grows site fs p0 l s s'); [| | |done].
  - by eapply reachable_coherent.
  - by eapply reachable_settle_ok.
  - by eapply reachable_disk_ok.
Qed.

Lemma X7_progress_only_grows_witness :
  st_pages_done mixed_collected ⊆ st_pages_done mixed_marked ∧
  st_ids_downloaded mixed_collected ⊆ st_ids_downloaded mixed_marked ∧
  ∃ p p', load_progress (st_fs mixed_collected) PROGRESS_FILE = Some p ∧
          load_progress (st_fs mixed_marked) PROGRESS_FILE = Some p' ∧
          pages_done p ⊆ pages_done p' ∧ ids_downloaded p ⊆ ids_downloaded p' ∧
          pages_done p' ⊆ st_pages_done mixed_marked ∧
          ids_downloaded p' ⊆ st_ids_downloaded mixed_marked.
Proof.
  apply (X7_progress_only_grows mixed_site resumed_fs mixed_collected mixed_marked Main).
  - apply (run_schedule_reachable _ _ mixed_schedule). by vm_compute.
  - by vm_compute.
Defined.

(** X8: the dict [metadata_by_id] of a page.  Its keys are the non-empty
    ids of the records in the order of their first occurrence, each once;
    the entry of an id is the last record of the page that carries it (a
    later record with the same id replaces the earlier one), and an id no
    record carries has no entry. *)
Theorem X8_metadata_by_id_last_record_wins (records : list record) (doc_id : string) :
  doc_id ≠ "" →
  dict_keys (metadata_by_id records) = first_occurrences (doc_id_of <$> records) [] ∧
  NoDup (dict_keys (metadata_by_id records)) ∧
  dict_get (metadata_by_id records) doc_id = last (records_with_id doc_id records) ∧
  (dict_get (metadata_by_id records) doc_id = None ↔
   ∀ r, r ∈ records → doc_id_of r ≠ doc_id).
Proof.
  intros Hne. split_and!.
  - apply metadata_by_id_order.
  - by destruct (metadata_by_id_keys records).
  - by apply metadata_by_id_get.
  - rewrite metadata_by_id_get by done. rewrite last_None. unfold records_with_id.
    split.
    + intros Hnil r Hr Hid.
      assert (r ∈ filter (λ r, doc_id_of r = doc_id) records) as Hin
        by by apply list_elem_of_filter.
      rewrite Hnil in Hin. by apply elem_of_nil in Hin.
    + intros Hall.
      destruct (filter (λ r, doc_id_of r = doc_id) records) as [|r l] eqn:Hfil; [done|].
      assert (r ∈ filter (λ r, doc_id_of r = doc_id) records)
        as [Hid Hr]%list_elem_of_filter by (rewrite Hfil; left).
      by destruct (Hall r).
Qed.

Lemma X8_metadata_by_id_last_record_wins_witness :
  dict_keys (metadata_by_id twice_a) = first_occurrences (doc_id_of <$> twice_a) [] ∧
  NoDup (dict_keys (metadata_by_id twice_a)) ∧
  dict_get (metadata_by_id twice_a) "a" = last (records_with_id "a" twice_a) ∧
  (dict_get (metadata_by_id twice_a) "a" = None ↔
   ∀ r, r ∈ twice_a → doc_id_of r ≠ "a").
Proof. apply (X8_metadata_by_id_last_record_wins twice_a "a"). done. Defined.



(** X10: a progress file that exists and does not hold one JSON document
    stops [main] at [load_progress]: under no schedule is there a run, so
    nothing is fetched and the result file is not created.  This is the
    state an interrupted [save_progress] leaves. *)
Theorem X10_unreadable_progress_stops_main (site : remote) (fs : filesystem)
    (f : file) (ls : list label) :
  fs !! PROGRESS_FILE = Some f →
  json_load f = None →
  run_schedule site fs ls = None ∧ ∀ s, ¬ reachable site fs s.
Proof.
  intros Hf Hj. split.
  - unfold run_schedule, start, load_progress. by rewrite Hf, Hj.
  - intros s. by eapply unreadable_progress_no_run.
Qed.

Lemma X10_unreadable_progress_stops_main_witness :
  run_schedule mixed_site (save_progress_crash 1 next_progress PROGRESS_FILE resumed_fs)
               [Main; Main] = None ∧
  ∀ s, ¬ reachable mixed_site
           (save_progress_crash 1 next_progress PROGRESS_FILE resumed_fs) s.
Proof.
  apply (X10_unreadable_progress_stops_main mixed_site
           (save_progress_crash 1 next_progress PROGRESS_FILE resumed_fs) []
           [Main; Main]).
  - by vm_compute.
  - done.
Defined.

(** X11: resuming.  A run is started on the files an earlier run left
    behind when it was stopped, between two of its steps or inside a
    [save_progress].  If the later run starts at all, the progress file
    loads (it does not when the earlier run was stopped between the
    truncation and the write) and holds only pages and ids the earlier
    run had recorded; no page and no document id it holds is requested
    again, whatever the site now answers; a page whose request raised in
    the earlier run is requested again once the loop has passed it; and
    a page is skipped only if it was done before the earlier run or got
    a reply in it. *)
Theorem X11_resumed_run (site site' : remote) (fs fs1 : filesystem) (p0 : progress)
    (s1 s2 : state) :
  load_progress fs PROGRESS_FILE = Some p0 →
  left_behind site fs s1 fs1 →
  reachable site' fs1 s2 →
  ∃ p1,
    load_progress fs1 PROGRESS_FILE = Some p1 ∧
    pages_done p1 ⊆ st_pages_done s1 ∧
    ids_downloaded p1 ⊆ st_ids_downloaded s1 ∧
    (∀ m, m ∈ pages_done p1 → EvPageFetch m ∉ st_trace s2) ∧
    (∀ m doc_id, doc_id ∈ ids_downloaded p1 → EvFetchBegin m doc_id ∉ st_trace s2) ∧
    (∀ m, EvPageError m ∈ st_trace s1 → passed (st_pc s2) m →
          EvPageFetch m ∈ st_trace s2) ∧
    (∀ m, EvSkip m ∈ st_trace s2 →
          m ∈ pages_done p0 ∨
          (EvPageFetch m ∈ st_trace s1 ∧
           ∃ data, post_aramadetaylist site m PAGE_SIZE = PageJson data)).
Proof.
  intros Hload Hleft Hr2.
  destruct (reachable_load site' fs1 s2 Hr2) as [p1 Hload1].
  destruct (left_behind_progress site fs p0 s1 fs1 p1 Hload Hleft Hload1)
    as (Hr1 & Hpages & Hids).
  exists p1. split_and!; [done..| | | |];
    by apply (resumed_from site site' fs p0 s1 fs1 p1 s2).
Qed.

Lemma X11_resumed_run_witness :
  ∃ p1,
    load_progress (st_fs failed_first_run) PROGRESS_FILE = Some p1 ∧
    pages_done p1 ⊆ st_pages_done failed_first_run ∧
    ids_downloaded p1 ⊆ st_ids_downloaded failed_first_run ∧
    (∀ m, m ∈ pages_done p1 → EvPageFetch m ∉ st_trace second_run) ∧
    (∀ m doc_id, doc_id ∈ ids_downloaded p1 → EvFetchBegin m doc_id ∉ st_trace second_run) ∧
    (∀ m, EvPageError m ∈ st_trace failed_first_run → passed (st_pc second_run) m →
          EvPageFetch m ∈ st_trace second_run) ∧
    (∀ m, EvSkip m ∈ st_trace second_run →
          m ∈ pages_done (Progress ∅ ∅) ∨
          (EvPageFetch m ∈ st_trace failed_first_run ∧
           ∃ data, post_aramadetaylist down_site m PAGE_SIZE = PageJson data)).
Proof.
  apply (X11_resumed_run down_site mixed_site ∅ (st_fs failed_first_run) (Progress ∅ ∅)
           failed_first_run second_run).
  - by vm_compute.
  - apply left_between. apply (run_schedule_reachable _ _ [Main]). by vm_compute.
  - apply (run_schedule_reachable _ _ [Main]). by vm_compute.
Defined.

(** * Further properties of the company-list scraper *)

Import ZaubaCorpBatch ZaubaCorpBatchFacts.

(** X12: a batch asks for exactly the [2 * max_workers] pages from
    [current_page] on.  The ranges handed to the workers follow one
    another without a gap or an overlap, and every page of the batch is
    requested at least once and at most three times, no other page at
    all. *)
Theorem X12_batch_requests_its_pages (zyte : ZaubaCorp.service) (s : ZaubaCorp.scraper) :
  0 < ZaubaCorp.max_workers s →
  batch_pages s = seqZ (ZaubaCorp.current_page s) (2 * ZaubaCorp.max_workers s) ∧
  ZaubaCorp.requests (ZaubaCorp.run_batch zyte s).2
    = flat_map (λ page, replicate (attempts_made zyte page) page)
               (seqZ (ZaubaCorp.current_page s) (2 * ZaubaCorp.max_workers s)) ∧
  ∀ page, (1 ≤ attempts_made zyte page ≤ 3)%nat.
Proof.
  intros HK. split_and!.
  - by apply batch_pages_seq.
  - by apply run_batch_requests.
  - intros page. by destruct (scrape_page_events zyte page) as (_ & _ & ?).
Qed.

Lemma X12_batch_requests_its_pages_witness :
  batch_pages fresh_scraper
    = seqZ (ZaubaCorp.current_page fresh_scraper) (2 * ZaubaCorp.max_workers fresh_scraper) ∧
  ZaubaCorp.requests (ZaubaCorp.run_batch hole_service fresh_scraper).2
    = flat_map (λ page, replicate (attempts_made hole_service page) page)
               (seqZ (ZaubaCorp.current_page fresh_scraper)
                     (2 * ZaubaCorp.max_workers fresh_scraper)) ∧
  ∀ page, (1 ≤ attempts_made hole_service page ≤ 3)%nat.
Proof. apply (X12_batch_requests_its_pages hole_service fresh_scraper). done. Defined.

(** X13: [scrape_page] stops at the first reply that is not a failure.
    When the attempts before attempt [k] fail and attempt [k] gets a 200
    reply that can be read, the page is requested [k + 1] times, the
    pauses are [2 ^ j] seconds after each failed attempt [j], and the
    result is the list of the table, or [None] when the page has no table
    (a missing table is not retried). *)
Theorem X13_retry_stops_at_first_reply (zyte : ZaubaCorp.service) (page : Z) (k : nat)
    (body : ZaubaCorp.html) :
  (k < 3)%nat →
  (∀ j, (j < k)%nat → ZaubaCorp.failing (zyte page j)) →
  zyte page k = ZaubaCorp.Response 200 body →
  body ≠ ZaubaCorp.HtmlRaises →
  (ZaubaCorp.scrape_page zyte page).1
    = match body with ZaubaCorp.HtmlTable companies => Some companies | _ => None end ∧
  ZaubaCorp.requests (ZaubaCorp.scrape_page zyte page).2 = replicate (S k) page ∧
  ZaubaCorp.sleeps (ZaubaCorp.scrape_page zyte page).2
    = (λ j, 2 ^ Z.of_nat j) <$> seq 0 k.
Proof.
  intros Hk Hfail Hok Hbody. unfold ZaubaCorp.scrape_page.
  destruct k as [|[|[|k]]]; [| | |lia].
  - simpl. rewrite Hok. simpl. by destruct body.
  - pose proof (Hfail 0%nat ltac:(lia)) as H0. simpl.
    rewrite Hok. simpl.
    destruct (zyte page 0%nat) as [|c0 b0]; simpl in *.
    + by destruct body.
    + destruct (decide (c0 ≠ 200)); simpl; [by destruct body|].
      destruct H0 as [?| ->]; [done|]. by destruct body.
  - pose proof (Hfail 0%nat ltac:(lia)) as H0.
    pose proof (Hfail 1%nat ltac:(lia)) as H1. simpl.
    rewrite Hok. simpl.
    destruct (zyte page 0%nat) as [|c0 b0], (zyte page 1%nat) as [|c1 b1]; simpl in *.
    + by destruct body.
    + destruct (decide (c1 ≠ 200)); simpl; [by destruct body|].
      destruct H1 as [?| ->]; [done|]. by destruct body.
    + destruct (decide (c0 ≠ 200)); simpl; [by destruct body|].
      destruct H0 as [?| ->]; [done|]. by destruct body.
    + destruct (decide (c0 ≠ 200)), (decide (c1 ≠ 200)); simpl.
      * by destruct body.
      * destruct H1 as [?| ->]; [done|]. by destruct body.
      * destruct H0 as [?| ->]; [done|]. by destruct body.
      * destruct H0 as [?| ->]; [done|]. destruct H1 as [?| ->]; [done|].
        by destruct body.
Qed.

Lemma X13_retry_stops_at_first_reply_witness :
  (ZaubaCorp.scrape_page flaky_service 4).1
    = match ZaubaCorp.HtmlTable [("U01", "Acme")] with
      | ZaubaCorp.HtmlTable companies => Some companies
      | _ => None
      end ∧
  ZaubaCorp.requests (ZaubaCorp.scrape_page flaky_service 4).2 = replicate 2 4 ∧
  ZaubaCorp.sleeps (ZaubaCorp.scrape_page flaky_service 4).2
    = (λ j, 2 ^ Z.of_nat j) <$> seq 0 1.
Proof.
  apply (X13_retry_stops_at_first_reply flaky_service 4 1
           (ZaubaCorp.HtmlTable [("U01", "Acme")])).
  - lia.
  - intros j Hj. replace j with 0%nat by lia. done.
  - done.
  - done.
Defined.

(** X14: every result a batch puts on the queue is saved and counted.
    After any number of batches the companies file is what it was at the
    start (a fresh header line if it did not exist and something was
    found; still absent if nothing was found) followed by one row per
    company put on the queue, in queue order, and [companies_found] is
    the count the process started from plus the number of these rows.
    [count_existing_companies] counts lines, not rows: when the file did
    not end in the middle of a line at the start, the count a later
    process reads off the file is [companies_found] plus the number of
    line breaks inside the rows saved, and the two agree when no CIN and
    no name saved holds a line break. *)
Theorem X14_every_result_is_saved (zyte : ZaubaCorp.service) (fuel : nat)
    (s : ZaubaCorp.scraper) :
  0 < ZaubaCorp.max_workers s →
  ZaubaCorp.disk (ZaubaCorp.run zyte fuel s).1 !! ZaubaCorp.companies_file =
    match ZaubaCorp.puts (ZaubaCorp.run zyte fuel s).2 with
    | [] => ZaubaCorp.disk s !! ZaubaCorp.companies_file
    | _ :: _ =>
        Some (default [companies_header] (ZaubaCorp.disk s !! ZaubaCorp.companies_file)
              ++ rows_of_puts (ZaubaCorp.puts (ZaubaCorp.run zyte fuel s).2))
    end ∧
  ZaubaCorp.companies_found (ZaubaCorp.run zyte fuel s).1
    = ZaubaCorp.count_existing_companies (ZaubaCorp.disk s)
      + Z.of_nat (length (rows_of_puts (ZaubaCorp.puts (ZaubaCorp.run zyte fuel s).2))) ∧
  (whole_lines (ZaubaCorp.disk s) →
   ZaubaCorp.count_existing_companies (ZaubaCorp.disk (ZaubaCorp.run zyte fuel s).1)
     = ZaubaCorp.companies_found (ZaubaCorp.run zyte fuel s).1
       + (Z.of_nat (sum_list_with ZaubaCorp.line_ends
                      (rows_of_puts (ZaubaCorp.puts (ZaubaCorp.run zyte fuel s).2)))
          - Z.of_nat (length (rows_of_puts (ZaubaCorp.puts (ZaubaCorp.run zyte fuel s).2)))) ∧
   ((∀ pc c, pc ∈ ZaubaCorp.puts (ZaubaCorp.run zyte fuel s).2 → c ∈ pc.2 →
       ZaubaCorp.line_breaks c.1 = 0%nat ∧ ZaubaCorp.line_breaks c.2 = 0%nat) →
    ZaubaCorp.count_existing_companies (ZaubaCorp.disk (ZaubaCorp.run zyte fuel s).1)
      = ZaubaCorp.companies_found (ZaubaCorp.run zyte fuel s).1)).
Proof.
  intros HK. unfold ZaubaCorp.run.
  destruct (run_loop_saved zyte fuel
              (ZaubaCorp.Scraper (ZaubaCorp.max_workers s) (ZaubaCorp.current_page s)
                 (ZaubaCorp.count_existing_companies (ZaubaCorp.disk s))
                 (ZaubaCorp.disk s)) HK) as (_ & _ & _ & Hfound & Hdisk).
  simpl in Hfound, Hdisk.
  destruct (ZaubaCorp.run_loop zyte fuel _) as [s' evs]. simpl in *.
  split_and!; [done..|]. intros Hwhole.
  assert (ZaubaCorp.count_existing_companies (ZaubaCorp.disk s')
          = ZaubaCorp.companies_found s'
            + (Z.of_nat (sum_list_with ZaubaCorp.line_ends
                           (rows_of_puts (ZaubaCorp.puts evs)))
               - Z.of_nat (length (rows_of_puts (ZaubaCorp.puts evs))))) as Hcount.
  { rewrite Hfound. unfold ZaubaCorp.count_existing_companies at 1. rewrite Hdisk.
    unfold whole_lines in Hwhole.
    destruct (ZaubaCorp.puts evs) as [|pc results].
    - unfold ZaubaCorp.count_existing_companies.
      destruct (ZaubaCorp.disk s !! ZaubaCorp.companies_file); simpl; lia.
    - unfold ZaubaCorp.count_existing_companies.
      destruct (ZaubaCorp.disk s !! ZaubaCorp.companies_file) as [f|] eqn:Hf;
        simpl default.
      + rewrite !file_lines_whole, sum_list_with_app;
          [lia|by eauto|intros z; apply last_rows_of_puts; by eauto].
      + rewrite file_lines_whole, sum_list_with_app
          by (intros z; by apply last_rows_of_puts).
        vm_compute (sum_list_with _ [companies_header]). lia. }
  split; [done|].
  intros Hno. rewrite Hcount, (line_ends_rows _ Hno). lia.
Qed.

Lemma X14_every_result_is_saved_witness :
  ZaubaCorp.disk (ZaubaCorp.run hole_service 1 fresh_scraper).1 !! ZaubaCorp.companies_file =
    match ZaubaCorp.puts (ZaubaCorp.run hole_service 1 fresh_scraper).2 with
    | [] => ZaubaCorp.disk fresh_scraper !! ZaubaCorp.companies_file
    | _ :: _ =>
        Some (default [companies_header]
                (ZaubaCorp.disk fresh_scraper !! ZaubaCorp.companies_file)
              ++ rows_of_puts (ZaubaCorp.puts (ZaubaCorp.run hole_service 1 fresh_scraper).2))
    end ∧
  ZaubaCorp.companies_found (ZaubaCorp.run hole_service 1 fresh_scraper).1
    = ZaubaCorp.count_existing_companies (ZaubaCorp.disk fresh_scraper)
      + Z.of_nat (length (rows_of_puts
                            (ZaubaCorp.puts (ZaubaCorp.run hole_service 1 fresh_scraper).2))) ∧
  (whole_lines (ZaubaCorp.disk fresh_scraper) →
   ZaubaCorp.count_existing_companies
       (ZaubaCorp.disk (ZaubaCorp.run hole_service 1 fresh_scraper).1)
     = ZaubaCorp.companies_found (ZaubaCorp.run hole_service 1 fresh_scraper).1
       + (Z.of_nat (sum_list_with ZaubaCorp.line_ends
                      (rows_of_puts
                         (ZaubaCorp.puts (ZaubaCorp.run hole_service 1 fresh_scraper).2)))
          - Z.of_nat (length (rows_of_puts
                                (ZaubaCorp.puts (ZaubaCorp.run hole_service 1 fresh_scraper).2)))) ∧
   ((∀ pc c, pc ∈ ZaubaCorp.puts (ZaubaCorp.run hole_service 1 fresh_scraper).2 → c ∈ pc.2 →
       ZaubaCorp.line_breaks c.1 = 0%nat ∧ ZaubaCorp.line_breaks c.2 = 0%nat) →
    ZaubaCorp.count_existing_companies
        (ZaubaCorp.disk (ZaubaCorp.run hole_service 1 fresh_scraper).1)
      = ZaubaCorp.companies_found (ZaubaCorp.run hole_service 1 fresh_scraper).1)).
Proof. apply (X14_every_result_is_saved hole_service 1 fresh_scraper). done. Defined.

(** Six companies whose names span two lines: the process has counted
    six, the next one reads twelve off the file. *)
Example line_break_in_name_counts_twice :
  ZaubaCorp.companies_found (ZaubaCorp.run two_line_service 1 fresh_scraper).1 = 6 ∧
  ZaubaCorp.count_existing_companies
    (ZaubaCorp.disk (ZaubaCorp.run two_line_service 1 fresh_scraper).1) = 12.
Proof. by vm_compute. Qed.

(** X15: within one process no page is stored twice.  The pages whose
    companies were put on the queue are pairwise distinct, lie between
    the [current_page] the process started from and the one it has
    reached, and a process that goes on from there (the same one, or one
    restarted from the progress file it wrote) requests none of them
    again. *)
Theorem X15_no_page_stored_twice (zyte zyte' : ZaubaCorp.service) (fuel fuel' : nat)
    (s : ZaubaCorp.scraper) :
  0 < ZaubaCorp.max_workers s →
  NoDup (ZaubaCorp.puts (ZaubaCorp.run zyte fuel s).2).*1 ∧
  ∀ p, p ∈ (ZaubaCorp.puts (ZaubaCorp.run zyte fuel s).2).*1 →
       ZaubaCorp.current_page s ≤ p < ZaubaCorp.current_page (ZaubaCorp.run zyte fuel s).1 ∧
       p ∉ ZaubaCorp.requests (ZaubaCorp.run zyte' fuel' (ZaubaCorp.run zyte fuel s).1).2.
Proof.
  intros HK. unfold ZaubaCorp.run at 1 2 3.
  destruct (run_loop_put_pages zyte fuel
              (ZaubaCorp.Scraper (ZaubaCorp.max_workers s) (ZaubaCorp.current_page s)
                 (ZaubaCorp.count_existing_companies (ZaubaCorp.disk s))
                 (ZaubaCorp.disk s)) HK) as [Hnd Hput].
  destruct (run_loop_saved zyte fuel
              (ZaubaCorp.Scraper (ZaubaCorp.max_workers s) (ZaubaCorp.current_page s)
                 (ZaubaCorp.count_existing_companies (ZaubaCorp.disk s))
                 (ZaubaCorp.disk s)) HK) as (Hmw & _).
  simpl in *. split; [done|]. intros p Hp. specialize (Hput p Hp). split; [done|].
  intros Hreq. apply ZaubaCorpFacts.run_requests in Hreq.
  - unfold ZaubaCorp.run in Hreq. lia.
  - unfold ZaubaCorp.run. lia.
Qed.

Lemma X15_no_page_stored_twice_witness :
  NoDup (ZaubaCorp.puts (ZaubaCorp.run hole_service 2 fresh_scraper).2).*1 ∧
  ∀ p, p ∈ (ZaubaCorp.puts (ZaubaCorp.run hole_service 2 fresh_scraper).2).*1 →
       ZaubaCorp.current_page fresh_scraper ≤ p
         < ZaubaCorp.current_page (ZaubaCorp.run hole_service 2 fresh_scraper).1 ∧
       p ∉ ZaubaCorp.requests
             (ZaubaCorp.run dead_service 1 (ZaubaCorp.run hole_service 2 fresh_scraper).1).2.
Proof.
  apply (X15_no_page_stored_twice hole_service dead_service 2 1 fresh_scraper). done.
Defined.

(** X16: an outage is never detected.  While every request fails, each
    iteration of the loop of [run] asks three times for each of its
    [2 * max_workers] pages, stores nothing and moves [current_page]
    past them; the loop goes on like this for as many iterations as it
    is given, since [companies_found] does not change. *)
Theorem X16_outage_never_stops_the_loop (zyte : ZaubaCorp.service) (fuel : nat)
    (s : ZaubaCorp.scraper) :
  (∀ page attempt, ZaubaCorp.failing (zyte page attempt)) →
  0 < ZaubaCorp.max_workers s →
  ZaubaCorp.count_existing_companies (ZaubaCorp.disk s) < ZaubaCorp.total_companies_target →
  ZaubaCorp.current_page (ZaubaCorp.run zyte fuel s).1
    = ZaubaCorp.current_page s + Z.of_nat fuel * (2 * ZaubaCorp.max_workers s) ∧
  ZaubaCorp.puts (ZaubaCorp.run zyte fuel s).2 = [] ∧
  Z.of_nat (length (ZaubaCorp.requests (ZaubaCorp.run zyte fuel s).2))
    = Z.of_nat fuel * (3 * (2 * ZaubaCorp.max_workers s)) ∧
  ZaubaCorp.companies_found (ZaubaCorp.run zyte fuel s).1
    = ZaubaCorp.count_existing_companies (ZaubaCorp.disk s).
Proof.
  intros Hfail HK Hfound. unfold ZaubaCorp.run.
  destruct (run_loop_dead zyte fuel
              (ZaubaCorp.Scraper (ZaubaCorp.max_workers s) (ZaubaCorp.current_page s)
                 (ZaubaCorp.count_existing_companies (ZaubaCorp.disk s))
                 (ZaubaCorp.disk s)) Hfail HK Hfound) as (Hp & _ & Hf & Hpu & Hr).
  by simpl in *.
Qed.

Lemma X16_outage_never_stops_the_loop_witness :
  ZaubaCorp.current_page (ZaubaCorp.run dead_service 4 fresh_scraper).1
    = ZaubaCorp.current_page fresh_scraper
      + Z.of_nat 4 * (2 * ZaubaCorp.max_workers fresh_scraper) ∧
  ZaubaCorp.puts (ZaubaCorp.run dead_service 4 fresh_scraper).2 = [] ∧
  Z.of_nat (length (ZaubaCorp.requests (ZaubaCorp.run dead_service 4 fresh_scraper).2))
    = Z.of_nat 4 * (3 * (2 * ZaubaCorp.max_workers fresh_scraper)) ∧
  ZaubaCorp.companies_found (ZaubaCorp.run dead_service 4 fresh_scraper).1
    = ZaubaCorp.count_existing_companies (ZaubaCorp.disk fresh_scraper).
Proof.
  apply (X16_outage_never_stops_the_loop dead_service 4 fresh_scraper).
  - intros page attempt. left. done.
  - done.
  - done.
Defined.

(** X17: a page whose table has no data row with at least two cells (a
    header alone, for instance) gives an empty list: the page is
    requested once and not retried, nothing is put on the queue for it,
    and the batch loop does not count it as completed. *)
Theorem X17_page_without_data_rows (strip : string → string) (zyte : ZaubaCorp.service)
    (page : Z) (rows : list (list td)) (rest : list Z) :
  zyte page 0%nat = ZaubaCorp.Response 200 (ZaubaCorp.HtmlTable (table_companies strip rows)) →
  Forall (λ cols, (length cols < 2)%nat) (drop 1 rows) →
  table_companies strip rows = [] ∧
  ZaubaCorp.scrape_page zyte page = (Some [], [ZaubaCorp.Request page 0]) ∧
  page_result zyte page = None ∧
  ZaubaCorp.puts (ZaubaCorp.process_pages zyte (page :: rest))
    = ZaubaCorp.puts (ZaubaCorp.process_pages zyte rest).
Proof.
  intros Hreply Hshort.
  assert (table_companies strip rows = []) as Hnil.
  { unfold table_companies. induction Hshort as [|cols l Hcols _ IH]; [done|].
    simpl. destruct cols as [|c0 [|c1 cols]]; simpl in *; [done|done|lia]. }
  assert (ZaubaCorp.scrape_page zyte page = (Some [], [ZaubaCorp.Request page 0])) as Hs.
  { unfold ZaubaCorp.scrape_page. simpl. rewrite Hreply, Hnil. done. }
  split_and!; [done|done| |].
  - unfold page_result. by rewrite Hs.
  - rewrite !process_pages_puts_eq. simpl. unfold page_result at 1. by rewrite Hs.
Qed.

Lemma X17_page_without_data_rows_witness :
  table_companies id [[Td "CIN" None; Td "Company" None]; [Td "no records" None]] = [] ∧
  ZaubaCorp.scrape_page
    (λ _ _, ZaubaCorp.Response 200
              (ZaubaCorp.HtmlTable
                 (table_companies id
                    [[Td "CIN" None; Td "Company" None]; [Td "no records" None]]))) 9
    = (Some [], [ZaubaCorp.Request 9 0]) ∧
  page_result
    (λ _ _, ZaubaCorp.Response 200
              (ZaubaCorp.HtmlTable
                 (table_companies id
                    [[Td "CIN" None; Td "Company" None]; [Td "no records" None]]))) 9
    = None ∧
  ZaubaCorp.puts
    (ZaubaCorp.process_pages
       (λ _ _, ZaubaCorp.Response 200
                 (ZaubaCorp.HtmlTable
                    (table_companies id
                       [[Td "CIN" None; Td "Company" None]; [Td "no records" None]])))
       (9 :: [10]))
    = ZaubaCorp.puts
        (ZaubaCorp.process_pages
           (λ _ _, ZaubaCorp.Response 200
                     (ZaubaCorp.HtmlTable
                        (table_companies id
                           [[Td "CIN" None; Td "Company" None]; [Td "no records" None]])))
           [10]).
Proof.
  apply (X17_page_without_data_rows id
           (λ _ _, ZaubaCorp.Response 200
                     (ZaubaCorp.HtmlTable
                        (table_companies id
                           [[Td "CIN" None; Td "Company" None]; [Td "no records" None]])))
           9 [[Td "CIN" None; Td "Company" None]; [Td "no records" None]] [10]).
  - done.
  - repeat constructor.
Defined.

(** X20: an interrupt in the middle of a batch costs duplicates, not
    omissions.  When [KeyboardInterrupt] stops a batch after [k] of its
    results were saved, the progress file keeps the first page of the
    batch.  A process restarted with the same number of workers starts
    from that page again: against a service that answers as before it
    makes the same requests, gets the same results, and appends all of
    them, so the lines of the [k] results saved before the interrupt are
    in the companies file twice. *)
Theorem X20_interrupted_batch_is_redone (zyte : ZaubaCorp.service) (k : nat)
    (s : ZaubaCorp.scraper) :
  0 < ZaubaCorp.max_workers s →
  ZaubaCorp.count_existing_companies (ZaubaCorp.disk (interrupted_batch zyte k s))
    < ZaubaCorp.total_companies_target →
  ∃ s2,
    ZaubaCorp.init (ZaubaCorp.max_workers s) (ZaubaCorp.disk (interrupted_batch zyte k s))
      = Some s2 ∧
    ZaubaCorp.current_page s2 = ZaubaCorp.current_page s ∧
    ZaubaCorp.requests (ZaubaCorp.run zyte 1 s2).2
      = ZaubaCorp.requests (ZaubaCorp.run_batch zyte s).2 ∧
    ZaubaCorp.puts (ZaubaCorp.run zyte 1 s2).2
      = ZaubaCorp.puts (ZaubaCorp.run_batch zyte s).2 ∧
    ZaubaCorp.disk (ZaubaCorp.run zyte 1 s2).1 !! ZaubaCorp.companies_file =
      match ZaubaCorp.puts (ZaubaCorp.run_batch zyte s).2 with
      | [] => ZaubaCorp.disk s !! ZaubaCorp.companies_file
      | _ :: _ =>
          Some (default [companies_header] (ZaubaCorp.disk s !! ZaubaCorp.companies_file)
                ++ rows_of_puts (take k (ZaubaCorp.puts (ZaubaCorp.run_batch zyte s).2))
                ++ rows_of_puts (ZaubaCorp.puts (ZaubaCorp.run_batch zyte s).2))
      end.
Proof.
  intros HK Hfound.
  destruct (interrupted_batch_state zyte k s HK) as (Hmw & Hpage & Hdisk).
  pose proof (Hdisk ZaubaCorp.progress_file) as Hprog.
  rewrite decide_True in Hprog by done.
  pose proof (Hdisk ZaubaCorp.companies_file) as Hcomp.
  rewrite decide_False, decide_True in Hcomp by done.
  set (s1 := interrupted_batch zyte k s) in *.
  set (s2 := ZaubaCorp.Scraper (ZaubaCorp.max_workers s) (ZaubaCorp.current_page s)
               (ZaubaCorp.count_existing_companies (ZaubaCorp.disk s1))
               (ZaubaCorp.disk s1)).
  exists (ZaubaCorp.Scraper (ZaubaCorp.max_workers s) (ZaubaCorp.current_page s) 0
            (ZaubaCorp.disk s1)).
  assert (ZaubaCorp.run zyte 1
            (ZaubaCorp.Scraper (ZaubaCorp.max_workers s) (ZaubaCorp.current_page s) 0
               (ZaubaCorp.disk s1))
          = ((ZaubaCorp.run_batch zyte s2).1, (ZaubaCorp.run_batch zyte s2).2 ++ []))
    as Hrun.
  { unfold ZaubaCorp.run. cbn [ZaubaCorp.run_loop ZaubaCorp.max_workers
      ZaubaCorp.current_page ZaubaCorp.disk ZaubaCorp.companies_found].
    fold s2. rewrite decide_True by done. by destruct (ZaubaCorp.run_batch zyte s2). }
  rewrite Hrun. cbn [fst snd]. rewrite app_nil_r.
  assert (0 < ZaubaCorp.max_workers s2) as HK2 by done.
  destruct (run_batch_state zyte s2 HK2) as (_ & _ & _ & Hdisk2).
  specialize (Hdisk2 ZaubaCorp.companies_file).
  rewrite decide_False, decide_True in Hdisk2 by done.
  rewrite (run_batch_puts zyte s2 HK2) in *.
  rewrite (run_batch_requests zyte s2 HK2).
  rewrite (run_batch_puts zyte s HK) in *.
  rewrite (run_batch_requests zyte s HK).
  split_and!; [|done|done|done|].
  - unfold ZaubaCorp.init, ZaubaCorp.load_progress. by rewrite Hprog.
  - rewrite Hdisk2. cbn [ZaubaCorp.disk s2]. rewrite Hcomp.
    destruct (omap (page_result zyte) _) as [|pc results]; [by rewrite take_nil|].
    destruct (take k (pc :: results)) as [|pc' taken]; simpl; [done|].
    by rewrite <- !(assoc_L (++)).
Qed.

Lemma X20_interrupted_batch_is_redone_witness :
  ∃ s2,
    ZaubaCorp.init (ZaubaCorp.max_workers fresh_scraper)
                   (ZaubaCorp.disk (interrupted_batch hole_service 2 fresh_scraper))
      = Some s2 ∧
    ZaubaCorp.current_page s2 = ZaubaCorp.current_page fresh_scraper ∧
    ZaubaCorp.requests (ZaubaCorp.run hole_service 1 s2).2
      = ZaubaCorp.requests (ZaubaCorp.run_batch hole_service fresh_scraper).2 ∧
    ZaubaCorp.puts (ZaubaCorp.run hole_service 1 s2).2
      = ZaubaCorp.puts (ZaubaCorp.run_batch hole_service fresh_scraper).2 ∧
    ZaubaCorp.disk (ZaubaCorp.run hole_service 1 s2).1 !! ZaubaCorp.companies_file =
      match ZaubaCorp.puts (ZaubaCorp.run_batch hole_service fresh_scraper).2 with
      | [] => ZaubaCorp.disk fresh_scraper !! ZaubaCorp.companies_file
      | _ :: _ =>
          Some (default [companies_header]
                  (ZaubaCorp.disk fresh_scraper !! ZaubaCorp.companies_file)
                ++ rows_of_puts
                     (take 2 (ZaubaCorp.puts (ZaubaCorp.run_batch hole_service fresh_scraper).2))
                ++ rows_of_puts (ZaubaCorp.puts (ZaubaCorp.run_batch hole_service fresh_scraper).2))
      end.
Proof.
  apply (X20_interrupted_batch_is_redone hole_service 2 fresh_scraper).
  - done.
  - by vm_compute.
Defined.

(** * Further properties of the fetchers of the downloader *)

Import ZyteSamples.

(** X18: a reply without a body is an empty document.  When the service
    answers a document request with a JSON object that has no
    "httpResponseBody" (and no "decodedBody" of its own), or whose
    "httpResponseBody" is null or empty, [download_document] does not
    raise: it returns the empty string.  [main] then appends a row with
    an empty [doc_text] and records the id as downloaded.  The same reply
    to a search request makes [post_aramadetaylist] raise, the empty
    string not being JSON. *)
Theorem X18_reply_without_body
    (zyte : list (string * string) → UYAPZyte.payload → UYAPZyte.zyte_reply)
    (b64encode : string → string) (b64decode : string → option string)
    (json_dumps : list (string * pyval) → string)
    (json_loads : string → option site_json)
    (doc_id : string) (data : record) :
  zyte (UYAPZyte.headers b64encode) (UYAPZyte.document_payload doc_id)
    = UYAPZyte.Json data →
  match data !! "httpResponseBody" with
  | None => data !! "decodedBody" = None
  | Some raw => UYAPZyte.truthy raw = false
  end →
  UYAPZyte.download_document zyte b64encode b64decode doc_id = DocText "" ∧
  (∀ page_number page_size,
     zyte (UYAPZyte.headers b64encode)
          (UYAPZyte.search_payload json_dumps page_number page_size)
       = UYAPZyte.Json data →
     json_loads "" = None →
     UYAPZyte.post_aramadetaylist zyte b64encode b64decode json_dumps json_loads
       page_number page_size = PageRaise) ∧
  (∀ s n i metadata futures yielded r,
     st_pc s = Collecting n metadata futures yielded →
     finished (st_pool s) !! i
       = Some (doc_id, UYAPZyte.download_document zyte b64encode b64decode doc_id) →
     dict_get metadata doc_id = Some r →
     ∃ s',
       step (UYAPZyte.site zyte b64encode b64decode json_dumps json_loads) (Yield i) s
         = Some s' ∧
       doc_id ∈ st_ids_downloaded s' ∧
       st_fs s' !! CSV_FILE
         = Some (default [] (st_fs s !! CSV_FILE) ++ [CsvLine (make_row r doc_id "")])).
Proof.
  intros Hreply Hbody.
  assert (UYAPZyte.download_document zyte b64encode b64decode doc_id = DocText "")
    as Hdoc.
  { destruct (UYAPZyteFacts.zyte_request_no_body zyte b64encode b64decode
                (UYAPZyte.document_payload doc_id) data eq_refl Hreply Hbody)
      as (data' & Hreq & Hget).
    unfold UYAPZyte.download_document. by rewrite Hreq, Hget. }
  split_and!; [done| |].
  - intros page_number page_size Hreply' Hjson.
    destruct (UYAPZyteFacts.zyte_request_no_body zyte b64encode b64decode
                (UYAPZyte.search_payload json_dumps page_number page_size) data
                eq_refl Hreply' Hbody) as (data' & Hreq & Hget).
    unfold UYAPZyte.post_aramadetaylist. by rewrite Hreq, Hget, Hjson.
  - intros s n i metadata futures yielded r Hpc Hfin Hget. rewrite Hdoc in Hfin.
    simpl. unfold yield_step. rewrite Hpc, Hfin. simpl. rewrite Hget. simpl.
    eexists. split; [done|]. simpl. split; [set_solver|].
    by rewrite lookup_append_row_to_csv, decide_True.
Qed.

Lemma X18_reply_without_body_witness :
  UYAPZyte.download_document silent_zyte id one_b64decode "d1" = DocText "" ∧
  (∀ page_number page_size,
     silent_zyte (UYAPZyte.headers id)
                 (UYAPZyte.search_payload (λ _, "") page_number page_size)
       = UYAPZyte.Json ∅ →
     no_json "" = None →
     UYAPZyte.post_aramadetaylist silent_zyte id one_b64decode (λ _, "") no_json
       page_number page_size = PageRaise) ∧
  (∀ s n i metadata futures yielded r,
     st_pc s = Collecting n metadata futures yielded →
     finished (st_pool s) !! i
       = Some ("d1", UYAPZyte.download_document silent_zyte id one_b64decode "d1") →
     dict_get metadata "d1" = Some r →
     ∃ s',
       step (UYAPZyte.site silent_zyte id one_b64decode (λ _, "") no_json) (Yield i) s
         = Some s' ∧
       "d1" ∈ st_ids_downloaded s' ∧
       st_fs s' !! CSV_FILE
         = Some (default [] (st_fs s !! CSV_FILE) ++ [CsvLine (make_row r "d1" "")])).
Proof.
  apply (X18_reply_without_body silent_zyte id one_b64decode (λ _, "") no_json "d1" ∅).
  - done.
  - done.
Defined.

(** X19: the text of a document is the decoded body of the reply.  When
    the service answers a document request with a JSON object whose
    "httpResponseBody" is a non-empty string, [download_document] returns
    what [b64decode] makes of that string, whatever else the reply holds
    (a "decodedBody" of the reply itself is overwritten), and raises when
    the string cannot be decoded.  It raises as well when the request
    fails, the status is an error status or the reply is not JSON. *)
Theorem X19_document_is_decoded_body
    (zyte : list (string * string) → UYAPZyte.payload → UYAPZyte.zyte_reply)
    (b64encode : string → string) (b64decode : string → option string)
    (doc_id : string) :
  match zyte (UYAPZyte.headers b64encode) (UYAPZyte.document_payload doc_id) with
  | UYAPZyte.Json data =>
      ∀ raw, data !! "httpResponseBody" = Some (PStr raw) → raw ≠ "" →
             UYAPZyte.download_document zyte b64encode b64decode doc_id =
               match b64decode raw with
               | Some doc_text => DocText doc_text
               | None => DocRaise
               end
  | _ => UYAPZyte.download_document zyte b64encode b64decode doc_id = DocRaise
  end.
Proof.
  unfold UYAPZyte.download_document, UYAPZyte.zyte_request.
  destruct (zyte _ _) as [| | |data]; try done.
  intros raw Hraw Hne. unfold get. rewrite Hraw. simpl.
  destruct raw as [|a raw]; [done|]. simpl.
  destruct (b64decode (String a raw)); simpl; [|done].
  by simplify_map_eq.
Qed.

Lemma X19_document_is_decoded_body_example :
  UYAPZyte.download_document karar_zyte id one_b64decode "d1" = DocText "karar".
Proof. by vm_compute. Qed.
